(** * TubeKit web client ([web/app.js]): identifier extraction, address
      state, remote data client, renderers and orchestration.

    The development embeds the functions of [web/app.js] over an explicit
    page state.  JavaScript strings are sequences of UTF-16 code units,
    JSON data are values of [jsval], the browser built-ins that the file
    calls but does not define ([URL], [JSON.parse], [Date], number
    printing) are the operations of a [Platform]. *)

From Stdlib Require Import List NArith ZArith Bool Lia String Ascii DecimalString.
From Stdlib Require Import Floats.SpecFloat.
Import ListNotations.

Set Implicit Arguments.
Set Warnings "-register-all".
Local Open Scope string_scope.
Local Open Scope list_scope.

(** ** Strings *)

(** A JavaScript string: its UTF-16 code units. *)
Definition jsstring := list N.

(** An ASCII literal of the source as a [jsstring]. *)
Definition lit (s : string) : jsstring :=
  map N_of_ascii (list_ascii_of_string s).

Module Str.

Local Open Scope N_scope.

Fixpoint eqb (a b : jsstring) : bool :=
  match a, b with
  | [], [] => true
  | x :: a', y :: b' => N.eqb x y && eqb a' b'
  | _, _ => false
  end.

Definition between (lo hi c : N) : bool := N.leb lo c && N.leb c hi.

(** The character class [[a-zA-Z0-9_-]]. *)
Definition id_char (c : N) : bool :=
  between 97 122 c || between 65 90 c || between 48 57 c
  || N.eqb c 95 || N.eqb c 45.

(** ECMAScript WhiteSpace and LineTerminator code units, the ones
    [String.prototype.trim] strips. *)
Definition whitespace (c : N) : bool :=
  between 9 13 c || N.eqb c 32 || N.eqb c 160 || N.eqb c 5760
  || between 8192 8202 c || N.eqb c 8232 || N.eqb c 8233
  || N.eqb c 8239 || N.eqb c 8287 || N.eqb c 12288 || N.eqb c 65279.

Fixpoint trimStart (s : jsstring) : jsstring :=
  match s with
  | c :: s' => if whitespace c then trimStart s' else s
  | [] => []
  end.

Definition trimEnd (s : jsstring) : jsstring := rev (trimStart (rev s)).

Definition trim (s : jsstring) : jsstring := trimEnd (trimStart s).

Fixpoint startsWith (s p : jsstring) {struct p} : bool :=
  match p, s with
  | [], _ => true
  | y :: p', x :: s' => N.eqb x y && startsWith s' p'
  | _ :: _, [] => false
  end.

Definition endsWith (s p : jsstring) : bool := startsWith (rev s) (rev p).

(** [s.split(sep)] for a separator of one code unit. *)
Fixpoint split (sep : N) (s : jsstring) : list jsstring :=
  match s with
  | [] => [[]]
  | c :: s' =>
      if N.eqb c sep then [] :: split sep s'
      else match split sep s' with
           | seg :: segs => (c :: seg) :: segs
           | [] => [[c]]
           end
  end.

Definition nonempty (s : jsstring) : bool :=
  match s with [] => false | _ :: _ => true end.

(** Decimal digits of a non-negative integer, as in a template literal. *)
Definition decimal (n : N) : jsstring :=
  lit (NilZero.string_of_uint (N.to_uint n)).

Definition high_surrogate (c : N) : bool := between 55296 56319 c.
Definition low_surrogate (c : N) : bool := between 56320 57343 c.

(** WebIDL USVString conversion: an unpaired surrogate becomes U+FFFD. *)
Fixpoint usv (s : jsstring) : jsstring :=
  match s with
  | [] => []
  | c :: rest =>
      if high_surrogate c then
        match rest with
        | d :: rest' =>
            if low_surrogate d then c :: d :: usv rest' else 65533 :: usv rest
        | [] => [65533]
        end
      else if low_surrogate c then 65533 :: usv rest
      else c :: usv rest
  end.

Definition hex_digit (n : N) : N :=
  if N.ltb n 10 then 48 + n else 55 + n.

Definition percent (byte : N) : jsstring :=
  [37; hex_digit (byte / 16); hex_digit (byte mod 16)].

(** The percent-encoded UTF-8 form of a code point. *)
Definition percent_utf8 (cp : N) : jsstring :=
  if N.ltb cp 128 then percent cp
  else if N.ltb cp 2048 then
    percent (192 + cp / 64) ++ percent (128 + cp mod 64)
  else if N.ltb cp 65536 then
    percent (224 + cp / 4096) ++ percent (128 + (cp / 64) mod 64)
    ++ percent (128 + cp mod 64)
  else
    percent (240 + cp / 262144) ++ percent (128 + (cp / 4096) mod 64)
    ++ percent (128 + (cp / 64) mod 64) ++ percent (128 + cp mod 64).

(** The characters [encodeURIComponent] leaves alone:
    [A-Z a-z 0-9 - _ . ! ~ * ' ( )]. *)
Definition uri_unreserved (c : N) : bool :=
  between 97 122 c || between 65 90 c || between 48 57 c
  || N.eqb c 45 || N.eqb c 95 || N.eqb c 46 || N.eqb c 33 || N.eqb c 126
  || N.eqb c 42 || N.eqb c 39 || N.eqb c 40 || N.eqb c 41.

(** [encodeURIComponent]; [None] is the URIError raised on an unpaired
    surrogate. *)
Fixpoint encodeURIComponent (s : jsstring) : option jsstring :=
  match s with
  | [] => Some []
  | c :: rest =>
      if uri_unreserved c then option_map (cons c) (encodeURIComponent rest)
      else if high_surrogate c then
        match rest with
        | d :: rest' =>
            if low_surrogate d then
              option_map
                (app (percent_utf8 (65536 + (c - 55296) * 1024 + (d - 56320))))
                (encodeURIComponent rest')
            else None
        | [] => None
        end
      else if low_surrogate c then None
      else option_map (app (percent_utf8 c)) (encodeURIComponent rest)
  end.

End Str.

(** ** Values, errors and results *)

(** A value that flows through the program: [undefined] and the JSON
    values, plus the one built-in function object a property the program
    reads can reach ([String.prototype.link]).  An object lists each of
    its members once, in insertion order. *)
Inductive jsval : Type :=
| VUndef
| VNull
| VBool (b : bool)
| VNum (x : spec_float)
| VStr (s : jsstring)
| VArr (items : list jsval)
| VObj (fields : list (jsstring * jsval))
| VBuiltin (name : string).

(** A thrown error object: its name and its [message]. *)
Inductive exn : Type :=
| Thrown (name : string) (message : jsstring).

Definition message_of (e : exn) : jsstring :=
  match e with Thrown _ m => m end.

(** The completion of an evaluation: a value or a thrown error. *)
Inductive Result (A : Type) : Type :=
| Ok (a : A)
| Throw (e : exn).

Arguments Ok {A} a.
Arguments Throw {A} e.

(** ** URL objects *)

(** [URLSearchParams]: the ordered list of name-value pairs. *)
Definition params := list (jsstring * jsstring).

Module SearchParams.

Fixpoint get (name : jsstring) (ps : params) : option jsstring :=
  match ps with
  | [] => None
  | (k, v) :: rest => if Str.eqb k name then Some v else get name rest
  end.

Definition remove (name : jsstring) (ps : params) : params :=
  filter (fun kv => negb (Str.eqb (fst kv) name)) ps.

(** [set] on scalar-value strings: the first pair of that name takes the
    value and the later ones go; with no such pair one is appended. *)
Fixpoint put (name value : jsstring) (ps : params) : params :=
  match ps with
  | [] => [(name, value)]
  | (k, v) :: rest =>
      if Str.eqb k name then (k, value) :: remove name rest
      else (k, v) :: put name value rest
  end.

(** The methods as called from script: arguments pass through the
    USVString conversion. *)
Definition js_get (name : jsstring) (ps : params) : option jsstring :=
  get (Str.usv name) ps.

Definition js_delete (name : jsstring) (ps : params) : params :=
  remove (Str.usv name) ps.

Definition js_set (name value : jsstring) (ps : params) : params :=
  put (Str.usv name) (Str.usv value) ps.

End SearchParams.

(** The components of a [URL] object the program reads or writes; [rest]
    stands for the others (scheme, credentials, port, fragment). *)
Record URL : Type := mkURL {
  origin : jsstring;
  hostname : jsstring;
  pathname : jsstring;
  searchParams : params;
  rest : jsstring
}.

Definition with_params (u : URL) (ps : params) : URL :=
  mkURL (origin u) (hostname u) (pathname u) ps (rest u).

(** ** The browser platform *)

(** Built-ins of the browser that [app.js] calls.  A constructor that may
    throw returns an [option] or a [Result]. *)
Class Platform : Type := {
  (** [new URL(s)]; [None] is the TypeError of an invalid URL. *)
  URL_parse : jsstring -> option URL;
  (** [new URL(s, base)]. *)
  URL_resolve : jsstring -> jsstring -> option URL;
  (** [url.toString()]. *)
  URL_toString : URL -> jsstring;
  (** [JSON.parse(text)]; [None] is the SyntaxError. *)
  JSON_parse : jsstring -> option jsval;
  (** [new Date(v)] followed by the validity test and
      [toLocaleString(undefined, {dateStyle: "medium"})]: [Ok None] for an
      invalid date, [Throw] when the conversion of [v] throws. *)
  Date_medium : jsval -> Result (option jsstring);
  (** [Number.prototype.toString]. *)
  Number_toString : spec_float -> jsstring;
  (** The source text of a built-in function. *)
  builtin_source : string -> jsstring;
  (** The message the engine gives an error it raises itself. *)
  engine_message : string -> jsstring
}.

Definition embed_prefix : jsstring :=
  lit "https://www.youtube-nocookie.com/embed/".

(** What the theorems use of the URL Standard: an absolute URL has a
    scheme, so its text holds a colon; and every string that extends the
    embed address is a valid URL (after the host, the path state accepts
    any code unit). *)
Class PlatformLaws (P : Platform) : Prop := {
  URL_parse_scheme :
    forall s u, URL_parse s = Some u -> In 58%N s;
  URL_parse_embed :
    forall x, URL_parse (embed_prefix ++ x) <> None
}.

Section Core.

Context {P : Platform}.

Definition TypeError (site : string) : exn :=
  Thrown "TypeError" (engine_message site).

Definition URIError : exn :=
  Thrown "URIError" (engine_message "URI malformed").

(** ** Conversions *)

(** ToBoolean. *)
Definition truthy (v : jsval) : bool :=
  match v with
  | VUndef | VNull => false
  | VBool b => b
  | VNum (S754_zero _) | VNum S754_nan => false
  | VNum _ => true
  | VStr s => Str.nonempty s
  | VArr _ | VObj _ | VBuiltin _ => true
  end.

(** [a || b]. *)
Definition js_or (a b : jsval) : jsval := if truthy a then a else b.

Fixpoint lookup (k : jsstring) (fields : list (jsstring * jsval)) : option jsval :=
  match fields with
  | [] => None
  | (k', v) :: more => if Str.eqb k' k then Some v else lookup k more
  end.

Definition has_key (k : jsstring) (fields : list (jsstring * jsval)) : bool :=
  match lookup k fields with Some _ => true | None => false end.

(** ToString.  An array joins its elements with commas, [null] and
    [undefined] elements printing as nothing.  A parsed object prints as
    [[object Object]] through [Object.prototype.toString], unless an own
    member named [toString] (never callable in parsed data) hides it, and
    then the conversion throws. *)
Fixpoint to_string (v : jsval) : Result jsstring :=
  match v with
  | VUndef => Ok (lit "undefined")
  | VNull => Ok (lit "null")
  | VBool true => Ok (lit "true")
  | VBool false => Ok (lit "false")
  | VNum x => Ok (Number_toString x)
  | VStr s => Ok s
  | VArr items =>
      (fix join (l : list jsval) : Result jsstring :=
         match l with
         | [] => Ok []
         | x :: more =>
             let head :=
               match x with
               | VUndef | VNull => Ok []
               | _ => to_string x
               end in
             match head, more with
             | Throw e, _ => Throw e
             | Ok h, [] => Ok h
             | Ok h, _ :: _ =>
                 match join more with
                 | Ok t => Ok (h ++ 44%N :: t)
                 | Throw e => Throw e
                 end
             end
         end) items
  | VObj fields =>
      if has_key (lit "toString") fields
      then Throw (TypeError "Cannot convert object to primitive value")
      else Ok (lit "[object Object]")
  | VBuiltin name => Ok (builtin_source name)
  end.

(** [v?.k], for the property names this program reads ([title],
    [feedUrl], [items], [error], [thumbnail], [videoId], [published],
    [link], [description], [author_name]): an object gives its member, a
    string has [link] from its prototype, nothing else has any of them. *)
Definition get_opt (v : jsval) (k : jsstring) : jsval :=
  match v with
  | VObj fields => match lookup k fields with Some x => x | None => VUndef end
  | VStr _ => if Str.eqb k (lit "link") then VBuiltin "link" else VUndef
  | _ => VUndef
  end.

(** [v.k]: a TypeError on [null] and [undefined]. *)
Definition get_prop (v : jsval) (k : jsstring) : Result jsval :=
  match v with
  | VUndef | VNull => Throw (TypeError "Cannot read properties of null or undefined")
  | _ => Ok (get_opt v k)
  end.

(** ** Identifier extractors *)

(** [/^[a-zA-Z0-9_-]{11}$/]. *)
Definition video_id_pattern (s : jsstring) : bool :=
  Nat.eqb (List.length s) 11 && forallb Str.id_char s.

(** The first [n] code units of [s] when all are id characters. *)
Fixpoint id_chars (n : nat) (s : jsstring) : option jsstring :=
  match n with
  | O => Some []
  | S n' =>
      match s with
      | c :: s' =>
          if Str.id_char c then option_map (cons c) (id_chars n' s') else None
      | [] => None
      end
  end.

(** The longest prefix of id characters. *)
Fixpoint id_run (s : jsstring) : jsstring :=
  match s with
  | c :: s' => if Str.id_char c then c :: id_run s' else []
  | [] => []
  end.

(** [/UC[a-zA-Z0-9_-]{22}/] anchored at the head of [s]. *)
Definition channel_at (s : jsstring) : option jsstring :=
  if Str.startsWith s (lit "UC")
  then option_map (app (lit "UC")) (id_chars 22 (skipn 2 s))
  else None.

(** [/PL[a-zA-Z0-9_-]+/] anchored at the head of [s]; [+] is greedy. *)
Definition playlist_at (s : jsstring) : option jsstring :=
  if Str.startsWith s (lit "PL") then
    match id_run (skipn 2 s) with
    | [] => None
    | run => Some (lit "PL" ++ run)
    end
  else None.

(** [s.match(re)] for an unanchored pattern: the match at the leftmost
    position that has one. *)
Fixpoint search (at_head : jsstring -> option jsstring) (s : jsstring)
  : option jsstring :=
  match at_head s with
  | Some m => Some m
  | None =>
      match s with
      | [] => None
      | _ :: s' => search at_head s'
      end
  end.

(** [(input || "").trim()]: calling [trim] on a truthy value that is not
    a string is a TypeError. *)
Definition trimmed (input : jsval) : Result jsstring :=
  match js_or input (VStr []) with
  | VStr s => Ok (Str.trim s)
  | _ => Throw (TypeError "trim is not a function")
  end.

(** [host.replace(/^www\./, "")]. *)
Definition strip_www (host : jsstring) : jsstring :=
  if Str.startsWith host (lit "www.") then skipn 4 host else host.

(** [url.pathname.split("/").filter(Boolean)]. *)
Definition path_parts (u : URL) : list jsstring :=
  filter Str.nonempty (Str.split 47%N (pathname u)).

(** [parts[i] || ""]. *)
Definition part (i : nat) (parts : list jsstring) : jsstring := nth i parts [].

Definition checked (candidate : jsstring) : option jsstring :=
  if video_id_pattern candidate then Some candidate else None.

(** [parts[0] === name]. *)
Definition head_is (parts : list jsstring) (name : jsstring) : bool :=
  match nth_error parts 0 with
  | Some p => Str.eqb p name
  | None => false
  end.

(** [url.searchParams.get("v")], kept when [v && v.match(...)]. *)
Definition v_param (url : URL) : option jsstring :=
  match SearchParams.js_get (lit "v") (searchParams url) with
  | Some v => if Str.nonempty v && video_id_pattern v then Some v else None
  | None => None
  end.

(** The body of [extractVideoId] after a successful [new URL(raw)]. *)
Definition from_url (url : URL) : option jsstring :=
  let host := strip_www (hostname url) in
  if Str.eqb host (lit "youtu.be") then checked (part 0 (path_parts url))
  else if Str.endsWith host (lit "youtube.com") then
    match v_param url with
    | Some v => Some v
    | None =>
        let parts := path_parts url in
        if head_is parts (lit "shorts") || head_is parts (lit "embed")
        then checked (part 1 parts)
        else None
    end
  else None.

Definition extractVideoId (input : jsval) : Result (option jsstring) :=
  match trimmed input with
  | Throw e => Throw e
  | Ok raw =>
      if negb (Str.nonempty raw) then Ok None
      else if video_id_pattern raw then Ok (Some raw)
      else match URL_parse raw with
           | None => Ok None
           | Some url => Ok (from_url url)
           end
  end.

Definition extractChannelId (input : jsval) : Result (option jsstring) :=
  match trimmed input with
  | Throw e => Throw e
  | Ok raw =>
      if negb (Str.nonempty raw) then Ok None
      else Ok (search channel_at raw)
  end.

Definition extractPlaylistId (input : jsval) : Result (option jsstring) :=
  match trimmed input with
  | Throw e => Throw e
  | Ok raw =>
      if negb (Str.nonempty raw) then Ok None
      else Ok (search playlist_at raw)
  end.

End Core.

(** ** The page *)

(** An element built by script: its tag, the properties assigned to it in
    source order, its children, and the item its click listener closes
    over, if it has a listener. *)
Inductive Node : Type :=
| Element (tag : string) (props : list (string * jsstring))
    (children : list Node) (listener : option jsval).

Record Inputs : Type := mkInputs {
  videoInput : jsstring;
  channelInput : jsstring;
  playlistInput : jsstring
}.

(** [#status]: its text and whether its class list holds [error]. *)
Record Status : Type := mkStatus {
  status_text : jsstring;
  status_error : bool
}.

(** [#playerFrame.src] and [#playerPlaceholder.style.display]. *)
Record Player : Type := mkPlayer {
  frame_src : jsstring;
  placeholder_display : jsstring
}.

(** [#metaTitle], [#metaByline], [#metaActions]. *)
Record Meta : Type := mkMeta {
  metaTitle : jsstring;
  metaByline : jsstring;
  metaActions : list Node
}.

(** [#resultsTitle], [#resultsSub], [#resultsList]. *)
Record Results : Type := mkResults {
  resultsTitle : jsstring;
  resultsSub : jsstring;
  resultsList : list Node
}.

(** Everything the program reads or writes: the address
    ([window.location], written through [history.replaceState]) and the
    elements it selects, all of them present in the served document. *)
Record Page : Type := mkPage {
  location : URL;
  inputs : Inputs;
  status : Status;
  player : Player;
  meta : Meta;
  results : Results
}.

Definition set_location (u : URL) (st : Page) : Page :=
  mkPage u (inputs st) (status st) (player st) (meta st) (results st).
Definition set_inputs (i : Inputs) (st : Page) : Page :=
  mkPage (location st) i (status st) (player st) (meta st) (results st).
Definition set_status (s : Status) (st : Page) : Page :=
  mkPage (location st) (inputs st) s (player st) (meta st) (results st).
Definition set_player (p : Player) (st : Page) : Page :=
  mkPage (location st) (inputs st) (status st) p (meta st) (results st).
Definition set_meta (m : Meta) (st : Page) : Page :=
  mkPage (location st) (inputs st) (status st) (player st) m (results st).
Definition set_results (r : Results) (st : Page) : Page :=
  mkPage (location st) (inputs st) (status st) (player st) (meta st) r.

(** ** Effects *)

Class Monad (M : Type -> Type) : Type := {
  ret : forall A, A -> M A;
  bind : forall A B, M A -> (A -> M B) -> M B
}.

Arguments ret {M _ A} _.
Arguments bind {M _ A B} _ _.

Notation "x <- m ;; k" := (bind m (fun x => k))
  (at level 61, m at next level, right associativity).
Notation "m ;; k" := (bind m (fun _ => k))
  (at level 61, right associativity).

#[export] Instance Result_Monad : Monad Result := {
  ret := fun A a => Ok a;
  bind := fun A B m f =>
    match m with
    | Ok a => f a
    | Throw e => Throw e
    end
}.

(** Synchronous code: it runs to completion on the page. *)
Definition Sync (A : Type) : Type := Page -> Result A * Page.

#[export] Instance Sync_Monad : Monad Sync := {
  ret := fun A a st => (Ok a, st);
  bind := fun A B m f st =>
    match m st with
    | (Ok a, st') => f a st'
    | (Throw e, st') => (Throw e, st')
    end
}.

Definition pure {A} (r : Result A) : Sync A := fun st => (r, st).

Definition modify (f : Page -> Page) : Sync unit := fun st => (Ok tt, f st).

Definition read {A} (f : Page -> A) : Sync A := fun st => (Ok (f st), st).

(** What the awaited exchange [fetch(path)] then [res.text()] comes back
    with: a rejection, or the status and the body text.  The program
    touches nothing between the two awaits, so they make one suspension. *)
Inductive outcome : Type :=
| Rejected (e : exn)
| Responded (status : N) (text : jsstring).

(** An asynchronous function runs until it completes, or until it has
    issued [request] in page [st] and awaits it; [resume] continues it in
    the page as it is when the outcome arrives. *)
Inductive Step (A : Type) : Type :=
| Done (r : Result A) (st : Page)
| Pending (request : jsstring) (st : Page) (resume : outcome -> Page -> Step A).

Arguments Done {A} r st.
Arguments Pending {A} request st resume.

Definition Async (A : Type) : Type := Page -> Step A.

Fixpoint step_bind {A B} (s : Step A) (f : A -> Async B) : Step B :=
  match s with
  | Done (Ok a) st => f a st
  | Done (Throw e) st => Done (Throw e) st
  | Pending request st resume =>
      Pending request st (fun o st' => step_bind (resume o st') f)
  end.

#[export] Instance Async_Monad : Monad Async := {
  ret := fun A a st => Done (Ok a) st;
  bind := fun A B m f st => step_bind (m st) f
}.

(** [try { body } catch (e) { handler }] around asynchronous code. *)
Fixpoint step_catch {A} (s : Step A) (handler : exn -> Async A) : Step A :=
  match s with
  | Done (Ok a) st => Done (Ok a) st
  | Done (Throw e) st => handler e st
  | Pending request st resume =>
      Pending request st (fun o st' => step_catch (resume o st') handler)
  end.

Definition try_catch {A} (body : Async A) (handler : exn -> Async A) : Async A :=
  fun st => step_catch (body st) handler.

(** A synchronous call inside asynchronous code. *)
Definition call {A} (m : Sync A) : Async A :=
  fun st => let (r, st') := m st in Done r st'.

Section Program.

Context {P : Platform}.

(** ** [setStatus] *)

Definition setStatus (message : jsstring) (error : bool) : Sync unit :=
  modify (set_status (mkStatus message error)).

(** ** [setQuery] *)

(** [v === null || v === undefined || v === ""]. *)
Definition clears (v : jsval) : bool :=
  match v with
  | VNull | VUndef | VStr [] => true
  | _ => false
  end.

(** The [forEach] over [Object.entries(updates)]. *)
Fixpoint apply_updates (updates : list (jsstring * jsval)) (ps : params)
  : Result params :=
  match updates with
  | [] => Ok ps
  | (k, v) :: more =>
      if clears v then apply_updates more (SearchParams.js_delete k ps)
      else
        s <- to_string v ;;
        apply_updates more (SearchParams.js_set k s ps)
  end.

Definition setQuery (updates : list (jsstring * jsval)) : Sync unit :=
  url <- read location ;;
  ps <- pure (apply_updates updates (searchParams url)) ;;
  modify (set_location (with_params url ps)).

(** ** [fetchJson] *)

(** [res.ok]. *)
Definition ok (status : N) : bool := Str.between 200 299 status.

(** [`HTTP ${res.status}`]. *)
Definition http_status (status : N) : jsstring :=
  lit "HTTP " ++ Str.decimal status.

(** The [try { data = JSON.parse(text) } catch { ... }] block. *)
Definition payload (status : N) (text : jsstring) : jsval :=
  match JSON_parse text with
  | Some data => data
  | None => VObj [(lit "error", js_or (VStr text) (VStr (http_status status)))]
  end.

(** [fetchJson] from the point where the exchange has come back. *)
Definition settle (o : outcome) : Result jsval :=
  match o with
  | Rejected e => Throw e
  | Responded status text =>
      let data := payload status text in
      if negb (ok status) then
        message <- to_string (js_or (get_opt data (lit "error"))
                                    (VStr (http_status status))) ;;
        Throw (Thrown "Error" message)
      else Ok data
  end.

Definition fetchJson (path : jsstring) : Async jsval :=
  fun st => Pending path st (fun o st' => Done (settle o) st').

(** ** [setPlayer] *)

(** [`${prefix}${v}`]. *)
Definition template (prefix : jsstring) (v : jsval) : Result jsstring :=
  s <- to_string v ;; Ok (prefix ++ s).

Definition new_URL (s : jsstring) : Result URL :=
  match URL_parse s with
  | Some u => Ok u
  | None => Throw (TypeError "Invalid URL")
  end.

Definition embed_params (ps : params) : params :=
  SearchParams.js_set (lit "modestbranding") (lit "1")
    (SearchParams.js_set (lit "rel") (lit "0")
       (SearchParams.js_set (lit "autoplay") (lit "1") ps)).

Definition set_frame_src (src : jsstring) (st : Page) : Page :=
  set_player (mkPlayer src (placeholder_display (player st))) st.

Definition set_placeholder (display : jsstring) (st : Page) : Page :=
  set_player (mkPlayer (frame_src (player st)) display) st.

Definition setPlayer (videoId : jsval) : Sync unit :=
  if negb (truthy videoId) then
    modify (set_frame_src []) ;;
    modify (set_placeholder (lit "grid"))
  else
    modify (set_placeholder (lit "none")) ;;
    address <- pure (template embed_prefix videoId) ;;
    src <- pure (new_URL address) ;;
    modify (set_frame_src
              (URL_toString (with_params src (embed_params (searchParams src))))).

(** ** [renderMeta] *)

(** [encodeURIComponent(v)]. *)
Definition encode (v : jsval) : Result jsstring :=
  s <- to_string v ;;
  match Str.encodeURIComponent s with
  | Some t => Ok t
  | None => Throw URIError
  end.

Definition field (k : string) (fields : list (jsstring * jsval)) : jsval :=
  match lookup (lit k) fields with
  | Some v => v
  | None => VUndef
  end.

(** The text of [#metaTitle]:
    [title || (videoId ? `Video: ${videoId}` : "")]. *)
Definition meta_title_text (title videoId : jsval) : Result jsstring :=
  if truthy title then to_string title
  else if truthy videoId then template (lit "Video: ") videoId
  else Ok [].

(** The text of [#metaByline]: [author_name ? `by ${author_name}` : ""]. *)
Definition meta_byline_text (author_name : jsval) : Result jsstring :=
  if truthy author_name then template (lit "by ") author_name else Ok [].

Definition watch_link (href : jsstring) : Node :=
  Element "a"
    [("href", href); ("target", lit "_blank"); ("rel", lit "noreferrer noopener");
     ("textContent", lit "Open on YouTube")] [] None.

Definition share_link (href : jsstring) : Node :=
  Element "a" [("href", href); ("textContent", lit "Permalink")] [] None.

Definition set_metaTitle (t : jsstring) (st : Page) : Page :=
  set_meta (mkMeta t (metaByline (meta st)) (metaActions (meta st))) st.

Definition set_metaByline (b : jsstring) (st : Page) : Page :=
  set_meta (mkMeta (metaTitle (meta st)) b (metaActions (meta st))) st.

Definition set_metaActions (l : list Node) (st : Page) : Page :=
  set_meta (mkMeta (metaTitle (meta st)) (metaByline (meta st)) l) st.

Definition renderMeta (arg : list (jsstring * jsval)) : Sync unit :=
  let videoId := field "videoId" arg in
  let title := field "title" arg in
  let author_name := field "author_name" arg in
  t <- pure (meta_title_text title videoId) ;;
  modify (set_metaTitle t) ;;
  b <- pure (meta_byline_text author_name) ;;
  modify (set_metaByline b) ;;
  modify (set_metaActions []) ;;
  if negb (truthy videoId) then ret tt
  else
    encoded <- pure (encode videoId) ;;
    link <- read location ;;
    v <- pure (to_string videoId) ;;
    let watch := watch_link (lit "https://www.youtube.com/watch?v=" ++ encoded) in
    let share :=
      share_link (URL_toString
                    (with_params link (SearchParams.js_set (lit "v") v (searchParams link)))) in
    modify (fun st => set_metaActions (metaActions (meta st) ++ [watch; share]) st).

(** ** [loadOEmbed] *)

Fixpoint assign (k : jsstring) (v : jsval) (fields : list (jsstring * jsval))
  : list (jsstring * jsval) :=
  match fields with
  | [] => [(k, v)]
  | (k', v') :: more =>
      if Str.eqb k' k then (k', v) :: more else (k', v') :: assign k v more
  end.

Fixpoint indexed (i : N) (l : list jsval) : list (jsstring * jsval) :=
  match l with
  | [] => []
  | x :: more => (Str.decimal i, x) :: indexed (N.succ i) more
  end.

(** The own enumerable members an object spread copies. *)
Definition own_entries (v : jsval) : list (jsstring * jsval) :=
  match v with
  | VObj fields => fields
  | VArr items => indexed 0 items
  | VStr s => indexed 0 (map (fun c => VStr [c]) s)
  | _ => []
  end.

(** [{ ...base, ...data }]. *)
Definition spread (base : list (jsstring * jsval)) (data : jsval)
  : list (jsstring * jsval) :=
  fold_left (fun acc kv => assign (fst kv) (snd kv) acc) (own_entries data) base.

Definition oembed_path (encoded : jsstring) : jsstring :=
  lit "/api/oembed?v=" ++ encoded.

Definition loadOEmbed (videoId : jsval) : Async unit :=
  try_catch
    (encoded <- call (pure (encode videoId)) ;;
     data <- fetchJson (oembed_path encoded) ;;
     call (renderMeta (spread [(lit "videoId", videoId)] data)))
    (fun _ => call (renderMeta [(lit "videoId", videoId)])).

(** ** [formatDate] and [renderFeed] *)

Definition formatDate (iso : jsval) : Result jsval :=
  if negb (truthy iso) then Ok (VStr [])
  else
    d <- Date_medium iso ;;
    match d with
    | None => Ok iso
    | Some text => Ok (VStr text)
    end.

Definition set_resultsTitle (t : jsstring) (st : Page) : Page :=
  set_results (mkResults t (resultsSub (results st)) (resultsList (results st))) st.

Definition set_resultsSub (t : jsstring) (st : Page) : Page :=
  set_results (mkResults (resultsTitle (results st)) t (resultsList (results st))) st.

Definition set_resultsList (l : list Node) (st : Page) : Page :=
  set_results (mkResults (resultsTitle (results st)) (resultsSub (results st)) l) st.

(** [list.appendChild(node)]. *)
Definition appendChild (node : Node) : Sync unit :=
  modify (fun st => set_resultsList (resultsList (results st) ++ [node]) st).

(** The entry shown for an empty item sequence. *)
Definition placeholder : Node :=
  Element "li" [("className", lit "status"); ("textContent", lit "No items.")] [] None.

(** One turn of the loop of [renderFeed], up to [list.appendChild(li)]:
    the entry built for [item].  Its click listener closes over [item].
    The [src] of the image and the [href] of the link are USVString
    attributes: what they keep is the scalar-value form of the text. *)
Definition entry (item : jsval) : Result Node :=
  thumbnail <- get_prop item (lit "thumbnail") ;;
  images <-
    (if truthy thumbnail then
       thumbnail' <- get_prop item (lit "thumbnail") ;;
       src <- to_string thumbnail' ;;
       Ok [Element "img" [("loading", lit "lazy"); ("alt", []); ("src", Str.usv src)]
             [] None]
     else Ok []) ;;
  let thumb := Element "div" [("className", lit "thumb")] images None in
  title <- get_prop item (lit "title") ;;
  videoId <- (if truthy title then Ok VUndef else get_prop item (lit "videoId")) ;;
  titleText <- to_string (js_or (js_or title videoId) (VStr (lit "Untitled"))) ;;
  let title_p :=
    Element "p" [("className", lit "itemTitle"); ("textContent", titleText)] [] None in
  published <- get_prop item (lit "published") ;;
  formatted <- formatDate published ;;
  dateText <- to_string formatted ;;
  let date := Element "span" [("textContent", dateText)] [] None in
  link <- get_prop item (lit "link") ;;
  href <-
    (if truthy link then to_string link
     else
       videoId' <- get_prop item (lit "videoId") ;;
       template (lit "https://www.youtube.com/watch?v=") videoId') ;;
  let open :=
    Element "a"
      [("href", Str.usv href); ("target", lit "_blank"); ("rel", lit "noreferrer noopener");
       ("textContent", lit "YouTube")] [] None in
  let meta_div := Element "div" [("className", lit "itemMeta")] [date; open] None in
  description <- get_prop item (lit "description") ;;
  descText <- to_string (js_or description (VStr [])) ;;
  let desc := Element "div" [("className", lit "itemDesc"); ("textContent", descText)] [] None in
  let body := Element "div" [] [title_p; meta_div; desc] None in
  Ok (Element "li" [("className", lit "item")] [thumb; body] (Some item)).

(** [for (const item of items) { ... }]. *)
Fixpoint each_item (items : list jsval) : Sync unit :=
  match items with
  | [] => ret tt
  | item :: more =>
      li <- pure (entry item) ;;
      appendChild li ;;
      each_item more
  end.

(** [Array.isArray(feed?.items) ? feed.items : []]. *)
Definition items_of (feed : jsval) : list jsval :=
  match get_opt feed (lit "items") with
  | VArr l => l
  | _ => []
  end.

Definition renderFeed (feed : jsval) : Sync unit :=
  title <- pure (to_string (js_or (get_opt feed (lit "title")) (VStr (lit "Feed")))) ;;
  modify (set_resultsTitle title) ;;
  sub <- pure (to_string (js_or (get_opt feed (lit "feedUrl")) (VStr []))) ;;
  modify (set_resultsSub sub) ;;
  modify (set_resultsList []) ;;
  match items_of feed with
  | [] => appendChild placeholder
  | items => each_item items
  end.

(** ** [loadFeed] *)

(** The feed rendered after a failed load: [{ title: "Feed", items: [] }]. *)
Definition empty_feed : jsval :=
  VObj [(lit "title", VStr (lit "Feed")); (lit "items", VArr [])].

(** [e?.message || "Failed to load feed"]. *)
Definition failure_text (e : exn) : jsstring :=
  if Str.nonempty (message_of e) then message_of e else lit "Failed to load feed".

Definition loading_text : jsstring := lit "Loading feed" ++ [8230%N].

(** [new URL("/api/feed", window.location.origin)] with the entries of
    [params] set on it, as a string. *)
Definition feed_request (feed_params : list (jsstring * jsstring)) : Sync jsstring :=
  base <- read (fun st => origin (location st)) ;;
  match URL_resolve (lit "/api/feed") base with
  | None => pure (Throw (TypeError "Invalid URL"))
  | Some url =>
      ret (URL_toString
             (with_params url
                (fold_left (fun ps kv => SearchParams.js_set (fst kv) (snd kv) ps)
                           feed_params (searchParams url))))
  end.

Definition loadFeed (feed_params : list (jsstring * jsstring)) : Async unit :=
  call (setStatus loading_text false) ;;
  try_catch
    (request <- call (feed_request feed_params) ;;
     data <- fetchJson request ;;
     call (renderFeed data) ;;
     call (setStatus [] false))
    (fun e =>
       call (setStatus (failure_text e) true) ;;
       call (renderFeed empty_feed)).

(** ** [playVideo] *)

Definition playVideo (videoId : jsval) (pushQuery : bool) : Async unit :=
  if negb (truthy videoId) then ret tt
  else
    call (setPlayer videoId) ;;
    (if pushQuery then call (setQuery [(lit "v", videoId)]) else ret tt) ;;
    loadOEmbed videoId.

(** The click listener of a results entry: [on_link] tells whether the
    click landed inside an [a] element. *)
Definition entry_click (item : jsval) (on_link : bool) : Async unit :=
  if on_link then ret tt
  else
    videoId <- call (pure (get_prop item (lit "videoId"))) ;;
    if negb (truthy videoId) then ret tt
    else
      videoId' <- call (pure (get_prop item (lit "videoId"))) ;;
      playVideo videoId' true.

(** ** [bindUI] *)

(** An extractor result as the [if (!id)] tests see it. *)
Definition found (id : option jsstring) : option jsstring :=
  match id with
  | Some s => if Str.nonempty s then Some s else None
  | None => None
  end.

Definition no_video_text : jsstring :=
  lit "Couldn" ++ [8217%N] ++ lit "t find a video ID in that input.".

Definition no_channel_text : jsstring :=
  lit "Enter a channel ID like UC" ++ [8230%N] ++ lit " (handles need a channel ID).".

Definition no_playlist_text : jsstring :=
  lit "Enter a playlist ID like PL" ++ [8230%N].

Definition playBtn_click : Async unit :=
  text <- call (read (fun st => videoInput (inputs st))) ;;
  id <- call (pure (extractVideoId (VStr text))) ;;
  match found id with
  | None => call (setStatus no_video_text true)
  | Some id =>
      call (setStatus [] false) ;;
      playVideo (VStr id) true
  end.

Definition channelBtn_click : Async unit :=
  text <- call (read (fun st => channelInput (inputs st))) ;;
  id <- call (pure (extractChannelId (VStr text))) ;;
  match found id with
  | None => call (setStatus no_channel_text true)
  | Some id =>
      call (setQuery [(lit "channel", VStr id); (lit "playlist", VNull)]) ;;
      loadFeed [(lit "channel_id", id)]
  end.

Definition playlistBtn_click : Async unit :=
  text <- call (read (fun st => playlistInput (inputs st))) ;;
  id <- call (pure (extractPlaylistId (VStr text))) ;;
  match found id with
  | None => call (setStatus no_playlist_text true)
  | Some id =>
      call (setQuery [(lit "playlist", VStr id); (lit "channel", VNull)]) ;;
      loadFeed [(lit "playlist_id", id)]
  end.

(** ** [initFromQuery] *)

(** [searchParams.get(name)] as a value: a string or [null]. *)
Definition param_value (name : string) (url : URL) : jsval :=
  match SearchParams.js_get (lit name) (searchParams url) with
  | Some s => VStr s
  | None => VNull
  end.

(** The value sanitization of a text input: line feeds and carriage
    returns are stripped. *)
Definition strip_newlines (s : jsstring) : jsstring :=
  filter (fun c => negb (N.eqb c 10 || N.eqb c 13)%N) s.

(** [input.value = v] on a text input: the setter takes [null] as the
    empty string, and the element keeps the sanitized text. *)
Definition set_value (which : Inputs -> jsstring -> Inputs) (v : jsval) : Sync unit :=
  s <- pure (match v with VNull => Ok [] | _ => to_string v end) ;;
  modify (fun st => set_inputs (which (inputs st) (strip_newlines s)) st).

Definition initFromQuery : Async unit :=
  url <- call (read location) ;;
  let v := param_value "v" url in
  let channel := param_value "channel" url in
  let playlist := param_value "playlist" url in
  (if truthy v then
     call (set_value (fun i s => mkInputs s (channelInput i) (playlistInput i)) v) ;;
     id <- call (pure (extractVideoId v)) ;;
     match found id with
     | Some id => playVideo (VStr id) false
     | None => ret tt
     end
   else ret tt) ;;
  if truthy channel then
    call (set_value (fun i s => mkInputs (videoInput i) s (playlistInput i)) channel) ;;
    id <- call (pure (extractChannelId channel)) ;;
    match found id with
    | Some id => loadFeed [(lit "channel_id", id)]
    | None => ret tt
    end
  else if truthy playlist then
    call (set_value (fun i s => mkInputs (videoInput i) (channelInput i) s) playlist) ;;
    id <- call (pure (extractPlaylistId playlist)) ;;
    match found id with
    | Some id => loadFeed [(lit "playlist_id", id)]
    | None => ret tt
    end
  else ret tt.

End Program.

(** ** Vocabulary of the statements *)

Definition alphabet : jsstring :=
  lit "ABCDEFGHIJKLMNOPQRSTUVWXYZabcdefghijklmnopqrstuvwxyz0123456789_-".

(** A VideoId: exactly 11 characters of the alphabet [[A-Za-z0-9_-]]. *)
Definition VideoId (s : jsstring) : Prop :=
  List.length s = 11 /\ Forall (fun c => In c alphabet) s.

(** A ChannelId: [UC] followed by 22 characters of the alphabet. *)
Definition ChannelId (s : jsstring) : Prop :=
  exists t, s = lit "UC" ++ t /\ List.length t = 22 /\ Forall (fun c => In c alphabet) t.

(** A PlaylistId: [PL] followed by one or more characters of the alphabet. *)
Definition PlaylistId (s : jsstring) : Prop :=
  exists t, s = lit "PL" ++ t /\ t <> [] /\ Forall (fun c => In c alphabet) t.

(** [id] occurs in [text]. *)
Definition occurs (id text : jsstring) : Prop :=
  exists a b, text = a ++ id ++ b.

(** [bare] is the host name [host] less a leading [www.]: either [host]
    is [www.] followed by [bare], or it does not start with [www.] and
    is [bare] itself. *)
Definition bare_host (host bare : jsstring) : Prop :=
  host = lit "www." ++ bare
  \/ (host = bare /\ forall t, host <> lit "www." ++ t).

(** [segments] are the non-empty segments of the path [path], in order:
    the path is those segments, each non-empty and free of [/], with one
    or more [/] between them and any number of [/] before and after. *)
Inductive segments_of : jsstring -> list jsstring -> Prop :=
| segments_none : segments_of [] []
| segments_slash (path : jsstring) (segments : list jsstring) :
    segments_of path segments -> segments_of (47%N :: path) segments
| segments_last (p : jsstring) :
    p <> [] -> ~ In 47%N p -> segments_of p [p]
| segments_more (p path : jsstring) (segments : list jsstring) :
    p <> [] -> ~ In 47%N p -> segments_of path segments ->
    segments_of (p ++ 47%N :: path) (p :: segments).

(** A value of the data model that is text when present: a string,
    [null] or [undefined]. *)
Definition optional_text (v : jsval) : Prop :=
  match v with
  | VUndef | VNull | VStr _ => True
  | _ => False
  end.

(** The parameter names an update mapping addresses. *)
Definition named (updates : list (jsstring * jsval)) : list jsstring :=
  map (fun kv => Str.usv (fst kv)) updates.

(** The pairs of a given name, in order. *)
Definition pairs_named (name : jsstring) (ps : params) : params :=
  filter (fun kv => Str.eqb (fst kv) name) ps.

(** The query parameters of the address of a page. *)
Definition address (st : Page) : params := searchParams (location st).

Section Vocabulary.

Context {P : Platform}.

(** The extractors read to the letter of "never raises, whatever the
    input value": each of the three completes with a result on every
    value. *)
Definition never_raise : Prop :=
  forall input : jsval,
    (exists r, extractVideoId input = Ok r)
    /\ (exists r, extractChannelId input = Ok r)
    /\ (exists r, extractPlaylistId input = Ok r).

(** The message rule read to the letter: on an unsuccessful status the
    thrown message is the string form of the payload's [error] member
    whenever the payload has that member. *)
Definition message_from_error_member : Prop :=
  forall status text fields v m,
    ok status = false ->
    payload status text = VObj fields ->
    lookup (lit "error") fields = Some v ->
    to_string v = Ok m ->
    settle (Responded status text) = Throw (Thrown "Error" m).

(** The body [{"error":""}]. *)
Definition empty_error_body : jsstring :=
  lit "{" ++ [34%N] ++ lit "error" ++ [34%N; 58%N; 34%N; 34%N] ++ lit "}".

(** The entries the loop of [renderFeed] appends before it ends or
    throws, and how it ends. *)
Fixpoint entries (items : list jsval) : list Node * Result unit :=
  match items with
  | [] => ([], Ok tt)
  | item :: more =>
      match entry item with
      | Ok li => (li :: fst (entries more), snd (entries more))
      | Throw e => ([], Throw e)
      end
  end.

(** What [renderFeed] puts in the list, and how it ends. *)
Definition listing (feed : jsval) : list Node * Result unit :=
  match items_of feed with
  | [] => ([placeholder], Ok tt)
  | items => entries items
  end.

Definition title_of (feed : jsval) : jsval :=
  js_or (get_opt feed (lit "title")) (VStr (lit "Feed")).

Definition sub_of (feed : jsval) : jsval :=
  js_or (get_opt feed (lit "feedUrl")) (VStr []).

(** The feed that has the title and the source address of [feed] and an
    empty item sequence. *)
Definition without_items (feed : jsval) : jsval :=
  VObj [(lit "title", get_opt feed (lit "title"));
        (lit "feedUrl", get_opt feed (lit "feedUrl"));
        (lit "items", VArr [])].

(** The player showing the embed address [src]. *)
Definition embedded (src : URL) : Player :=
  mkPlayer (URL_toString (with_params src (embed_params (searchParams src))))
           (lit "none").

(** The address with [v] set to [id]. *)
Definition permalink (id : jsstring) (u : URL) : URL :=
  with_params u (SearchParams.js_set (lit "v") id (searchParams u)).

(** The metadata panel for a video known by its id only; [encoded] is
    the id as a URI component. *)
Definition meta_of_id (encoded id : jsstring) (u : URL) : Meta :=
  mkMeta (lit "Video: " ++ id) []
         [watch_link (lit "https://www.youtube.com/watch?v=" ++ encoded);
          share_link (URL_toString (permalink id u))].

(** *** Further vocabulary *)

(** [Object.assign(base, entries)], entry by entry. *)
Definition assign_all (base entries : list (jsstring * jsval)) : list (jsstring * jsval) :=
  fold_left (fun acc kv => assign (fst kv) (snd kv) acc) entries base.

(** The metadata panel of a video [id], given what the payload says of
    the title and the author. *)
Definition meta_panel (encoded id : jsstring) (title author : jsval) (u : URL) : Meta :=
  mkMeta
    (match title with VStr (c :: t) => c :: t | _ => lit "Video: " ++ id end)
    (match author with VStr (c :: a) => lit "by " ++ c :: a | _ => [] end)
    [watch_link (lit "https://www.youtube.com/watch?v=" ++ encoded);
     share_link (URL_toString (permalink id u))].

(** [text], or [fallback] when the value is missing or empty. *)
Definition text_else (v : jsval) (fallback : jsstring) : jsstring :=
  match v with
  | VStr (c :: s) => c :: s
  | _ => fallback
  end.

(** The click listener of an element: the item it closes over. *)
Definition listener_of (n : Node) : option jsval :=
  match n with Element _ _ _ l => l end.

(** A feed item of the data model: an object whose six members are text
    when present, with a [published] the date constructor takes. *)
Definition item_ok (item : jsval) : Prop :=
  (exists fields, item = VObj fields)
  /\ optional_text (get_opt item (lit "thumbnail"))
  /\ optional_text (get_opt item (lit "title"))
  /\ optional_text (get_opt item (lit "videoId"))
  /\ optional_text (get_opt item (lit "published"))
  /\ optional_text (get_opt item (lit "link"))
  /\ optional_text (get_opt item (lit "description"))
  /\ (truthy (get_opt item (lit "published")) = true ->
      exists d, Date_medium (get_opt item (lit "published")) = Ok d).

(** The text of the date of an entry. *)
Definition date_text (published : jsval) : jsstring :=
  match published with
  | VStr (c :: s) =>
      match Date_medium published with
      | Ok (Some formatted) => formatted
      | _ => c :: s
      end
  | _ => []
  end.

(** The address an entry links to. *)
Definition entry_href (link videoId : jsval) : jsstring :=
  text_else link
    (lit "https://www.youtube.com/watch?v="
     ++ match videoId with
        | VStr s => s
        | VNull => lit "null"
        | _ => lit "undefined"
        end).

(** The entry of a feed item of the data model; the [src] of its image
    and the [href] of its link hold the scalar-value form of the text
    (an unpaired surrogate reads U+FFFD). *)
Definition entry_of (item : jsval) : Node :=
  Element "li" [("className", lit "item")]
    [Element "div" [("className", lit "thumb")]
       (match get_opt item (lit "thumbnail") with
        | VStr (c :: s) =>
            [Element "img" [("loading", lit "lazy"); ("alt", []); ("src", Str.usv (c :: s))]
               [] None]
        | _ => []
        end) None;
     Element "div" []
       [Element "p"
          [("className", lit "itemTitle");
           ("textContent",
            text_else (get_opt item (lit "title"))
              (text_else (get_opt item (lit "videoId")) (lit "Untitled")))] [] None;
        Element "div" [("className", lit "itemMeta")]
          [Element "span"
             [("textContent", date_text (get_opt item (lit "published")))] [] None;
           Element "a"
             [("href", Str.usv (entry_href (get_opt item (lit "link"))
                                           (get_opt item (lit "videoId"))));
              ("target", lit "_blank"); ("rel", lit "noreferrer noopener");
              ("textContent", lit "YouTube")] [] None] None;
        Element "div"
          [("className", lit "itemDesc");
           ("textContent", text_else (get_opt item (lit "description")) [])] [] None]
       None]
    (Some item).

(** The page after the catch block of [loadFeed] has run on error [e]. *)
Definition feed_failed (e : exn) (st : Page) : Page :=
  set_results (mkResults (lit "Feed") [] [placeholder])
    (set_status (mkStatus (failure_text e) true) st).

(** The parameter [name] is absent from the address, or empty. *)
Definition no_param (name : string) (st : Page) : Prop :=
  SearchParams.js_get (lit name) (address st) = None
  \/ SearchParams.js_get (lit name) (address st) = Some [].

(** The address after a feed of kind [kind] has been chosen: [kind] set
    to [id], and [other] removed. *)
Definition chosen (kind other : string) (id : jsstring) (st : Page) : Page :=
  set_location
    (with_params (location st)
       (SearchParams.js_delete (lit other)
          (SearchParams.js_set (lit kind) id (address st)))) st.

(** The first block of [initFromQuery], for the address [url] read at
    the start. *)
Definition init_video (url : URL) : Async unit :=
  let v := param_value "v" url in
  if truthy v then
    call (set_value (fun i s => mkInputs s (channelInput i) (playlistInput i)) v) ;;
    id <- call (pure (extractVideoId v)) ;;
    match found id with
    | Some id => playVideo (VStr id) false
    | None => ret tt
    end
  else ret tt.

(** The second block of [initFromQuery]. *)
Definition init_feed (url : URL) : Async unit :=
  let channel := param_value "channel" url in
  let playlist := param_value "playlist" url in
  if truthy channel then
    call (set_value (fun i s => mkInputs (videoInput i) s (playlistInput i)) channel) ;;
    id <- call (pure (extractChannelId channel)) ;;
    match found id with
    | Some id => loadFeed [(lit "channel_id", id)]
    | None => ret tt
    end
  else if truthy playlist then
    call (set_value (fun i s => mkInputs (videoInput i) (channelInput i) s) playlist) ;;
    id <- call (pure (extractPlaylistId playlist)) ;;
    match found id with
    | Some id => loadFeed [(lit "playlist_id", id)]
    | None => ret tt
    end
  else ret tt.

(** The page with [text] in the video, the channel or the playlist
    input. *)
Definition with_videoInput (text : jsstring) (st : Page) : Page :=
  set_inputs (mkInputs text (channelInput (inputs st)) (playlistInput (inputs st))) st.

Definition with_channelInput (text : jsstring) (st : Page) : Page :=
  set_inputs (mkInputs (videoInput (inputs st)) text (playlistInput (inputs st))) st.

Definition with_playlistInput (text : jsstring) (st : Page) : Page :=
  set_inputs (mkInputs (videoInput (inputs st)) (channelInput (inputs st)) text) st.

(** The pairs an update leaves under its name. *)
Definition settled (kv : jsstring * jsval) (ps : params) : Prop :=
  pairs_named (Str.usv (fst kv)) ps
  = match snd kv with
    | VStr (c :: s) => [(Str.usv (fst kv), Str.usv (c :: s))]
    | _ => []
    end.

End Vocabulary.

(** ** A small platform

    An instance of [Platform] for running the program on examples: URLs of
    the shape [scheme://host:port/path?query#fragment] without escapes, the
    JSON texts [null], [true], [false], [[]], [{}], a plain string and an
    object of one plain string member, dates that start [YYYY-MM-DD], and
    integers. *)

Module Sample.

Local Open Scope N_scope.

(** [s] up to the first code unit that satisfies [stop], and the rest. *)
Fixpoint break (stop : N -> bool) (s : jsstring) : jsstring * jsstring :=
  match s with
  | [] => ([], [])
  | c :: s' =>
      if stop c then ([], s)
      else let (a, b) := break stop s' in (c :: a, b)
  end.

Definition letter (c : N) : bool := Str.between 97 122 c || Str.between 65 90 c.

Definition pair_of (s : jsstring) : jsstring * jsstring :=
  let (k, tail) := break (N.eqb 61) s in (k, skipn 1 tail).

Definition query_pairs (q : jsstring) : params :=
  map pair_of (filter Str.nonempty (Str.split 38 q)).

Definition parse (s : jsstring) : option URL :=
  let (scheme, after) := break (N.eqb 58) s in
  if Str.startsWith after (lit "://") && Str.nonempty scheme && forallb letter scheme
  then
    let (authority, tail) :=
      break (fun c => N.eqb c 47 || N.eqb c 63 || N.eqb c 35) (skipn 3 after) in
    let host := fst (break (N.eqb 58) authority) in
    let (path, tail') := break (fun c => N.eqb c 63 || N.eqb c 35) tail in
    let (query, fragment) := break (N.eqb 35) (skipn 1 tail') in
    let queried := Str.startsWith tail' (lit "?") in
    Some (mkURL (scheme ++ lit "://" ++ authority) host
                (if Str.nonempty path then path else lit "/")
                (if queried then query_pairs query else [])
                (if queried then fragment else tail'))
  else None.

Fixpoint query_text (ps : params) : jsstring :=
  match ps with
  | [] => []
  | [(k, v)] => k ++ 61 :: v
  | (k, v) :: more => k ++ 61 :: v ++ 38 :: query_text more
  end.

Definition print (u : URL) : jsstring :=
  origin u ++ pathname u
  ++ (if Str.nonempty (query_text (searchParams u))
      then 63 :: query_text (searchParams u) else [])
  ++ rest u.

Definition plain (c : N) : bool :=
  N.leb 32 c && negb (N.eqb c 34) && negb (N.eqb c 92).

(** A string literal at the head of [s], and what follows it. *)
Definition string_literal (s : jsstring) : option (jsstring * jsstring) :=
  match s with
  | 34 :: more =>
      let (body, tail) := break (fun c => negb (plain c)) more in
      match tail with
      | 34 :: after => Some (body, after)
      | _ => None
      end
  | _ => None
  end.

Definition json (text : jsstring) : option jsval :=
  if Str.eqb text (lit "null") then Some VNull
  else if Str.eqb text (lit "true") then Some (VBool true)
  else if Str.eqb text (lit "false") then Some (VBool false)
  else if Str.eqb text (lit "[]") then Some (VArr [])
  else if Str.eqb text (lit "{}") then Some (VObj [])
  else
    match text with
    | 123 :: more =>
        match string_literal more with
        | Some (k, 58 :: more') =>
            match string_literal more' with
            | Some (v, [125]) => Some (VObj [(k, VStr v)])
            | _ => None
            end
        | _ => None
        end
    | _ =>
        match string_literal text with
        | Some (v, []) => Some (VStr v)
        | _ => None
        end
    end.

Definition date (v : jsval) : Result (option jsstring) :=
  match v with
  | VStr s =>
      if Nat.leb 10 (List.length s)
         && N.eqb (nth 4 s 0) 45 && N.eqb (nth 7 s 0) 45
      then Ok (Some (firstn 10 s)) else Ok None
  | _ => Ok None
  end.

Definition number (x : spec_float) : jsstring :=
  match x with
  | S754_zero _ => lit "0"
  | S754_nan => lit "NaN"
  | S754_infinity false => lit "Infinity"
  | S754_infinity true => lit "-Infinity"
  | S754_finite sign m e =>
      (if sign then lit "-" else [])
      ++ Str.decimal (Z.to_N (Z.shiftl (Z.pos m) e))
  end.

#[export] Instance platform : Platform := {
  URL_parse := parse;
  URL_resolve := fun s base => parse (base ++ s);
  URL_toString := print;
  JSON_parse := json;
  Date_medium := date;
  Number_toString := number;
  builtin_source := fun name => lit "function " ++ lit name ++ lit "() { [native code] }";
  engine_message := lit
}.

Definition blank_url : URL :=
  mkURL (lit "http://127.0.0.1:8000") (lit "127.0.0.1") (lit "/") [] [].

(** The page as served, before any script has run. *)
Definition blank : Page :=
  mkPage blank_url (mkInputs [] [] []) (mkStatus [] false)
         (mkPlayer [] (lit "grid")) (mkMeta [] [] []) (mkResults [] [] []).

(** The page at [/?v=dQw4w9WgXcQ&playlist=PL1]. *)
Definition playlist_page : Page :=
  set_location
    (with_params blank_url
       [(lit "v", lit "dQw4w9WgXcQ"); (lit "playlist", lit "PL1")]) blank.

End Sample.

(** ** A platform that reads a feed

    The small platform, with a parser that also reads the feed text
    [{<quote>items<quote>:[null]}]. *)

Module Feeds.

Local Open Scope N_scope.

(** [s] between double quotes. *)
Definition quoted (s : jsstring) : jsstring := 34 :: s ++ [34].

(** The JSON text of an object of one text member. *)
Definition member (k v : jsstring) : jsstring :=
  123 :: quoted k ++ 58 :: quoted v ++ [125].

Definition null_item_text : jsstring :=
  123 :: quoted (lit "items") ++ 58 :: lit "[null]" ++ [125].

Definition json (text : jsstring) : option jsval :=
  if Str.eqb text null_item_text then Some (VObj [(lit "items", VArr [VNull])])
  else Sample.json text.

Definition platform : Platform := {|
  URL_parse := Sample.parse;
  URL_resolve := fun s base => Sample.parse (base ++ s);
  URL_toString := Sample.print;
  JSON_parse := json;
  Date_medium := Sample.date;
  Number_toString := Sample.number;
  builtin_source := fun name => lit "function " ++ lit name ++ lit "() { [native code] }";
  engine_message := lit
|}.

(** The page at [/?v=dQw4w9WgXcQ%0A&channel=UCuAXFkgsw1L7xaCfnd5JJOw]:
    the [v] parameter ends with a line feed. *)
Definition video_channel_page : Page :=
  set_location
    (with_params Sample.blank_url
       [(lit "v", lit "dQw4w9WgXcQ" ++ [10]);
        (lit "channel", lit "UCuAXFkgsw1L7xaCfnd5JJOw")])
    Sample.blank.

(** The page at [/?channel=UCuAXFkgsw1L7xaCfnd5JJOw%0D%0A&playlist=PLabc]:
    the [channel] parameter ends with a carriage return and a line
    feed. *)
Definition channel_playlist_page : Page :=
  set_location
    (with_params Sample.blank_url
       [(lit "channel", lit "UCuAXFkgsw1L7xaCfnd5JJOw" ++ [13; 10]);
        (lit "playlist", lit "PLabc")])
    Sample.blank.

(** The page at [/?channel=@handle&playlist=PLabc]. *)
Definition handle_page : Page :=
  set_location
    (with_params Sample.blank_url
       [(lit "channel", lit "@handle"); (lit "playlist", lit "PLabc")])
    Sample.blank.


(** A page opened from a file: its origin is the text [null]. *)
Definition file_page : Page :=
  set_location (mkURL (lit "null") [] (lit "/index.html") [] []) Sample.blank.

(** The served page with [i] typed into its inputs. *)
Definition typed (i : Inputs) : Page := set_inputs i Sample.blank.

(** A feed item with a description only. *)
Definition bare_item : jsval := VObj [(lit "description", VStr (lit "A clip"))].

(** A feed item whose link ends with an unpaired high surrogate and
    whose thumbnail address ends with an unpaired low surrogate. *)
Definition odd_item : jsval :=
  VObj [(lit "link", VStr (lit "https://example.com/" ++ [55357]));
        (lit "thumbnail", VStr (lit "https://example.com/t" ++ [56832]))].

(** The served page after the video [dQw4w9WgXcQ] has been put in the
    player. *)
Definition playing_page : Page :=
  set_player
    (mkPlayer
       (lit "https://www.youtube-nocookie.com/embed/dQw4w9WgXcQ?autoplay=1&rel=0&modestbranding=1")
       (lit "none"))
    Sample.blank.

End Feeds.

(** * Properties *)

(** ** Strings and patterns *)

Lemma eqb_eq (a b : jsstring) : Str.eqb a b = true <-> a = b.
Proof.
  revert b; induction a as [|x a IH]; intros [|y b]; simpl; split;
    try congruence; try reflexivity.
  - rewrite andb_true_iff, N.eqb_eq, IH. intros [-> ->]; reflexivity.
  - intros H; injection H as -> ->. rewrite N.eqb_refl, (proj2 (IH b) eq_refl).
    reflexivity.
Qed.

Lemma eqb_refl (a : jsstring) : Str.eqb a a = true.
Proof. apply eqb_eq; reflexivity. Qed.

Lemma eqb_neq (a b : jsstring) : Str.eqb a b = false <-> a <> b.
Proof.
  rewrite <- eqb_eq. destruct (Str.eqb a b); split; congruence.
Qed.

(** Boolean character tests as arithmetic facts. *)
Ltac chars :=
  unfold Str.id_char, Str.whitespace, Str.uri_unreserved,
    Str.high_surrogate, Str.low_surrogate, Str.between in *;
  repeat rewrite ?orb_true_iff, ?andb_true_iff, ?orb_false_iff,
    ?andb_false_iff, ?N.leb_le, ?N.leb_gt, ?N.eqb_eq, ?N.eqb_neq in *;
  try lia.

Lemma alphabet_id_char (c : N) : In c alphabet -> Str.id_char c = true.
Proof.
  assert (H : forallb Str.id_char alphabet = true) by (vm_compute; reflexivity).
  rewrite forallb_forall in H. apply H.
Qed.

Lemma id_char_alphabet (c : N) : Str.id_char c = true -> In c alphabet.
Proof.
  intros H.
  assert (Hc : (c <= 122)%N) by chars.
  assert (Hall : forallb (fun n => implb (Str.id_char n) (existsb (N.eqb n) alphabet))
                         (map N.of_nat (seq 0 123)) = true)
    by (vm_compute; reflexivity).
  rewrite forallb_forall in Hall.
  assert (Hin : In c (map N.of_nat (seq 0 123))).
  { apply in_map_iff. exists (N.to_nat c). split; [apply N2Nat.id|].
    apply in_seq. lia. }
  specialize (Hall c Hin). rewrite H in Hall.
  cbv beta iota delta [implb] in Hall.
  apply existsb_exists in Hall. destruct Hall as [a [Ha Heq]].
  apply N.eqb_eq in Heq. subst a. exact Ha.
Qed.

Lemma pattern_VideoId (s : jsstring) : video_id_pattern s = true <-> VideoId s.
Proof.
  unfold video_id_pattern, VideoId.
  rewrite andb_true_iff, Nat.eqb_eq, forallb_forall, Forall_forall.
  split; intros [Hl Hc]; split; auto; intros c Hin.
  - apply id_char_alphabet; auto.
  - apply alphabet_id_char; auto.
Qed.

Lemma id_char_not_whitespace (c : N) :
  Str.id_char c = true -> Str.whitespace c = false.
Proof. intros H. chars. Qed.

Lemma trimStart_head (c : N) (s : jsstring) :
  Str.whitespace c = false -> Str.trimStart (c :: s) = c :: s.
Proof. intros H; simpl; rewrite H; reflexivity. Qed.

Lemma trim_id (s : jsstring) :
  (forall c, In c s -> Str.whitespace c = false) -> Str.trim s = s.
Proof.
  intros H. unfold Str.trim, Str.trimEnd.
  assert (Hs : Str.trimStart s = s).
  { destruct s as [|c s]; [reflexivity|]. apply trimStart_head, H; left; reflexivity. }
  rewrite Hs.
  assert (Hr : Str.trimStart (rev s) = rev s).
  { destruct (rev s) as [|c r] eqn:E; [reflexivity|].
    apply trimStart_head, H. apply in_rev. rewrite E. left; reflexivity. }
  rewrite Hr. apply rev_involutive.
Qed.

Lemma pattern_trim (s : jsstring) : video_id_pattern s = true -> Str.trim s = s.
Proof.
  unfold video_id_pattern. rewrite andb_true_iff, forallb_forall.
  intros [_ H]. apply trim_id. intros c Hc. apply id_char_not_whitespace; auto.
Qed.

Lemma pattern_nonempty (s : jsstring) :
  video_id_pattern s = true -> Str.nonempty s = true.
Proof.
  unfold video_id_pattern. rewrite andb_true_iff, Nat.eqb_eq.
  intros [H _]. destruct s; [discriminate|reflexivity].
Qed.

Lemma pattern_no_colon (s : jsstring) :
  video_id_pattern s = true -> ~ In 58%N s.
Proof.
  unfold video_id_pattern. rewrite andb_true_iff, forallb_forall.
  intros [_ H] Hin. specialize (H _ Hin). vm_compute in H. discriminate.
Qed.

Lemma startsWith_prefix (s p : jsstring) :
  Str.startsWith s p = true <-> exists t, s = p ++ t.
Proof.
  revert s; induction p as [|y p IH]; intros s; simpl.
  - split; [intros _; exists s; reflexivity | reflexivity].
  - destruct s as [|x s].
    + split; [discriminate | intros [t Ht]; discriminate].
    + rewrite andb_true_iff, N.eqb_eq, IH. split.
      * intros [-> [t ->]]. exists t; reflexivity.
      * intros [t Ht]. injection Ht as -> ->. split; [reflexivity | exists t; reflexivity].
Qed.

Lemma endsWith_suffix (s p : jsstring) :
  Str.endsWith s p = true <-> exists t, s = t ++ p.
Proof.
  unfold Str.endsWith. rewrite startsWith_prefix. split.
  - intros [t Ht]. exists (rev t).
    rewrite <- (rev_involutive s), Ht, rev_app_distr, rev_involutive. reflexivity.
  - intros [t ->]. exists (rev t). apply rev_app_distr.
Qed.

(** ** Host names and path segments *)

Lemma bare_host_strip (host bare : jsstring) :
  bare_host host bare <-> strip_www host = bare.
Proof.
  unfold bare_host, strip_www. split.
  - intros [-> | [-> Hno]].
    + reflexivity.
    + destruct (Str.startsWith bare (lit "www.")) eqn:E; [|reflexivity].
      apply startsWith_prefix in E. destruct E as [t Ht]. destruct (Hno t Ht).
  - intros <-. destruct (Str.startsWith host (lit "www.")) eqn:E.
    + left. apply startsWith_prefix in E. destruct E as [t ->]. reflexivity.
    + right. split; [reflexivity|]. intros t Ht.
      assert (E' : Str.startsWith host (lit "www.") = true)
        by (apply startsWith_prefix; exists t; exact Ht).
      congruence.
Qed.

Lemma split_cons (sep : N) (s : jsstring) :
  exists seg segs, Str.split sep s = seg :: segs.
Proof.
  destruct s as [|c s]; simpl; [eexists; eexists; reflexivity|].
  destruct (N.eqb c sep); [eexists; eexists; reflexivity|].
  destruct (Str.split sep s); eexists; eexists; reflexivity.
Qed.

Lemma split_plain (sep : N) (p : jsstring) :
  ~ In sep p -> Str.split sep p = [p].
Proof.
  induction p as [|c p IH]; intros Hno; simpl; [reflexivity|].
  destruct (N.eqb c sep) eqn:E.
  - apply N.eqb_eq in E. subst c. destruct Hno. left. reflexivity.
  - rewrite IH; [reflexivity|]. intros Hin. apply Hno. right. exact Hin.
Qed.

Lemma split_app (sep : N) (p rest : jsstring) :
  ~ In sep p -> Str.split sep (p ++ sep :: rest) = p :: Str.split sep rest.
Proof.
  induction p as [|c p IH]; intros Hno; simpl.
  - rewrite N.eqb_refl. reflexivity.
  - destruct (N.eqb c sep) eqn:E.
    + apply N.eqb_eq in E. subst c. destruct Hno. left. reflexivity.
    + rewrite IH; [reflexivity|]. intros Hin. apply Hno. right. exact Hin.
Qed.

(** Up to its first separator a text is free of separators. *)
Lemma split_head (sep : N) (s : jsstring) :
  exists p,
    ~ In sep p
    /\ (s = p \/ exists rest, s = p ++ sep :: rest).
Proof.
  induction s as [|c s [p [Hno Hs]]].
  - exists []. split; [intros []|left; reflexivity].
  - destruct (N.eqb c sep) eqn:E.
    + apply N.eqb_eq in E. subst c. exists []. split; [intros []|].
      right. exists s. reflexivity.
    + apply N.eqb_neq in E. exists (c :: p). split.
      * intros [H|H]; [congruence|exact (Hno H)].
      * destruct Hs as [-> | [rest ->]]; [left; reflexivity|].
        right. exists rest. reflexivity.
Qed.

Lemma segments_filter (path : jsstring) (segments : list jsstring) :
  segments_of path segments ->
  filter Str.nonempty (Str.split 47%N path) = segments.
Proof.
  induction 1 as [|path segments _ IH|p Hne Hno|p path segments Hne Hno _ IH].
  - reflexivity.
  - simpl. exact IH.
  - rewrite (@split_plain _ _ Hno). simpl. destruct p; [congruence|reflexivity].
  - rewrite (@split_app _ _ _ Hno). simpl. rewrite IH.
    destruct p; [congruence|reflexivity].
Qed.

(** Every path has its segments. *)
Lemma segments_total (path : jsstring) :
  segments_of path (filter Str.nonempty (Str.split 47%N path)).
Proof.
  remember (List.length path) as n eqn:Hn. revert path Hn.
  induction n as [n IH] using lt_wf_ind. intros path Hn.
  destruct (split_head 47%N path) as [p [Hno [-> | [rest ->]]]].
  - rewrite (@split_plain _ _ Hno). destruct p as [|c p]; simpl.
    + constructor.
    + apply segments_last; [discriminate|exact Hno].
  - rewrite (@split_app _ _ _ Hno).
    assert (Hrest : segments_of rest (filter Str.nonempty (Str.split 47%N rest))).
    { apply (IH (List.length rest)); [|reflexivity].
      subst n. rewrite length_app. simpl. lia. }
    destruct p as [|c p]; simpl.
    + apply segments_slash. exact Hrest.
    + apply (@segments_more (c :: p)); [discriminate|exact Hno|exact Hrest].
Qed.

(** ** Identifier extractors *)

Section Extractors.

Context {P : Platform}.

Lemma trimmed_text (s : jsstring) : trimmed (VStr s) = Ok (Str.trim s).
Proof. destruct s; reflexivity. Qed.

Lemma trimmed_missing (input : jsval) :
  truthy input = false -> trimmed input = Ok [].
Proof.
  intros H. unfold trimmed, js_or. rewrite H. reflexivity.
Qed.

Lemma checked_spec (c id : jsstring) :
  checked c = Some id <-> id = c /\ VideoId id.
Proof.
  unfold checked. destruct (video_id_pattern c) eqn:E; split.
  - intros H; injection H as <-. split; [reflexivity | apply pattern_VideoId; exact E].
  - intros [-> _]; reflexivity.
  - discriminate.
  - intros [-> H]. apply pattern_VideoId in H. congruence.
Qed.

Lemma part_checked (i : nat) (parts : list jsstring) (id : jsstring) :
  checked (part i parts) = Some id <-> nth_error parts i = Some id /\ VideoId id.
Proof.
  rewrite checked_spec. unfold part. split.
  - intros [-> H]. split; [|exact H].
    destruct (nth_error parts i) eqn:E.
    + rewrite (nth_error_nth _ _ _ E). reflexivity.
    + apply nth_error_None in E. rewrite nth_overflow in H by exact E.
      destruct H as [H _]; discriminate.
  - intros [E H]. split; [|exact H]. symmetry. apply nth_error_nth. exact E.
Qed.

Lemma head_is_spec (parts : list jsstring) (name : jsstring) :
  head_is parts name = true <-> nth_error parts 0 = Some name.
Proof.
  unfold head_is. destruct (nth_error parts 0) as [p|].
  - rewrite eqb_eq. split; congruence.
  - split; discriminate.
Qed.

Lemma v_param_spec (url : URL) (id : jsstring) :
  v_param url = Some id <->
  SearchParams.js_get (lit "v") (searchParams url) = Some id /\ VideoId id.
Proof.
  unfold v_param. destruct (SearchParams.js_get _ _) as [v|]; [|split; [discriminate|intros [H _]; discriminate]].
  destruct (video_id_pattern v) eqn:E.
  - rewrite (pattern_nonempty _ E). simpl. split.
    + intros H; injection H as <-. split; [reflexivity|apply pattern_VideoId; exact E].
    + intros [H _]; exact H.
  - rewrite andb_false_r. split; [discriminate|].
    intros [H H']. injection H as ->. apply pattern_VideoId in H'. congruence.
Qed.

Lemma from_url_sound (url : URL) (id : jsstring) :
  from_url url = Some id -> VideoId id.
Proof.
  unfold from_url.
  destruct (Str.eqb _ (lit "youtu.be")).
  - intros H. apply checked_spec in H. tauto.
  - destruct (Str.endsWith _ _); [|discriminate].
    destruct (v_param url) as [v|] eqn:E.
    + intros H; injection H as <-. apply v_param_spec in E. tauto.
    + destruct (_ || _); [|discriminate].
      intros H. apply checked_spec in H. tauto.
Qed.

Lemma extractVideoId_of_url {L : PlatformLaws P} (s : jsstring) (url : URL) :
  URL_parse (Str.trim s) = Some url ->
  extractVideoId (VStr s) = Ok (from_url url).
Proof.
  intros H. unfold extractVideoId. rewrite trimmed_text.
  pose proof (URL_parse_scheme _ H) as Hcolon.
  destruct (Str.trim s) as [|c raw] eqn:E; [destruct Hcolon|].
  simpl negb. cbv iota.
  destruct (video_id_pattern (c :: raw)) eqn:Hp.
  - exfalso. exact (pattern_no_colon _ Hp Hcolon).
  - rewrite H. reflexivity.
Qed.

(** C2: every string of exactly 11 characters of the alphabet
    [[A-Za-z0-9_-]] is returned unchanged by [extractVideoId]; the initial
    trim leaves such a string as it is. *)
Theorem extractVideoId_direct (s : jsstring) :
  VideoId s ->
  Str.trim s = s /\ extractVideoId (VStr s) = Ok (Some s).
Proof.
  intros H. apply pattern_VideoId in H.
  split; [apply pattern_trim; exact H|].
  unfold extractVideoId. rewrite trimmed_text, (pattern_trim _ H).
  rewrite (pattern_nonempty _ H), H. reflexivity.
Qed.

Lemma forallb_alphabet (t : jsstring) :
  Forall (fun c => In c alphabet) t <-> forallb Str.id_char t = true.
Proof.
  rewrite forallb_forall, Forall_forall. split; intros H c Hc.
  - apply alphabet_id_char; auto.
  - apply id_char_alphabet; auto.
Qed.

Lemma id_chars_app (t more : jsstring) :
  forallb Str.id_char t = true -> id_chars (List.length t) (t ++ more) = Some t.
Proof.
  induction t as [|c t IH]; simpl; [reflexivity|].
  rewrite andb_true_iff. intros [Hc Ht]. rewrite Hc, (IH Ht). reflexivity.
Qed.

Lemma id_chars_spec (n : nat) (s t : jsstring) :
  id_chars n s = Some t ->
  List.length t = n /\ forallb Str.id_char t = true /\ exists more, s = t ++ more.
Proof.
  revert s t; induction n as [|n IH]; intros s t; simpl.
  - intros H; injection H as <-. repeat split. exists s; reflexivity.
  - destruct s as [|c s]; [discriminate|].
    destruct (Str.id_char c) eqn:Hc; [|discriminate].
    destruct (id_chars n s) as [t'|] eqn:E; [|discriminate].
    intros H; injection H as <-. destruct (IH _ _ E) as [Hl [Hf [more ->]]].
    simpl. rewrite Hc, Hf, Hl. repeat split. exists more; reflexivity.
Qed.

Lemma id_run_spec (s : jsstring) :
  forallb Str.id_char (id_run s) = true /\ exists more, s = id_run s ++ more.
Proof.
  induction s as [|c s [Hf [more Hs]]]; simpl.
  - split; [reflexivity|exists []; reflexivity].
  - destruct (Str.id_char c) eqn:Hc; simpl.
    + rewrite Hc, Hf. split; [reflexivity|]. exists more.
      rewrite <- Hs. reflexivity.
    + split; [reflexivity|]. exists (c :: s); reflexivity.
Qed.

Lemma channel_at_complete (id more : jsstring) :
  ChannelId id -> channel_at (id ++ more) = Some id.
Proof.
  intros [t [-> [Hl Ht]]]. apply forallb_alphabet in Ht.
  unfold channel_at. rewrite <- app_assoc.
  change (Str.startsWith (lit "UC" ++ t ++ more) (lit "UC")) with true.
  change (skipn 2 (lit "UC" ++ t ++ more)) with (t ++ more).
  rewrite <- Hl. rewrite id_chars_app by exact Ht. reflexivity.
Qed.

Lemma channel_at_sound (s id : jsstring) :
  channel_at s = Some id -> ChannelId id /\ exists more, s = id ++ more.
Proof.
  unfold channel_at. destruct (Str.startsWith s (lit "UC")) eqn:E; [|discriminate].
  apply startsWith_prefix in E. destruct E as [u ->].
  change (skipn 2 (lit "UC" ++ u)) with u.
  destruct (id_chars 22 u) as [t|] eqn:Et; [|discriminate].
  intros H; injection H as <-.
  destruct (id_chars_spec _ _ Et) as [Hl [Hf [more ->]]].
  split.
  - exists t. split; [reflexivity|]. split; [exact Hl|]. apply forallb_alphabet; exact Hf.
  - exists more. reflexivity.
Qed.

Lemma playlist_at_complete (id more : jsstring) :
  PlaylistId id -> playlist_at (id ++ more) <> None.
Proof.
  intros [t [-> [Hne Ht]]]. apply forallb_alphabet in Ht.
  unfold playlist_at. rewrite <- app_assoc.
  change (Str.startsWith (lit "PL" ++ t ++ more) (lit "PL")) with true.
  change (skipn 2 (lit "PL" ++ t ++ more)) with (t ++ more).
  destruct t as [|c t]; [congruence|]. simpl in Ht. apply andb_true_iff in Ht.
  simpl. destruct Ht as [-> _]. discriminate.
Qed.

Lemma playlist_at_sound (s id : jsstring) :
  playlist_at s = Some id -> PlaylistId id /\ exists more, s = id ++ more.
Proof.
  unfold playlist_at. destruct (Str.startsWith s (lit "PL")) eqn:E; [|discriminate].
  apply startsWith_prefix in E. destruct E as [u ->].
  change (skipn 2 (lit "PL" ++ u)) with u.
  destruct (id_run_spec u) as [Hf [more Hu]].
  destruct (id_run u) as [|c run] eqn:Er; [discriminate|].
  intros H; injection H as <-. split.
  - exists (c :: run). split; [reflexivity|]. split; [discriminate|].
    apply forallb_alphabet; exact Hf.
  - exists more. rewrite Hu at 1. reflexivity.
Qed.

Lemma search_none (at_head : jsstring -> option jsstring) (s : jsstring) :
  search at_head s = None <-> (forall a b, s = a ++ b -> at_head b = None).
Proof.
  induction s as [|c s IH]; simpl.
  - destruct (at_head []) eqn:E; split; try discriminate.
    + intros H. rewrite (H [] [] eq_refl) in E. discriminate.
    + intros _ a b H. symmetry in H. apply app_eq_nil in H.
      destruct H as [_ ->]. exact E.
    + reflexivity.
  - destruct (at_head (c :: s)) eqn:E; split; try discriminate.
    + intros H. rewrite (H [] (c :: s) eq_refl) in E. discriminate.
    + intros Hs a b H. destruct a as [|x a].
      * simpl in H. subst b. exact E.
      * injection H as _ H. apply (proj1 IH Hs a b H).
    + intros H. apply IH. intros a b ->. apply (H (c :: a) b). reflexivity.
Qed.

Lemma search_some (at_head : jsstring -> option jsstring) (s m : jsstring) :
  search at_head s = Some m -> exists a b, s = a ++ b /\ at_head b = Some m.
Proof.
  induction s as [|c s IH]; simpl.
  - destruct (at_head []) eqn:E; [|discriminate].
    intros H; injection H as <-. exists [], []. split; [reflexivity|exact E].
  - destruct (at_head (c :: s)) eqn:E.
    + intros H; injection H as <-. exists [], (c :: s). split; [reflexivity|exact E].
    + intros H. destruct (IH H) as [a [b [-> Hb]]].
      exists (c :: a), b. split; [reflexivity|exact Hb].
Qed.

(** What [extractChannelId] returns is a ChannelId that occurs in the
    trimmed text. *)
Lemma extractChannelId_sound (s id : jsstring) :
  extractChannelId (VStr s) = Ok (Some id) -> ChannelId id /\ occurs id (Str.trim s).
Proof.
  unfold extractChannelId. rewrite trimmed_text.
  destruct (negb _); [discriminate|]. intros H; injection H as H.
  destruct (search_some _ _ H) as [a [b [Hs Hb]]].
  destruct (channel_at_sound _ Hb) as [Hid [more ->]].
  split; [exact Hid|]. exists a, more. exact Hs.
Qed.

(** What [extractPlaylistId] returns is a PlaylistId that occurs in the
    trimmed text. *)
Lemma extractPlaylistId_sound (s id : jsstring) :
  extractPlaylistId (VStr s) = Ok (Some id) -> PlaylistId id /\ occurs id (Str.trim s).
Proof.
  unfold extractPlaylistId. rewrite trimmed_text.
  destruct (negb _); [discriminate|]. intros H; injection H as H.
  destruct (search_some _ _ H) as [a [b [Hs Hb]]].
  destruct (playlist_at_sound _ Hb) as [Hid [more ->]].
  split; [exact Hid|]. exists a, more. exact Hs.
Qed.

(** C3, amended: each of the three extractors completes normally, and
    never throws, on every text and on every missing value ([null],
    [undefined], any falsy value).  Text that is blank, or malformed
    (neither a video id nor a URL; holding no channel id; holding no
    playlist id), and a missing value give "no match", not an error.
    On a truthy value that is not text (a number, [true], an array, an
    object without a [trim] member) each of them throws a TypeError, at
    the call of [trim].  The extractors are functions from the input
    value to a result: the same input gives the same result, and no page
    is read or written. *)
Theorem extractors_never_throw :
  (forall s : jsstring,
      (exists r, extractVideoId (VStr s) = Ok r)
      /\ (exists r, extractChannelId (VStr s) = Ok r)
      /\ (exists r, extractPlaylistId (VStr s) = Ok r)
      /\ (Str.trim s = [] ->
          extractVideoId (VStr s) = Ok None /\ extractChannelId (VStr s) = Ok None
          /\ extractPlaylistId (VStr s) = Ok None)
      /\ (~ VideoId (Str.trim s) -> URL_parse (Str.trim s) = None ->
          extractVideoId (VStr s) = Ok None)
      /\ ((forall id, occurs id (Str.trim s) -> ~ ChannelId id) ->
          extractChannelId (VStr s) = Ok None)
      /\ ((forall id, occurs id (Str.trim s) -> ~ PlaylistId id) ->
          extractPlaylistId (VStr s) = Ok None))
  /\ (forall input : jsval,
        input = VNull \/ input = VUndef \/ truthy input = false ->
        extractVideoId input = Ok None /\ extractChannelId input = Ok None
        /\ extractPlaylistId input = Ok None)
  /\ (forall input : jsval,
        truthy input = true ->
        (forall s, input <> VStr s) ->
        (forall fields, input = VObj fields -> lookup (lit "trim") fields = None) ->
        exists m,
          extractVideoId input = Throw (Thrown "TypeError" m)
          /\ extractChannelId input = Throw (Thrown "TypeError" m)
          /\ extractPlaylistId input = Throw (Thrown "TypeError" m)).
Proof.
  split; [|split].
  - intros s. unfold extractVideoId, extractChannelId, extractPlaylistId.
    rewrite trimmed_text.
    split; [|split; [|split; [|split; [|split; [|split]]]]].
    + destruct (negb (Str.nonempty (Str.trim s))); [eexists; reflexivity|].
      destruct (video_id_pattern (Str.trim s)); [eexists; reflexivity|].
      destruct (URL_parse (Str.trim s)); eexists; reflexivity.
    + destruct (negb (Str.nonempty (Str.trim s))); eexists; reflexivity.
    + destruct (negb (Str.nonempty (Str.trim s))); eexists; reflexivity.
    + intros ->. repeat split.
    + intros Hn Hu.
      destruct (negb (Str.nonempty (Str.trim s))); [reflexivity|].
      destruct (video_id_pattern (Str.trim s)) eqn:E.
      * apply pattern_VideoId in E. contradiction.
      * rewrite Hu. reflexivity.
    + intros Hno. destruct (negb (Str.nonempty (Str.trim s))); [reflexivity|].
      rewrite (proj2 (search_none _ _)); [reflexivity|].
      intros a b Hs. destruct (channel_at b) as [id|] eqn:E; [|reflexivity].
      destruct (channel_at_sound _ E) as [Hid [more ->]].
      destruct (Hno id); [|exact Hid]. exists a, more. exact Hs.
    + intros Hno. destruct (negb (Str.nonempty (Str.trim s))); [reflexivity|].
      rewrite (proj2 (search_none _ _)); [reflexivity|].
      intros a b Hs. destruct (playlist_at b) as [id|] eqn:E; [|reflexivity].
      destruct (playlist_at_sound _ E) as [Hid [more ->]].
      destruct (Hno id); [|exact Hid]. exists a, more. exact Hs.
  - intros input Hm.
    assert (Hf : truthy input = false) by (destruct Hm as [->|[->|H]]; auto).
    unfold extractVideoId, extractChannelId, extractPlaylistId.
    rewrite (trimmed_missing _ Hf). repeat split.
  - intros input Ht Hs _.
    exists (engine_message "trim is not a function").
    unfold extractVideoId, extractChannelId, extractPlaylistId, trimmed, js_or.
    rewrite Ht. destruct input as [| | | |s| | |]; try (repeat split; fail).
    destruct (Hs s eq_refl).
Qed.

(** A text that holds a channel id yields one. *)
Lemma extractChannelId_complete (s id : jsstring) :
  ChannelId id -> occurs id (Str.trim s) ->
  exists first, extractChannelId (VStr s) = Ok (Some first) /\ ChannelId first.
Proof.
  intros Hid [a [b Hs]]. unfold extractChannelId. rewrite trimmed_text.
  destruct (Str.trim s) as [|c raw] eqn:E.
  - destruct a; [|discriminate]. destruct Hid as [t [-> _]]. discriminate.
  - simpl negb. cbv iota.
    destruct (search channel_at (c :: raw)) as [first|] eqn:Es.
    + exists first. split; [reflexivity|].
      destruct (search_some _ _ Es) as [a' [b' [_ Hb]]].
      apply (channel_at_sound _ Hb).
    + exfalso. pose proof (proj1 (search_none _ _) Es a (id ++ b) Hs) as Hn.
      rewrite (channel_at_complete b Hid) in Hn. discriminate.
Qed.

(** A text that holds a playlist id yields one. *)
Lemma extractPlaylistId_complete (s id : jsstring) :
  PlaylistId id -> occurs id (Str.trim s) ->
  exists first, extractPlaylistId (VStr s) = Ok (Some first) /\ PlaylistId first.
Proof.
  intros Hid [a [b Hs]]. unfold extractPlaylistId. rewrite trimmed_text.
  destruct (Str.trim s) as [|c raw] eqn:E.
  - destruct a; [|discriminate]. destruct Hid as [t [-> _]]. discriminate.
  - simpl negb. cbv iota.
    destruct (search playlist_at (c :: raw)) as [first|] eqn:Es.
    + exists first. split; [reflexivity|].
      destruct (search_some _ _ Es) as [a' [b' [_ Hb]]].
      apply (playlist_at_sound _ Hb).
    + exfalso. pose proof (proj1 (search_none _ _) Es a (id ++ b) Hs) as Hn.
      exact (playlist_at_complete b Hid Hn).
Qed.

(** C1: for an input whose trimmed text parses as a URL, with [host]
    the host name less a leading [www.] (so [www.youtu.be] counts as
    [youtu.be]) and [segments] the non-empty path segments (the path cut
    at every [/], empty pieces dropped): on host [youtu.be] the result is
    the first segment iff that segment is a VideoId, else no match; on a
    host that ends with [youtube.com] the result is the [v] parameter
    when that is a VideoId, and otherwise the second segment iff the
    first is [shorts] or [embed] and the second is a VideoId, else no
    match; on any other host no match; and every result is a VideoId.
    Every URL has such a host and such segments. *)
Theorem extractVideoId_url {L : PlatformLaws P}
    (s : jsstring) (url : URL) (host : jsstring) (segments : list jsstring) :
  URL_parse (Str.trim s) = Some url ->
  bare_host (hostname url) host ->
  segments_of (pathname url) segments ->
  let v := SearchParams.js_get (lit "v") (searchParams url) in
  exists r,
    extractVideoId (VStr s) = Ok r
    /\ (host = lit "youtu.be" ->
        forall id, r = Some id <-> nth_error segments 0 = Some id /\ VideoId id)
    /\ (host <> lit "youtu.be" -> (exists pre, host = pre ++ lit "youtube.com") ->
        (forall id, v = Some id -> VideoId id -> r = Some id)
        /\ ((forall id, v = Some id -> ~ VideoId id) ->
            forall id,
              r = Some id <->
              (nth_error segments 0 = Some (lit "shorts")
               \/ nth_error segments 0 = Some (lit "embed"))
              /\ nth_error segments 1 = Some id /\ VideoId id))
    /\ (host <> lit "youtu.be" -> ~ (exists pre, host = pre ++ lit "youtube.com") ->
        r = None)
    /\ (forall id, r = Some id -> VideoId id)
    /\ (exists host' segments',
          bare_host (hostname url) host' /\ segments_of (pathname url) segments').
Proof.
  intros H Hhost Hsegments v.
  apply bare_host_strip in Hhost.
  assert (Hparts : path_parts url = segments)
    by (apply segments_filter; exact Hsegments).
  exists (from_url url). split; [apply extractVideoId_of_url; exact H|].
  split; [|split; [|split; [|split]]].
  - intros Hh id. unfold from_url. rewrite Hhost, Hparts.
    rewrite (proj2 (eqb_eq _ _) Hh).
    apply part_checked.
  - intros Hh He. apply endsWith_suffix in He. apply eqb_neq in Hh.
    unfold from_url. rewrite Hhost, Hparts, Hh, He. split.
    + intros id Hv Hid.
      rewrite (proj2 (v_param_spec url id) (conj Hv Hid)). reflexivity.
    + intros Hv id.
      destruct (v_param url) as [w|] eqn:E.
      { apply v_param_spec in E. destruct E as [E1 E2]. destruct (Hv w E1 E2). }
      destruct (head_is segments (lit "shorts") || head_is segments (lit "embed")) eqn:Eh.
      * rewrite part_checked. apply orb_true_iff in Eh.
        rewrite !head_is_spec in Eh. tauto.
      * apply orb_false_iff in Eh. destruct Eh as [E1 E2]. split; [discriminate|].
        intros [[Hs|Hs] _]; apply head_is_spec in Hs; congruence.
  - intros Hh He. apply eqb_neq in Hh. unfold from_url. rewrite Hhost, Hh.
    destruct (Str.endsWith host (lit "youtube.com")) eqn:E; [|reflexivity].
    apply endsWith_suffix in E. contradiction.
  - intros id. apply from_url_sound.
  - exists (strip_www (hostname url)), (path_parts url). split.
    + apply bare_host_strip. reflexivity.
    + apply segments_total.
Qed.

End Extractors.

(** ** Address state *)

Lemma get_remove_same (n : jsstring) (ps : params) :
  SearchParams.get n (SearchParams.remove n ps) = None.
Proof.
  induction ps as [|[k v] ps IH]; simpl; [reflexivity|].
  destruct (Str.eqb k n) eqn:E; simpl; [exact IH|].
  rewrite E. exact IH.
Qed.

Lemma get_remove_other (m n : jsstring) (ps : params) :
  m <> n -> SearchParams.get m (SearchParams.remove n ps) = SearchParams.get m ps.
Proof.
  intros Hmn. induction ps as [|[k v] ps IH]; simpl; [reflexivity|].
  destruct (Str.eqb k n) eqn:E; simpl.
  - apply eqb_eq in E. subst k.
    assert (Hk : Str.eqb n m = false) by (apply eqb_neq; congruence).
    rewrite Hk. exact IH.
  - rewrite IH. reflexivity.
Qed.

Lemma get_put_same (n v : jsstring) (ps : params) :
  SearchParams.get n (SearchParams.put n v ps) = Some v.
Proof.
  induction ps as [|[k w] ps IH]; simpl.
  - rewrite eqb_refl. reflexivity.
  - destruct (Str.eqb k n) eqn:E; simpl; rewrite E; [reflexivity|exact IH].
Qed.

Lemma get_put_other (m n v : jsstring) (ps : params) :
  m <> n -> SearchParams.get m (SearchParams.put n v ps) = SearchParams.get m ps.
Proof.
  intros Hmn. induction ps as [|[k w] ps IH]; simpl.
  - assert (Hk : Str.eqb n m = false) by (apply eqb_neq; congruence).
    rewrite Hk. reflexivity.
  - destruct (Str.eqb k n) eqn:E; simpl.
    + apply eqb_eq in E. subst k.
      assert (Hk : Str.eqb n m = false) by (apply eqb_neq; congruence).
      rewrite Hk. apply get_remove_other. exact Hmn.
    + rewrite IH. reflexivity.
Qed.

Lemma get_pairs (name : jsstring) (ps : params) :
  SearchParams.get name ps
  = match pairs_named name ps with
    | [] => None
    | (_, v) :: _ => Some v
    end.
Proof.
  induction ps as [|[k v] ps IH]; simpl; [reflexivity|].
  destruct (Str.eqb k name); [reflexivity|exact IH].
Qed.

Lemma pairs_remove_other (m n : jsstring) (ps : params) :
  m <> n -> pairs_named m (SearchParams.remove n ps) = pairs_named m ps.
Proof.
  intros Hmn. induction ps as [|[k v] ps IH]; simpl; [reflexivity|].
  destruct (Str.eqb k n) eqn:E; simpl.
  - apply eqb_eq in E. subst k.
    assert (Hk : Str.eqb n m = false) by (apply eqb_neq; congruence).
    rewrite Hk. exact IH.
  - rewrite IH. reflexivity.
Qed.

Lemma pairs_put_other (m n v : jsstring) (ps : params) :
  m <> n -> pairs_named m (SearchParams.put n v ps) = pairs_named m ps.
Proof.
  intros Hmn. induction ps as [|[k w] ps IH]; simpl.
  - assert (Hk : Str.eqb n m = false) by (apply eqb_neq; congruence).
    rewrite Hk. reflexivity.
  - destruct (Str.eqb k n) eqn:E; simpl.
    + apply eqb_eq in E. subst k.
      assert (Hk : Str.eqb n m = false) by (apply eqb_neq; congruence).
      rewrite Hk. apply pairs_remove_other. exact Hmn.
    + rewrite IH. reflexivity.
Qed.

Lemma in_remove (kv : jsstring * jsstring) (n : jsstring) (ps : params) :
  In kv (SearchParams.remove n ps) -> In kv ps.
Proof. unfold SearchParams.remove. rewrite filter_In. tauto. Qed.

Lemma in_put (k n v : jsstring) (ps : params) :
  v <> [] -> In (k, []) (SearchParams.put n v ps) -> In (k, []) ps.
Proof.
  intros Hv. induction ps as [|[k' w] ps IH]; simpl.
  - intros [H|[]]. congruence.
  - destruct (Str.eqb k' n); simpl.
    + intros [H|H]; [congruence|]. right. eapply in_remove; exact H.
    + intros [H|H]; [left; exact H|right; auto].
Qed.

Lemma usv_nonempty (s : jsstring) : s <> [] -> Str.usv s <> [].
Proof.
  destruct s as [|c s]; [congruence|]. intros _. simpl.
  destruct (Str.high_surrogate c).
  - destruct s as [|d s]; [discriminate|]. destruct (Str.low_surrogate d); discriminate.
  - destruct (Str.low_surrogate c); discriminate.
Qed.

Section Address.

Context {P : Platform}.

Lemma clears_text (v : jsval) :
  optional_text v -> clears v = false -> exists s, v = VStr s /\ s <> [].
Proof.
  destruct v; simpl; try contradiction; try discriminate.
  destruct s; [discriminate|]. intros _ _. eexists; split; [reflexivity|discriminate].
Qed.

Lemma apply_updates_spec (updates : list (jsstring * jsval)) :
  NoDup (named updates) ->
  Forall (fun kv => optional_text (snd kv)) updates ->
  forall ps, exists ps',
    apply_updates updates ps = Ok ps'
    /\ (forall k v, In (k, v) updates -> clears v = true ->
        SearchParams.js_get k ps' = None)
    /\ (forall k s, In (k, VStr s) updates -> s <> [] ->
        SearchParams.js_get k ps' = Some (Str.usv s))
    /\ (forall name, ~ In name (named updates) ->
        pairs_named name ps' = pairs_named name ps)
    /\ (forall k, In (k, []) ps' -> In (k, []) ps).
Proof.
  induction updates as [|[k v] more IH]; intros Hnd Hty ps.
  - exists ps. simpl. repeat split; auto; intros; contradiction.
  - simpl in Hnd. inversion Hnd as [|? ? Hk Hnd']; subst.
    inversion Hty as [|? ? Hv Hty']; subst. simpl in Hv.
    simpl. destruct (clears v) eqn:Ec.
    + destruct (IH Hnd' Hty' (SearchParams.js_delete k ps))
        as [ps' [Hrun [Hdel [Hset [Hframe Hempty]]]]].
      exists ps'. split; [exact Hrun|]. split; [|split; [|split]].
      * intros k0 v0 [Heq|Hin] Hc; [|eauto].
        injection Heq as <- <-. unfold SearchParams.js_get.
        rewrite get_pairs, (Hframe _ Hk), <- get_pairs. apply get_remove_same.
      * intros k0 s [Heq|Hin] Hs; [|eauto].
        injection Heq as <- ->. destruct s; [congruence|discriminate].
      * intros name Hn. simpl in Hn.
        rewrite Hframe by tauto.
        apply pairs_remove_other. intros ->. tauto.
      * intros k0 Hin. eapply in_remove. apply Hempty. exact Hin.
    + destruct (clears_text _ Hv Ec) as [s [-> Hs]]. simpl.
      destruct (IH Hnd' Hty' (SearchParams.js_set k s ps))
        as [ps' [Hrun [Hdel [Hset [Hframe Hempty]]]]].
      exists ps'. split; [exact Hrun|]. split; [|split; [|split]].
      * intros k0 v0 [Heq|Hin] Hc; [|eauto].
        injection Heq as <- <-. congruence.
      * intros k0 s0 [Heq|Hin] Hs0; [|eauto].
        injection Heq as <- <-. unfold SearchParams.js_get.
        rewrite get_pairs, (Hframe _ Hk), <- get_pairs. apply get_put_same.
      * intros name Hn. simpl in Hn.
        rewrite Hframe by tauto.
        apply pairs_put_other. intros ->. tauto.
      * intros k0 Hin. eapply in_put; [|apply Hempty; exact Hin].
        apply usv_nonempty. exact Hs.
Qed.

Lemma setQuery_run (updates : list (jsstring * jsval)) (st : Page) (ps : params) :
  apply_updates updates (searchParams (location st)) = Ok ps ->
  setQuery updates st = (Ok tt, set_location (with_params (location st) ps) st).
Proof.
  intros H. unfold setQuery. simpl. unfold pure. rewrite H. reflexivity.
Qed.

(** C7: for an update mapping (distinct names, each new value a string,
    [null] or [undefined]) [setQuery] completes and, in the address it
    leaves: every parameter whose new value is [null], [undefined] or the
    empty string is absent; every other named parameter has its new value
    (as a scalar-value string); a parameter not named in the mapping keeps
    all its pairs and so reads as before; no pair with an empty value has
    been written; and nothing but the query of the address has changed.
    In particular [{channel: "UC1", playlist: null}] applied to an address
    that holds [playlist=PL1] leaves [playlist] absent, [channel] equal to
    [UC1] and [v] as it was. *)
Theorem setQuery_updates (updates : list (jsstring * jsval)) (st : Page) :
  NoDup (named updates) ->
  Forall (fun kv => optional_text (snd kv)) updates ->
  (exists st',
    setQuery updates st = (Ok tt, st')
    /\ (forall k v, In (k, v) updates ->
        v = VNull \/ v = VUndef \/ v = VStr [] ->
        SearchParams.js_get k (address st') = None)
    /\ (forall k s, In (k, VStr s) updates -> s <> [] ->
        SearchParams.js_get k (address st') = Some (Str.usv s))
    /\ (forall name, ~ In (Str.usv name) (named updates) ->
        pairs_named (Str.usv name) (address st') = pairs_named (Str.usv name) (address st)
        /\ SearchParams.js_get name (address st') = SearchParams.js_get name (address st))
    /\ (forall k, In (k, []) (address st') -> In (k, []) (address st))
    /\ st' = set_location (with_params (location st) (address st')) st)
  /\ (forall page : Page,
        SearchParams.js_get (lit "playlist") (address page) = Some (lit "PL1") ->
        exists page',
          setQuery [(lit "channel", VStr (lit "UC1")); (lit "playlist", VNull)] page
          = (Ok tt, page')
          /\ SearchParams.js_get (lit "playlist") (address page') = None
          /\ SearchParams.js_get (lit "channel") (address page') = Some (lit "UC1")
          /\ SearchParams.js_get (lit "v") (address page')
             = SearchParams.js_get (lit "v") (address page)).
Proof.
  intros Hnd Hty. split.
  - destruct (apply_updates_spec Hnd Hty (address st))
      as [ps [Hrun [Hdel [Hset [Hframe Hempty]]]]].
    exists (set_location (with_params (location st) ps) st).
    split; [apply setQuery_run; exact Hrun|].
    change (address (set_location (with_params (location st) ps) st)) with ps.
    split; [|split; [|split; [|split]]]; auto.
    + intros k v Hin Hv. apply (Hdel k v Hin).
      destruct Hv as [->|[->| ->]]; reflexivity.
    + intros name Hn. split; [apply Hframe; exact Hn|].
      unfold SearchParams.js_get. rewrite !get_pairs, (Hframe _ Hn). reflexivity.
  - intros page Hpl.
    assert (Hnd' : NoDup (named [(lit "channel", VStr (lit "UC1")); (lit "playlist", VNull)])).
    { vm_compute. constructor; [|constructor; [|constructor]]; simpl; [|tauto].
      intros [H|[]]; discriminate. }
    assert (Hty' : Forall (fun kv => optional_text (snd kv))
                     [(lit "channel", VStr (lit "UC1")); (lit "playlist", VNull)]).
    { repeat constructor. }
    destruct (apply_updates_spec Hnd' Hty' (address page))
      as [ps [Hrun [Hdel [Hset [Hframe Hempty]]]]].
    exists (set_location (with_params (location page) ps) page).
    split; [apply setQuery_run; exact Hrun|].
    change (address (set_location (with_params (location page) ps) page)) with ps.
    split; [|split].
    + apply (Hdel _ VNull); [right; left; reflexivity|reflexivity].
    + apply (Hset _ (lit "UC1")); [left; reflexivity|discriminate].
    + unfold SearchParams.js_get. rewrite !get_pairs, Hframe; [reflexivity|].
      vm_compute. intros [H|[H|[]]]; discriminate.
Qed.

End Address.

(** ** Remote data client *)

Section Client.

Context {P : Platform}.

Lemma ok_spec (status : N) : ok status = true <-> (200 <= status <= 299)%N.
Proof. unfold ok, Str.between. rewrite andb_true_iff, !N.leb_le. tauto. Qed.

Lemma text_or (text fallback : jsstring) :
  js_or (VStr text) (VStr fallback)
  = VStr (match text with [] => fallback | _ :: _ => text end).
Proof. destruct text; reflexivity. Qed.

(** C4, amended: [fetchJson] issues one request and, when the exchange
    comes back with a status and a body, parses the body whatever the
    status; a body that does not parse gives the payload [{error: text}],
    or [{error: "HTTP <status>"}] when the body is empty; it throws iff
    the status is not successful, and returns the payload otherwise; the
    message thrown is the string form of the payload's [error] member when
    that member is truthy, and [HTTP <status>] when it is absent or falsy
    ([null], [false], [0], the empty string). *)
Theorem fetchJson_normalizes (path : jsstring) (st : Page) :
  exists resume,
    fetchJson path st = Pending path st resume
    /\ forall status text st',
      let data := payload status text in
      exists r,
        resume (Responded status text) st' = Done r st'
        /\ (forall d, JSON_parse text = Some d -> data = d)
        /\ (JSON_parse text = None -> text <> [] ->
            data = VObj [(lit "error", VStr text)])
        /\ (JSON_parse text = None -> text = [] ->
            data = VObj [(lit "error", VStr (lit "HTTP " ++ Str.decimal status))])
        /\ ((exists e, r = Throw e) <-> ~ (200 <= status <= 299)%N)
        /\ ((200 <= status <= 299)%N -> r = Ok data)
        /\ (~ (200 <= status <= 299)%N ->
            (truthy (get_opt data (lit "error")) = true ->
             forall m, to_string (get_opt data (lit "error")) = Ok m ->
                       r = Throw (Thrown "Error" m))
            /\ (truthy (get_opt data (lit "error")) = false ->
                r = Throw (Thrown "Error" (lit "HTTP " ++ Str.decimal status)))).
Proof.
  eexists. split; [reflexivity|].
  intros status text st' data. exists (settle (Responded status text)).
  split; [reflexivity|].
  split; [|split; [|split; [|split; [|split]]]].
  - intros d Hd. unfold data, payload. rewrite Hd. reflexivity.
  - intros Hn Ht. unfold data, payload. rewrite Hn, text_or.
    destruct text; [congruence|reflexivity].
  - intros Hn ->. unfold data, payload. rewrite Hn. reflexivity.
  - rewrite <- ok_spec. unfold settle. fold data.
    destruct (ok status); simpl.
    + split; [intros [e He]; discriminate|congruence].
    + split; [congruence|]. intros _.
      destruct (to_string _); eexists; reflexivity.
  - intros Hok. apply ok_spec in Hok. unfold settle. rewrite Hok. reflexivity.
  - intros Hok. rewrite <- ok_spec in Hok.
    destruct (ok status) eqn:E; [congruence|].
    unfold settle. fold data. rewrite E. simpl. unfold js_or. split.
    + intros Ht m Hm. rewrite Ht, Hm. reflexivity.
    + intros Ht. rewrite Ht. reflexivity.
Qed.

(** C9: a response with a successful (2xx) status whose body is not
    valid JSON does not make [fetchJson] throw: the caller receives, as an
    ordinary value, the payload whose [error] member is the raw body text,
    or [HTTP <status>] for an empty body. *)
Theorem fetchJson_ok_unparsable (path : jsstring) (st : Page)
    (status : N) (text : jsstring) :
  (200 <= status <= 299)%N ->
  JSON_parse text = None ->
  exists resume data,
    fetchJson path st = Pending path st resume
    /\ (forall st', resume (Responded status text) st' = Done (Ok data) st')
    /\ (text <> [] -> data = VObj [(lit "error", VStr text)])
    /\ (text = [] -> data = VObj [(lit "error", VStr (lit "HTTP " ++ Str.decimal status))])
    /\ truthy (get_opt data (lit "error")) = true.
Proof.
  intros Hok Hn. apply ok_spec in Hok.
  eexists. exists (payload status text).
  split; [reflexivity|].
  split; [intros st'; unfold settle; rewrite Hok; reflexivity|].
  unfold payload. rewrite Hn, text_or.
  destruct text as [|c text].
  - split; [congruence|]. split; [reflexivity|].
    unfold http_status. reflexivity.
  - split; [reflexivity|]. split; [discriminate|reflexivity].
Qed.

End Client.

(** C3 fails as stated: the number 42, [true], the empty array and the
    empty object are input values on which each extractor throws a
    TypeError, so "never raises, whatever the input value" does not
    hold. *)
Lemma extractors_raise_on_number :
  (forall input,
      In input [VNum (S754_finite false 21 1); VBool true; VArr []; VObj []] ->
      @extractVideoId Sample.platform input
      = Throw (Thrown "TypeError" (lit "trim is not a function"))
      /\ @extractChannelId Sample.platform input
         = Throw (Thrown "TypeError" (lit "trim is not a function"))
      /\ @extractPlaylistId Sample.platform input
         = Throw (Thrown "TypeError" (lit "trim is not a function")))
  /\ ~ @never_raise Sample.platform.
Proof.
  split.
  - intros input [<-|[<-|[<-|[<-|[]]]]]; repeat split.
  - intros H. destruct (H (VNum (S754_finite false 21 1))) as [[r Hr] _].
    vm_compute in Hr. discriminate.
Qed.

(** C4 fails as stated: with status 500 and body [{"error":""}] the
    payload has an [error] member (the empty string), yet the message
    thrown is [HTTP 500], not the member. *)
Lemma fetchJson_empty_error_member :
  @JSON_parse Sample.platform empty_error_body = Some (VObj [(lit "error", VStr [])])
  /\ @settle Sample.platform (Responded 500 empty_error_body)
     = Throw (Thrown "Error" (lit "HTTP 500"))
  /\ ~ @message_from_error_member Sample.platform.
Proof.
  split; [vm_compute; reflexivity|].
  split; [vm_compute; reflexivity|].
  intros H.
  specialize (H 500%N empty_error_body [(lit "error", VStr [])] (VStr []) []).
  assert (E : @settle Sample.platform (Responded 500 empty_error_body)
              = Throw (Thrown "Error" [])).
  { apply H; vm_compute; reflexivity. }
  vm_compute in E. discriminate.
Qed.

(** ** View renderer *)

Section Renderer.

Context {P : Platform}.

Lemma set_results_twice (r r' : Results) (st : Page) :
  set_results r' (set_results r st) = set_results r' st.
Proof. reflexivity. Qed.

Lemma each_item_run (items : list jsval) (st : Page) :
  each_item items st
  = (snd (entries items),
     set_resultsList (resultsList (results st) ++ fst (entries items)) st).
Proof.
  revert st. induction items as [|item more IH]; intros st.
  - simpl. rewrite app_nil_r. destruct st as [? ? ? ? ? []]. reflexivity.
  - simpl. unfold pure. destruct (entry item) as [li|e].
    + unfold appendChild, modify. rewrite IH. simpl.
      rewrite <- app_assoc. reflexivity.
    + simpl. rewrite app_nil_r. destruct st as [? ? ? ? ? []]. reflexivity.
Qed.

(** [renderFeed] as a function of the feed and the page. *)
Lemma renderFeed_run (feed : jsval) (st : Page) :
  renderFeed feed st =
  match to_string (title_of feed) with
  | Throw e => (Throw e, st)
  | Ok t =>
      match to_string (sub_of feed) with
      | Throw e => (Throw e, set_resultsTitle t st)
      | Ok s => (snd (listing feed), set_results (mkResults t s (fst (listing feed))) st)
      end
  end.
Proof.
  unfold renderFeed, listing. fold (title_of feed) (sub_of feed).
  cbv beta iota delta [bind Sync_Monad pure modify].
  destruct (to_string (title_of feed)) as [t|e]; [|reflexivity].
  destruct (to_string (sub_of feed)) as [s|e]; [|reflexivity].
  destruct (items_of feed) as [|item more]; [reflexivity|].
  rewrite each_item_run. reflexivity.
Qed.

(** C8: [renderFeed] is idempotent: run a second time on the page the
    first run left, with the same feed, it ends the same way and leaves
    that page exactly as it was; title, subtitle and list are replaced,
    never added to. *)
Theorem renderFeed_idempotent (feed : jsval) (st : Page) :
  renderFeed feed (snd (renderFeed feed st)) = renderFeed feed st.
Proof.
  rewrite !renderFeed_run.
  destruct (to_string (title_of feed)) as [t|e]; [|reflexivity].
  destruct (to_string (sub_of feed)) as [s|e]; reflexivity.
Qed.

Lemma fallback_text (v : jsval) (fallback : jsstring) :
  optional_text v ->
  to_string (js_or v (VStr fallback))
  = Ok (match v with VStr (c :: s) => c :: s | _ => fallback end).
Proof.
  destruct v as [| | | |[|c s]| | |]; simpl; try contradiction; reflexivity.
Qed.

Lemma renderFeed_no_items (feed : jsval) (st : Page) :
  items_of feed = [] ->
  optional_text (get_opt feed (lit "title")) ->
  optional_text (get_opt feed (lit "feedUrl")) ->
  renderFeed feed st
  = (Ok tt,
     set_results
       (mkResults
          (match get_opt feed (lit "title") with VStr (c :: s) => c :: s | _ => lit "Feed" end)
          (match get_opt feed (lit "feedUrl") with VStr (c :: s) => c :: s | _ => [] end)
          [placeholder]) st).
Proof.
  intros Hi Ht Hs. rewrite renderFeed_run. unfold title_of, sub_of, listing.
  rewrite !fallback_text by assumption. rewrite Hi. reflexivity.
Qed.

(** C10: a feed value whose [items] member is absent or not an array
    (a [null] or [undefined] feed among them), its title and source
    address being text when present, is rendered without throwing and
    exactly as the same feed with an empty item sequence: the title shown
    is the feed's, or [Feed] when it has none; the subtitle is the feed's
    source address, or empty when it has none; and the list holds the one
    placeholder entry. *)
Theorem renderFeed_without_items (feed : jsval) (st : Page) :
  (forall l, get_opt feed (lit "items") <> VArr l) ->
  optional_text (get_opt feed (lit "title")) ->
  optional_text (get_opt feed (lit "feedUrl")) ->
  exists st',
    renderFeed feed st = (Ok tt, st')
    /\ renderFeed (without_items feed) st = (Ok tt, st')
    /\ resultsList (results st') = [placeholder]
    /\ (truthy (get_opt feed (lit "title")) = false ->
        resultsTitle (results st') = lit "Feed")
    /\ (forall t, get_opt feed (lit "title") = VStr t -> t <> [] ->
        resultsTitle (results st') = t)
    /\ (truthy (get_opt feed (lit "feedUrl")) = false ->
        resultsSub (results st') = [])
    /\ (forall u, get_opt feed (lit "feedUrl") = VStr u -> u <> [] ->
        resultsSub (results st') = u)
    /\ (feed = VNull \/ feed = VUndef ->
        results st' = mkResults (lit "Feed") [] [placeholder]).
Proof.
  intros Hi Ht Hs.
  assert (Hitems : items_of feed = []).
  { unfold items_of. destruct (get_opt feed (lit "items")); try reflexivity.
    destruct (Hi items). reflexivity. }
  eexists. split; [apply renderFeed_no_items; assumption|].
  split.
  - rewrite renderFeed_no_items; [reflexivity|reflexivity|exact Ht|exact Hs].
  - simpl. split; [reflexivity|].
    split; [|split; [|split; [|split]]].
    + destruct (get_opt feed (lit "title")) as [| | | |[|c s]| | |];
        simpl; try contradiction; try discriminate; reflexivity.
    + intros t -> Hne. destruct t; [congruence|reflexivity].
    + destruct (get_opt feed (lit "feedUrl")) as [| | | |[|c s]| | |];
        simpl; try contradiction; try discriminate; reflexivity.
    + intros u -> Hne. destruct u; [congruence|reflexivity].
    + intros [-> | ->]; reflexivity.
Qed.

End Renderer.

(** ** Orchestrator *)

Lemma id_char_unreserved (c : N) :
  Str.id_char c = true -> Str.uri_unreserved c = true.
Proof. intros H. chars. Qed.

Lemma encodeURIComponent_id (s : jsstring) :
  forallb Str.id_char s = true -> Str.encodeURIComponent s = Some s.
Proof.
  induction s as [|c s IH]; [reflexivity|].
  cbn [forallb Str.encodeURIComponent].
  rewrite andb_true_iff. intros [Hc Hs].
  rewrite (id_char_unreserved _ Hc), (IH Hs). reflexivity.
Qed.

(** Runs the sequencing of the effects, leaving the calls in place. *)
Ltac run :=
  cbv beta iota delta [bind Async_Monad Sync_Monad Result_Monad call modify read
                       pure ret fetchJson try_catch];
  cbn [step_bind step_catch].

Section Orchestrator.

Context {P : Platform}.

Lemma VideoId_nonempty (id : jsstring) : VideoId id -> id <> [].
Proof. intros [Hl _]. destruct id; [discriminate|congruence]. Qed.

Lemma VideoId_chars (id : jsstring) : VideoId id -> forallb Str.id_char id = true.
Proof.
  intros H. apply pattern_VideoId in H. unfold video_id_pattern in H.
  apply andb_true_iff in H. tauto.
Qed.

Lemma setPlayer_run (id : jsstring) (src : URL) (st : Page) :
  id <> [] ->
  URL_parse (embed_prefix ++ id) = Some src ->
  setPlayer (VStr id) st = (Ok tt, set_player (embedded src) st).
Proof.
  intros Hid Hsrc. unfold setPlayer.
  destruct id as [|c id]; [congruence|]. cbn [truthy Str.nonempty negb].
  unfold template, new_URL, to_string. run. rewrite Hsrc. reflexivity.
Qed.

Lemma setQuery_v (id : jsstring) (st : Page) :
  id <> [] ->
  setQuery [(lit "v", VStr id)] st = (Ok tt, set_location (permalink id (location st)) st).
Proof.
  intros H. apply setQuery_run. destruct id; [congruence|reflexivity].
Qed.

Lemma renderMeta_id_only (id encoded : jsstring) (st : Page) :
  id <> [] ->
  Str.encodeURIComponent id = Some encoded ->
  renderMeta [(lit "videoId", VStr id)] st
  = (Ok tt, set_meta (meta_of_id encoded id (location st)) st).
Proof.
  intros H He. unfold renderMeta.
  change (field "videoId" [(lit "videoId", VStr id)]) with (VStr id).
  change (field "title" [(lit "videoId", VStr id)]) with VUndef.
  change (field "author_name" [(lit "videoId", VStr id)]) with VUndef.
  unfold meta_title_text, meta_byline_text, encode, template.
  cbn [truthy to_string]. destruct id as [|c id'] eqn:E; [congruence|].
  cbn [Str.nonempty negb]. rewrite <- E in *. run.
  rewrite He. reflexivity.
Qed.

Lemma loadOEmbed_run (id encoded : jsstring) (st : Page) :
  id <> [] ->
  Str.encodeURIComponent id = Some encoded ->
  exists resume,
    loadOEmbed (VStr id) st = Pending (lit "/api/oembed?v=" ++ encoded) st resume
    /\ forall o e st', settle o = Throw e ->
         resume o st'
         = Done (Ok tt) (set_meta (meta_of_id encoded id (location st')) st').
Proof.
  intros H He.
  unfold loadOEmbed, encode. cbn [to_string]. run.
  rewrite He. cbn [step_bind step_catch].
  eexists. split; [reflexivity|].
  intros o e st' Ho. cbv beta. rewrite Ho. cbn [step_bind step_catch].
  rewrite (renderMeta_id_only st' H He). reflexivity.
Qed.

Lemma playVideo_run (id : jsstring) (pushQuery : bool) (src : URL) (st : Page) :
  id <> [] ->
  URL_parse (embed_prefix ++ id) = Some src ->
  playVideo (VStr id) pushQuery st
  = loadOEmbed (VStr id)
      (if pushQuery
       then set_location (permalink id (location st)) (set_player (embedded src) st)
       else set_player (embedded src) st).
Proof.
  intros Hne Hsrc. unfold playVideo.
  destruct id as [|c id'] eqn:E; [congruence|].
  cbn [truthy Str.nonempty negb]. rewrite <- E in *.
  run. rewrite (setPlayer_run _ Hne Hsrc). cbn [step_bind].
  destruct pushQuery; [|reflexivity].
  rewrite (setQuery_v _ Hne). reflexivity.
Qed.

(** The click on the play button, once the input yields an id: the
    status is cleared and [playVideo] runs with [pushQuery]. *)
Lemma playBtn_click_plays (id : jsstring) (st : Page) :
  extractVideoId (VStr (videoInput (inputs st))) = Ok (Some id) ->
  playBtn_click st = playVideo (VStr id) true (set_status (mkStatus [] false) st).
Proof.
  intros H. unfold playBtn_click, setStatus. run. rewrite H. cbn [step_bind].
  assert (Hid : VideoId id).
  { unfold extractVideoId in H. rewrite trimmed_text in H.
    destruct (negb _); [discriminate|].
    destruct (video_id_pattern (Str.trim _)) eqn:E.
    - injection H as <-. apply pattern_VideoId. exact E.
    - destruct (URL_parse _); [|discriminate].
      injection H as H. apply from_url_sound in H. exact H. }
  unfold found. destruct id as [|c id']; [destruct (VideoId_nonempty Hid eq_refl)|].
  reflexivity.
Qed.

(** Playing any non-empty text that has a URI-component form (no
    unpaired surrogate), be it an id typed by the user or the [videoId]
    of a feed entry: the player is set in the page in which the oEmbed
    request is issued, and a failed lookup renders the id-only metadata
    and touches neither the player nor the status line. *)
Lemma playVideo_text {L : PlatformLaws P}
    (id encoded : jsstring) (pushQuery : bool) (st : Page) :
  id <> [] ->
  Str.encodeURIComponent id = Some encoded ->
  exists src st1 resume,
    URL_parse (embed_prefix ++ id) = Some src
    /\ playVideo (VStr id) pushQuery st
       = Pending (lit "/api/oembed?v=" ++ encoded) st1 resume
    /\ setPlayer (VStr id) st = (Ok tt, set_player (player st1) st)
    /\ player st1 = embedded src
    /\ status st1 = status st
    /\ forall o e st2,
        settle o = Throw e ->
        resume o st2 = Done (Ok tt) (set_meta (meta_of_id encoded id (location st2)) st2).
Proof.
  intros Hne He.
  destruct (URL_parse (embed_prefix ++ id)) as [src|] eqn:Hsrc;
    [|destruct (URL_parse_embed id Hsrc)].
  rewrite (playVideo_run pushQuery st Hne Hsrc).
  match goal with
  | |- context [loadOEmbed (VStr id) ?s] =>
      destruct (loadOEmbed_run s Hne He) as [resume [Hrun Hres]]
  end.
  exists src. eexists. exists resume.
  split; [reflexivity|]. split; [exact Hrun|].
  split; [rewrite (setPlayer_run _ Hne Hsrc); destruct pushQuery; reflexivity|].
  split; [destruct pushQuery; reflexivity|].
  split; [destruct pushQuery; reflexivity|].
  exact Hres.
Qed.

(** C5: playing a video id: [setPlayer] has run, and the player shows
    the embed address, in the page in which the one network request (the
    oEmbed lookup) is issued; and whenever that lookup fails (the fetch is
    rejected, or the status is not successful) the action still completes
    normally, the metadata panel shows the id only (title [Video: <id>],
    empty byline, the two links), and the completion leaves the player
    and the status line exactly as it found them. *)
Theorem playVideo_oembed_failure {L : PlatformLaws P}
    (id : jsstring) (pushQuery : bool) (st : Page) :
  VideoId id ->
  exists src st1 resume,
    URL_parse (embed_prefix ++ id) = Some src
    /\ playVideo (VStr id) pushQuery st
       = Pending (lit "/api/oembed?v=" ++ id) st1 resume
    /\ setPlayer (VStr id) st = (Ok tt, set_player (player st1) st)
    /\ player st1 = embedded src
    /\ status st1 = status st
    /\ forall o e st2,
        settle o = Throw e ->
        exists st3,
          resume o st2 = Done (Ok tt) st3
          /\ metaTitle (meta st3) = lit "Video: " ++ id
          /\ metaByline (meta st3) = []
          /\ metaActions (meta st3)
             = [watch_link (lit "https://www.youtube.com/watch?v=" ++ id);
                share_link (URL_toString (permalink id (location st2)))]
          /\ player st3 = player st2
          /\ status st3 = status st2
          /\ results st3 = results st2
          /\ location st3 = location st2.
Proof.
  intros Hid.
  destruct (playVideo_text pushQuery st (VideoId_nonempty Hid)
              (encodeURIComponent_id _ (VideoId_chars Hid)))
    as [src [st1 [resume [Hsrc [Hrun [Hset [Hplayer [Hstatus Hres]]]]]]]].
  exists src, st1, resume.
  repeat (split; [assumption|]).
  intros o e st2 Ho. eexists. split; [apply (Hres o e st2 Ho)|].
  repeat split.
Qed.

Lemma loadFeed_run (feed_params : list (jsstring * jsstring)) (st : Page) (url : URL) :
  URL_resolve (lit "/api/feed") (origin (location st)) = Some url ->
  exists request resume,
    loadFeed feed_params st
    = Pending request (set_status (mkStatus loading_text false) st) resume
    /\ forall o e st',
        settle o = Throw e ->
        resume o st'
        = (let (r, st'') :=
             renderFeed empty_feed (set_status (mkStatus (failure_text e) true) st')
           in Done r st'').
Proof.
  intros H. unfold loadFeed, feed_request, setStatus. run.
  change (origin (location (set_status (mkStatus loading_text false) st)))
    with (origin (location st)).
  rewrite H. cbn [step_bind step_catch].
  eexists. eexists. split; [reflexivity|].
  intros o e st' Ho. cbv beta. rewrite Ho. reflexivity.
Qed.

(** C6: when the fetch of a feed load fails (rejected, or a status that
    is not successful), the load completes normally with the error's
    message on the status line, marked as an error, and with the results
    region showing an empty feed under the title [Feed]; and rendering any
    feed whose item sequence is empty puts exactly one entry in the list,
    the [No items.] placeholder, which has no click listener. *)
Theorem loadFeed_failure (feed_params : list (jsstring * jsstring))
    (st : Page) (url : URL) :
  URL_resolve (lit "/api/feed") (origin (location st)) = Some url ->
  (exists request st1 resume,
     loadFeed feed_params st = Pending request st1 resume
     /\ status st1 = mkStatus (lit "Loading feed" ++ [8230%N]) false
     /\ forall o e st2,
         settle o = Throw e ->
         exists st3,
           resume o st2 = Done (Ok tt) st3
           /\ status_error (status st3) = true
           /\ (message_of e <> [] -> status_text (status st3) = message_of e)
           /\ (message_of e = [] -> status_text (status st3) = lit "Failed to load feed")
           /\ results st3 = mkResults (lit "Feed") [] [placeholder]
           /\ player st3 = player st2 /\ meta st3 = meta st2
           /\ location st3 = location st2)
  /\ (forall feed page,
        get_opt feed (lit "items") = VArr [] ->
        optional_text (get_opt feed (lit "title")) ->
        optional_text (get_opt feed (lit "feedUrl")) ->
        exists page',
          renderFeed feed page = (Ok tt, page')
          /\ resultsList (results page')
             = [Element "li" [("className", lit "status");
                              ("textContent", lit "No items.")] [] None]).
Proof.
  intros H. split.
  - destruct (loadFeed_run feed_params st H) as [request [resume [Hrun Hres]]].
    exists request. eexists. exists resume.
    split; [exact Hrun|]. split; [reflexivity|].
    intros o e st2 Ho. rewrite (Hres o e st2 Ho).
    rewrite renderFeed_no_items; [|reflexivity|exact I|exact I].
    eexists. split; [reflexivity|]. simpl.
    split; [reflexivity|]. unfold failure_text.
    split; [|split; [|repeat split]].
    + destruct (message_of e); [congruence|reflexivity].
    + intros ->. reflexivity.
  - intros feed page Hi Ht Hs. eexists.
    split; [apply renderFeed_no_items; [unfold items_of; rewrite Hi; reflexivity|exact Ht|exact Hs]|].
    reflexivity.
Qed.

End Orchestrator.

(** ** The small platform: laws and runs *)

Lemma break_app (stop : N -> bool) (s : jsstring) :
  s = fst (Sample.break stop s) ++ snd (Sample.break stop s).
Proof.
  induction s as [|c s IH]; simpl; [reflexivity|].
  destruct (stop c); [reflexivity|].
  destruct (Sample.break stop s) as [a b]. simpl in *. rewrite <- IH. reflexivity.
Qed.

Lemma sample_laws : PlatformLaws Sample.platform.
Proof.
  split.
  - intros s u. simpl. unfold Sample.parse.
    pose proof (break_app (N.eqb 58) s) as Hs.
    destruct (Sample.break (N.eqb 58) s) as [scheme after]. simpl in Hs.
    destruct (Str.startsWith after (lit "://")) eqn:E; [|discriminate].
    intros _. apply startsWith_prefix in E. destruct E as [t ->].
    rewrite Hs. apply in_or_app. right. left. reflexivity.
  - intros x. simpl. unfold Sample.parse. cbn.
    destruct (Sample.break _ x) as [a b]. cbn.
    destruct (Sample.break _ _). discriminate.
Qed.

Lemma rick_is_VideoId : VideoId (lit "dQw4w9WgXcQ").
Proof. apply pattern_VideoId. vm_compute. reflexivity. Qed.

Lemma rick_has_no_slash : ~ In 47%N (lit "dQw4w9WgXcQ").
Proof.
  intros H. simpl in H. repeat (destruct H as [H|H]; [discriminate H|]). exact H.
Qed.

Lemma extractVideoId_url_witness :
  @URL_parse Sample.platform (Str.trim (lit " https://www.youtu.be//dQw4w9WgXcQ/ "))
  = Some (mkURL (lit "https://www.youtu.be") (lit "www.youtu.be")
                (lit "//dQw4w9WgXcQ/") [] [])
  /\ bare_host (lit "www.youtu.be") (lit "youtu.be")
  /\ segments_of (lit "//dQw4w9WgXcQ/") [lit "dQw4w9WgXcQ"]
  /\ @extractVideoId Sample.platform (VStr (lit " https://www.youtu.be//dQw4w9WgXcQ/ "))
     = Ok (Some (lit "dQw4w9WgXcQ")).
Proof.
  assert (H : @URL_parse Sample.platform
                (Str.trim (lit " https://www.youtu.be//dQw4w9WgXcQ/ "))
              = Some (mkURL (lit "https://www.youtu.be") (lit "www.youtu.be")
                            (lit "//dQw4w9WgXcQ/") [] []))
    by (vm_compute; reflexivity).
  assert (Hh : bare_host (lit "www.youtu.be") (lit "youtu.be"))
    by (left; reflexivity).
  assert (Hs : segments_of (lit "//dQw4w9WgXcQ/") [lit "dQw4w9WgXcQ"]).
  { apply segments_slash. apply segments_slash.
    apply (@segments_more (lit "dQw4w9WgXcQ") [] []);
      [discriminate|exact rick_has_no_slash|constructor]. }
  split; [exact H|]. split; [exact Hh|]. split; [exact Hs|].
  destruct (@extractVideoId_url Sample.platform sample_laws _ _ _ _ H Hh Hs)
    as [r [Hr [Hy _]]].
  rewrite Hr. f_equal. apply (Hy eq_refl).
  split; [reflexivity|exact rick_is_VideoId].
Defined.

Lemma extractVideoId_direct_witness :
  VideoId (lit "dQw4w9WgXcQ")
  /\ @extractVideoId Sample.platform (VStr (lit "dQw4w9WgXcQ"))
     = Ok (Some (lit "dQw4w9WgXcQ")).
Proof.
  split; [exact rick_is_VideoId|].
  apply (@extractVideoId_direct Sample.platform _ rick_is_VideoId).
Defined.

Lemma setQuery_updates_witness :
  NoDup (named [(lit "channel", VStr (lit "UC1")); (lit "playlist", VNull)])
  /\ Forall (fun kv => optional_text (snd kv))
       [(lit "channel", VStr (lit "UC1")); (lit "playlist", VNull)]
  /\ exists st',
       @setQuery Sample.platform
         [(lit "channel", VStr (lit "UC1")); (lit "playlist", VNull)]
         Sample.playlist_page = (Ok tt, st')
       /\ SearchParams.js_get (lit "playlist") (address st') = None
       /\ SearchParams.js_get (lit "channel") (address st') = Some (lit "UC1")
       /\ SearchParams.js_get (lit "v") (address st') = Some (lit "dQw4w9WgXcQ").
Proof.
  assert (Hnd : NoDup (named [(lit "channel", VStr (lit "UC1")); (lit "playlist", VNull)])).
  { vm_compute. constructor; [|constructor; [|constructor]]; simpl; [|tauto].
    intros [H|[]]; discriminate. }
  assert (Hty : Forall (fun kv => optional_text (snd kv))
                  [(lit "channel", VStr (lit "UC1")); (lit "playlist", VNull)])
    by (repeat constructor).
  split; [exact Hnd|]. split; [exact Hty|].
  destruct (@setQuery_updates Sample.platform _ Sample.playlist_page Hnd Hty)
    as [_ Hexample].
  destruct (Hexample Sample.playlist_page eq_refl) as [st' [Hrun [Hp [Hc Hv]]]].
  exists st'. repeat split; assumption.
Defined.

Lemma fetchJson_ok_unparsable_witness :
  (200 <= 200 <= 299)%N
  /\ @JSON_parse Sample.platform (lit "<html>") = None
  /\ exists resume,
       @fetchJson Sample.platform (lit "/api/feed") Sample.blank
       = Pending (lit "/api/feed") Sample.blank resume
       /\ resume (Responded 200 (lit "<html>")) Sample.blank
          = Done (Ok (VObj [(lit "error", VStr (lit "<html>"))])) Sample.blank.
Proof.
  assert (Hs : (200 <= 200 <= 299)%N) by lia.
  assert (Hp : @JSON_parse Sample.platform (lit "<html>") = None) by reflexivity.
  split; [exact Hs|]. split; [exact Hp|].
  destruct (@fetchJson_ok_unparsable Sample.platform (lit "/api/feed") Sample.blank
              200%N (lit "<html>") Hs Hp)
    as [resume [data [Hrun [Hres [Htext _]]]]].
  exists resume. split; [exact Hrun|].
  rewrite Hres, Htext; [reflexivity|discriminate].
Defined.

Lemma renderFeed_without_items_witness :
  (forall l, @get_opt VNull (lit "items") <> VArr l)
  /\ optional_text (get_opt VNull (lit "title"))
  /\ optional_text (get_opt VNull (lit "feedUrl"))
  /\ exists st',
       @renderFeed Sample.platform VNull Sample.blank = (Ok tt, st')
       /\ results st' = mkResults (lit "Feed") [] [placeholder].
Proof.
  assert (Hi : forall l, @get_opt VNull (lit "items") <> VArr l) by discriminate.
  assert (Ht : optional_text (get_opt VNull (lit "title"))) by exact I.
  assert (Hs : optional_text (get_opt VNull (lit "feedUrl"))) by exact I.
  split; [exact Hi|]. split; [exact Ht|]. split; [exact Hs|].
  destruct (@renderFeed_without_items Sample.platform VNull Sample.blank Hi Ht Hs)
    as [st' [Hrun [_ [_ [_ [_ [_ [_ Hnull]]]]]]]].
  exists st'. split; [exact Hrun|]. apply Hnull. left. reflexivity.
Defined.

Lemma playVideo_oembed_failure_witness :
  VideoId (lit "dQw4w9WgXcQ")
  /\ exists st1 resume st3,
       @playVideo Sample.platform (VStr (lit "dQw4w9WgXcQ")) true Sample.blank
       = Pending (lit "/api/oembed?v=dQw4w9WgXcQ") st1 resume
       /\ frame_src (player st1)
          = lit "https://www.youtube-nocookie.com/embed/dQw4w9WgXcQ?autoplay=1&rel=0&modestbranding=1"
       /\ resume (Responded 404 (lit "Not Found")) st1 = Done (Ok tt) st3
       /\ metaTitle (meta st3) = lit "Video: dQw4w9WgXcQ"
       /\ player st3 = player st1
       /\ status st3 = mkStatus [] false.
Proof.
  split; [exact rick_is_VideoId|].
  destruct (@playVideo_oembed_failure Sample.platform sample_laws
              (lit "dQw4w9WgXcQ") true Sample.blank rick_is_VideoId)
    as [src [st1 [resume [Hsrc [Hrun [_ [Hplayer [Hstatus Hfail]]]]]]]].
  destruct (Hfail (Responded 404 (lit "Not Found"))
                  (Thrown "Error" (lit "Not Found")) st1 eq_refl)
    as [st3 [Hres [Ht [_ [_ [Hp [Hs _]]]]]]].
  exists st1, resume, st3.
  split; [exact Hrun|].
  split; [rewrite Hplayer; vm_compute in Hsrc; injection Hsrc as <-; reflexivity|].
  split; [exact Hres|]. split; [exact Ht|]. split; [exact Hp|].
  rewrite Hs, Hstatus. reflexivity.
Defined.

Lemma loadFeed_failure_witness :
  @URL_resolve Sample.platform (lit "/api/feed") (origin (location Sample.blank))
  = Some (mkURL (lit "http://127.0.0.1:8000") (lit "127.0.0.1") (lit "/api/feed") [] [])
  /\ exists request st1 resume st3,
       @loadFeed Sample.platform [(lit "channel_id", lit "UC1")] Sample.blank
       = Pending request st1 resume
       /\ resume (Rejected (Thrown "TypeError" (lit "Failed to fetch"))) st1
          = Done (Ok tt) st3
       /\ status st3 = mkStatus (lit "Failed to fetch") true
       /\ results st3 = mkResults (lit "Feed") [] [placeholder].
Proof.
  assert (H : @URL_resolve Sample.platform (lit "/api/feed") (origin (location Sample.blank))
              = Some (mkURL (lit "http://127.0.0.1:8000") (lit "127.0.0.1")
                            (lit "/api/feed") [] []))
    by (vm_compute; reflexivity).
  split; [exact H|].
  destruct (@loadFeed_failure Sample.platform [(lit "channel_id", lit "UC1")]
              Sample.blank _ H)
    as [[request [st1 [resume [Hrun [_ Hfail]]]]] _].
  destruct (Hfail (Rejected (Thrown "TypeError" (lit "Failed to fetch")))
                  (Thrown "TypeError" (lit "Failed to fetch")) st1 eq_refl)
    as [st3 [Hres [He [Hm [_ [Hr _]]]]]].
  exists request, st1, resume, st3.
  split; [exact Hrun|]. split; [exact Hres|]. split; [|exact Hr].
  destruct (status st3) as [text error]. simpl in He, Hm.
  rewrite He, Hm; [reflexivity|discriminate].
Defined.

(** ** The examples of the specification, run on the small platform *)

Example video_from_short_link :
  @extractVideoId Sample.platform (VStr (lit "https://youtu.be/dQw4w9WgXcQ"))
  = Ok (Some (lit "dQw4w9WgXcQ")).
Proof. vm_compute. reflexivity. Qed.

Example video_from_watch_link :
  @extractVideoId Sample.platform
    (VStr (lit "https://www.youtube.com/watch?v=dQw4w9WgXcQ&t=5"))
  = Ok (Some (lit "dQw4w9WgXcQ")).
Proof. vm_compute. reflexivity. Qed.

Example video_from_shorts_link :
  @extractVideoId Sample.platform
    (VStr (lit "https://www.youtube.com/shorts/dQw4w9WgXcQ"))
  = Ok (Some (lit "dQw4w9WgXcQ")).
Proof. vm_compute. reflexivity. Qed.

Example video_from_www_short_link :
  @extractVideoId Sample.platform (VStr (lit "https://www.youtu.be/dQw4w9WgXcQ"))
  = Ok (Some (lit "dQw4w9WgXcQ")).
Proof. vm_compute. reflexivity. Qed.

Example video_past_empty_segments :
  @extractVideoId Sample.platform
    (VStr (lit "https://www.youtube.com//embed//dQw4w9WgXcQ"))
  = Ok (Some (lit "dQw4w9WgXcQ")).
Proof. vm_compute. reflexivity. Qed.

Example video_not_a_url :
  @extractVideoId Sample.platform (VStr (lit "not a url")) = Ok None.
Proof. vm_compute. reflexivity. Qed.

Example video_id_truncated :
  @extractVideoId Sample.platform (VStr (lit "https://youtu.be/dQw4w9WgXcQx"))
  = Ok None.
Proof. vm_compute. reflexivity. Qed.

Example video_of_number :
  exists e, @extractVideoId Sample.platform (VNum (S754_finite false 21 1)) = Throw e.
Proof. eexists. vm_compute. reflexivity. Qed.

Example channel_in_text :
  @extractChannelId Sample.platform
    (VStr (lit "check out UCX6OQ3DkcsbYNE6H8uQQuVA please"))
  = Ok (Some (lit "UCX6OQ3DkcsbYNE6H8uQQuVA")).
Proof. vm_compute. reflexivity. Qed.

Example playlist_whole :
  @extractPlaylistId Sample.platform (VStr (lit "PLsomeid123-_"))
  = Ok (Some (lit "PLsomeid123-_")).
Proof. vm_compute. reflexivity. Qed.

Example embed_address :
  frame_src (player (snd (@setPlayer Sample.platform (VStr (lit "dQw4w9WgXcQ")) Sample.blank)))
  = lit "https://www.youtube-nocookie.com/embed/dQw4w9WgXcQ?autoplay=1&rel=0&modestbranding=1".
Proof. vm_compute. reflexivity. Qed.

Example meta_without_title :
  meta (snd (@renderMeta Sample.platform [(lit "videoId", VStr (lit "abc"))] Sample.blank))
  = mkMeta (lit "Video: abc") []
      [watch_link (lit "https://www.youtube.com/watch?v=abc");
       share_link (lit "http://127.0.0.1:8000/?v=abc")].
Proof. vm_compute. reflexivity. Qed.

Example channel_replaces_playlist :
  match @channelBtn_click Sample.platform
          (set_inputs (mkInputs [] (lit "UCX6OQ3DkcsbYNE6H8uQQuVA") [])
                      Sample.playlist_page) with
  | Pending request st1 _ =>
      request = lit "http://127.0.0.1:8000/api/feed?channel_id=UCX6OQ3DkcsbYNE6H8uQQuVA"
      /\ address st1
         = [(lit "v", lit "dQw4w9WgXcQ"); (lit "channel", lit "UCX6OQ3DkcsbYNE6H8uQQuVA")]
  | Done _ _ => False
  end.
Proof. vm_compute. split; reflexivity. Qed.

(** * Further properties *)

(** ** Extractors: which match, and what comes back *)

Lemma search_first (at_head : jsstring -> option jsstring) (s m : jsstring) :
  search at_head s = Some m ->
  exists a b,
    s = a ++ b /\ at_head b = Some m
    /\ forall a' b', s = a' ++ b' -> List.length a' < List.length a -> at_head b' = None.
Proof.
  induction s as [|c s IH]; simpl.
  - destruct (at_head []) eqn:E; [|discriminate].
    intros H; injection H as <-. exists [], []. repeat split; auto.
    intros a' b' _ Hl. simpl in Hl. lia.
  - destruct (at_head (c :: s)) eqn:E.
    + intros H; injection H as <-. exists [], (c :: s). repeat split; auto.
      intros a' b' _ Hl. simpl in Hl. lia.
    + intros H. destruct (IH H) as [a [b [-> [Hb Hfirst]]]].
      exists (c :: a), b. repeat split; auto.
      intros a' b' Hs Hl. destruct a' as [|x a'].
      * simpl in Hs. subst b'. exact E.
      * injection Hs as _ Hs. apply (Hfirst a' b' Hs). simpl in Hl. lia.
Qed.

Lemma id_run_all (t : jsstring) :
  forallb Str.id_char t = true -> id_run t = t.
Proof.
  induction t as [|c t IH]; simpl; [reflexivity|].
  rewrite andb_true_iff. intros [-> Ht]. rewrite (IH Ht). reflexivity.
Qed.

(** The run of id characters stops at the end of the text or at a code
    unit outside the alphabet. *)
Lemma id_run_stop (s more : jsstring) :
  s = id_run s ++ more ->
  match more with
  | [] => True
  | c :: _ => Str.id_char c = false
  end.
Proof.
  revert more. induction s as [|c s IH]; simpl; intros more H.
  - destruct more; [exact I|discriminate].
  - destruct (Str.id_char c) eqn:Hc.
    + injection H as H. apply IH. exact H.
    + simpl in H. subst more. exact Hc.
Qed.

Lemma ChannelId_chars (id : jsstring) :
  ChannelId id -> forallb Str.id_char id = true.
Proof.
  intros [t [-> [_ Ht]]]. apply forallb_alphabet in Ht. simpl. exact Ht.
Qed.

Lemma PlaylistId_chars (id : jsstring) :
  PlaylistId id -> forallb Str.id_char id = true.
Proof.
  intros [t [-> [_ Ht]]]. apply forallb_alphabet in Ht. simpl. exact Ht.
Qed.

Lemma id_chars_trim (s : jsstring) :
  forallb Str.id_char s = true -> Str.trim s = s.
Proof.
  rewrite forallb_forall. intros H. apply trim_id.
  intros c Hc. apply id_char_not_whitespace. auto.
Qed.

Lemma trimStart_spaces (pre s : jsstring) :
  forallb Str.whitespace pre = true -> Str.trimStart (pre ++ s) = Str.trimStart s.
Proof.
  induction pre as [|c pre IH]; simpl; [reflexivity|].
  rewrite andb_true_iff. intros [-> Hp]. apply IH. exact Hp.
Qed.

(** [trim] removes exactly the surrounding white space of a text that
    neither starts nor ends with white space. *)
Lemma trim_padded (pre s post : jsstring) :
  forallb Str.whitespace pre = true ->
  forallb Str.whitespace post = true ->
  (forall c, In c s -> Str.whitespace c = false) ->
  s <> [] ->
  Str.trim (pre ++ s ++ post) = s.
Proof.
  intros Hpre Hpost Hs Hne. unfold Str.trim, Str.trimEnd.
  rewrite trimStart_spaces by exact Hpre.
  destruct s as [|c s]; [congruence|].
  change ((c :: s) ++ post) with (c :: s ++ post).
  rewrite trimStart_head by (apply Hs; left; reflexivity).
  change (c :: s ++ post) with ((c :: s) ++ post).
  rewrite rev_app_distr, trimStart_spaces
    by (rewrite forallb_forall in *; intros x Hx; apply Hpost, in_rev; exact Hx).
  destruct (rev (c :: s)) as [|d r] eqn:E.
  - apply (f_equal (@List.length N)) in E. rewrite length_rev in E. discriminate.
  - rewrite trimStart_head.
    + rewrite <- E. apply rev_involutive.
    + apply Hs. apply in_rev. rewrite E. left; reflexivity.
Qed.

Section ExtractorsMore.

Context {P : Platform}.

Lemma extract_text_only (input : jsval) (raw : jsstring) :
  trimmed input = Ok raw -> raw <> [] -> exists s, input = VStr s.
Proof.
  unfold trimmed, js_or. destruct (truthy input) eqn:E.
  - destruct input; try discriminate. intros _ _. eexists; reflexivity.
  - intros H; injection H as <-. intros H. destruct (H eq_refl).
Qed.

Lemma extractVideoId_sound (input : jsval) (id : jsstring) :
  extractVideoId input = Ok (Some id) -> VideoId id.
Proof.
  unfold extractVideoId. destruct (trimmed input) as [raw|e]; [|discriminate].
  destruct (negb (Str.nonempty raw)); [discriminate|].
  destruct (video_id_pattern raw) eqn:E.
  - intros H; injection H as <-. apply pattern_VideoId. exact E.
  - destruct (URL_parse raw); [|discriminate].
    intros H; injection H as H. apply (from_url_sound _ H).
Qed.

Lemma extractChannelId_text (input : jsval) (id : jsstring) :
  extractChannelId input = Ok (Some id) -> exists s, input = VStr s.
Proof.
  unfold extractChannelId. destruct (trimmed input) as [raw|e] eqn:Et; [|discriminate].
  destruct raw as [|c raw]; [discriminate|]. intros _.
  apply (@extract_text_only input (c :: raw) Et). discriminate.
Qed.

Lemma extractPlaylistId_text (input : jsval) (id : jsstring) :
  extractPlaylistId input = Ok (Some id) -> exists s, input = VStr s.
Proof.
  unfold extractPlaylistId. destruct (trimmed input) as [raw|e] eqn:Et; [|discriminate].
  destruct raw as [|c raw]; [discriminate|]. intros _.
  apply (@extract_text_only input (c :: raw) Et). discriminate.
Qed.

(** X1: [extractChannelId] returns the leftmost channel id of the trimmed
    text: what it returns is [UC] and 22 alphabet characters, it occurs
    in the text, and no channel id occurs at an earlier position; it
    returns "no match" exactly when the text holds no channel id. *)
Theorem extractChannelId_leftmost (s : jsstring) :
  (forall id,
      extractChannelId (VStr s) = Ok (Some id) ->
      ChannelId id
      /\ exists a b,
           Str.trim s = a ++ id ++ b
           /\ forall a' id' b',
                ChannelId id' -> Str.trim s = a' ++ id' ++ b' ->
                List.length a <= List.length a')
  /\ (extractChannelId (VStr s) = Ok None <->
      forall id, occurs id (Str.trim s) -> ~ ChannelId id).
Proof.
  unfold extractChannelId. rewrite trimmed_text. split.
  - intros id. destruct (negb _); [discriminate|]. intros H; injection H as H.
    destruct (search_first _ _ H) as [a [b [Hs [Hb Hfirst]]]].
    destruct (channel_at_sound _ Hb) as [Hid [more ->]].
    split; [exact Hid|]. exists a, more. split; [exact Hs|].
    intros a' id' b' Hid' Hs'.
    destruct (Nat.le_gt_cases (List.length a) (List.length a')) as [Hle|Hlt];
      [exact Hle|].
    pose proof (Hfirst a' (id' ++ b') Hs' Hlt) as Hn.
    rewrite (channel_at_complete b' Hid') in Hn. discriminate.
  - split.
    + intros H id [a [b Hs]] Hid.
      destruct (Str.trim s) as [|c raw] eqn:E.
      * destruct a; [|discriminate]. destruct Hid as [t [-> _]]. discriminate.
      * cbn [negb Str.nonempty] in H.
        assert (H' : search channel_at (c :: raw) = None) by congruence.
        pose proof (proj1 (search_none _ _) H' a (id ++ b) Hs) as Hn.
        rewrite (channel_at_complete b Hid) in Hn. discriminate.
    + intros Hno. destruct (negb _); [reflexivity|].
      rewrite (proj2 (search_none _ _)); [reflexivity|].
      intros a b Hs. destruct (channel_at b) as [id|] eqn:E; [|reflexivity].
      destruct (channel_at_sound _ E) as [Hid [more ->]].
      destruct (Hno id); [|exact Hid]. exists a, more. exact Hs.
Qed.

(** X2: [extractPlaylistId] returns the leftmost playlist id of the
    trimmed text, taken as long as it goes: what it returns is [PL] and
    one or more alphabet characters, it occurs in the text, what follows
    it there is the end of the text or a character outside the alphabet,
    and no playlist id occurs at an earlier position; it returns "no
    match" exactly when the text holds no playlist id. *)
Theorem extractPlaylistId_greedy (s : jsstring) :
  (forall id,
      extractPlaylistId (VStr s) = Ok (Some id) ->
      PlaylistId id
      /\ exists a b,
           Str.trim s = a ++ id ++ b
           /\ (forall c b', b = c :: b' -> ~ In c alphabet)
           /\ forall a' id' b',
                PlaylistId id' -> Str.trim s = a' ++ id' ++ b' ->
                List.length a <= List.length a')
  /\ (extractPlaylistId (VStr s) = Ok None <->
      forall id, occurs id (Str.trim s) -> ~ PlaylistId id).
Proof.
  unfold extractPlaylistId. rewrite trimmed_text. split.
  - intros id. destruct (negb _); [discriminate|]. intros H; injection H as H.
    destruct (search_first _ _ H) as [a [b [Hs [Hb Hfirst]]]].
    destruct (playlist_at_sound _ Hb) as [Hid _].
    split; [exact Hid|].
    unfold playlist_at in Hb.
    destruct (Str.startsWith b (lit "PL")) eqn:E; [|discriminate].
    apply startsWith_prefix in E. destruct E as [u ->].
    change (skipn 2 (lit "PL" ++ u)) with u in Hb.
    destruct (id_run_spec u) as [_ [more Hu]].
    pose proof (@id_run_stop u more Hu) as Hstop.
    destruct (id_run u) as [|c run] eqn:Er; [discriminate|].
    injection Hb as <-.
    exists a, more. split; [rewrite Hs, Hu at 1; reflexivity|]. split.
    + intros x b' -> Hx. apply alphabet_id_char in Hx. congruence.
    + intros a' id' b' Hid' Hs'.
      destruct (Nat.le_gt_cases (List.length a) (List.length a')) as [Hle|Hlt];
        [exact Hle|].
      destruct (playlist_at_complete b' Hid' (Hfirst a' (id' ++ b') Hs' Hlt)).
  - split.
    + intros H id [a [b Hs]] Hid.
      destruct (Str.trim s) as [|c raw] eqn:E.
      * destruct a; [|discriminate]. destruct Hid as [t [-> _]]. discriminate.
      * cbn [negb Str.nonempty] in H.
        assert (H' : search playlist_at (c :: raw) = None) by congruence.
        pose proof (proj1 (search_none _ _) H' a (id ++ b) Hs) as Hn.
        exact (playlist_at_complete b Hid Hn).
    + intros Hno. destruct (negb _); [reflexivity|].
      rewrite (proj2 (search_none _ _)); [reflexivity|].
      intros a b Hs. destruct (playlist_at b) as [id|] eqn:E; [|reflexivity].
      destruct (playlist_at_sound _ E) as [Hid [more ->]].
      destruct (Hno id); [|exact Hid]. exists a, more. exact Hs.
Qed.

Lemma extractVideoId_own (id : jsstring) :
  VideoId id -> extractVideoId (VStr id) = Ok (Some id).
Proof.
  intros H. apply pattern_VideoId in H.
  unfold extractVideoId. rewrite trimmed_text, (pattern_trim _ H).
  rewrite (pattern_nonempty _ H), H. reflexivity.
Qed.

Lemma extractChannelId_own (id : jsstring) :
  ChannelId id -> extractChannelId (VStr id) = Ok (Some id).
Proof.
  intros Hid.
  unfold extractChannelId. rewrite trimmed_text, (id_chars_trim _ (ChannelId_chars Hid)).
  destruct Hid as [t [-> [Hl Ht]]].
  change (negb (Str.nonempty (lit "UC" ++ t))) with false. cbv iota.
  destruct t as [|c t]; [discriminate|].
  assert (Hc : channel_at (lit "UC" ++ c :: t) = Some (lit "UC" ++ c :: t)).
  { rewrite <- (app_nil_r (lit "UC" ++ c :: t)) at 1. apply channel_at_complete.
    exists (c :: t). repeat split; assumption. }
  change (lit "UC" ++ c :: t) with (85%N :: 67%N :: c :: t) in *.
  cbn [search]. rewrite Hc. reflexivity.
Qed.

Lemma extractPlaylistId_own (id : jsstring) :
  PlaylistId id -> extractPlaylistId (VStr id) = Ok (Some id).
Proof.
  intros Hid.
  unfold extractPlaylistId. rewrite trimmed_text, (id_chars_trim _ (PlaylistId_chars Hid)).
  destruct Hid as [t [-> [Hne Ht]]]. apply forallb_alphabet in Ht.
  change (negb (Str.nonempty (lit "PL" ++ t))) with false. cbv iota.
  assert (Hp : playlist_at (lit "PL" ++ t) = Some (lit "PL" ++ t)).
  { unfold playlist_at.
    change (Str.startsWith (lit "PL" ++ t) (lit "PL")) with true.
    change (skipn 2 (lit "PL" ++ t)) with t.
    rewrite (id_run_all _ Ht). destruct t; [congruence|reflexivity]. }
  change (lit "PL" ++ t) with (80%N :: 76%N :: t) in *.
  cbn [search]. rewrite Hp. reflexivity.
Qed.

Lemma extractChannelId_result (input : jsval) (id : jsstring) :
  extractChannelId input = Ok (Some id) -> ChannelId id.
Proof.
  intros H. destruct (extractChannelId_text _ H) as [s ->].
  apply (extractChannelId_sound _ H).
Qed.

Lemma extractPlaylistId_result (input : jsval) (id : jsstring) :
  extractPlaylistId input = Ok (Some id) -> PlaylistId id.
Proof.
  intros H. destruct (extractPlaylistId_text _ H) as [s ->].
  apply (extractPlaylistId_sound _ H).
Qed.

(** X3: what an extractor returns, it returns again when given that
    result as input: every id extracted from any input (a pasted link, a
    text) is accepted unchanged by the same extractor, as when a
    permalink is read back on load. *)
Theorem extractors_accept_their_results (input : jsval) (id : jsstring) :
  (extractVideoId input = Ok (Some id) -> extractVideoId (VStr id) = Ok (Some id))
  /\ (extractChannelId input = Ok (Some id) -> extractChannelId (VStr id) = Ok (Some id))
  /\ (extractPlaylistId input = Ok (Some id) -> extractPlaylistId (VStr id) = Ok (Some id)).
Proof.
  split; [|split]; intros H.
  - apply extractVideoId_own. apply (extractVideoId_sound _ H).
  - apply extractChannelId_own. apply (extractChannelId_result _ H).
  - apply extractPlaylistId_own. apply (extractPlaylistId_result _ H).
Qed.

(** X4: a video id pasted with white space around it (blanks, tabs, line
    ends, no-break spaces) is extracted as the bare id. *)
Theorem extractVideoId_padded (pre id post : jsstring) :
  VideoId id ->
  forallb Str.whitespace pre = true ->
  forallb Str.whitespace post = true ->
  extractVideoId (VStr (pre ++ id ++ post)) = Ok (Some id).
Proof.
  intros Hid Hpre Hpost. apply pattern_VideoId in Hid.
  unfold extractVideoId. rewrite trimmed_text.
  rewrite trim_padded; [|exact Hpre|exact Hpost| |].
  - rewrite (pattern_nonempty _ Hid), Hid. reflexivity.
  - unfold video_id_pattern in Hid. apply andb_true_iff in Hid.
    destruct Hid as [_ Hc]. rewrite forallb_forall in Hc.
    intros c Hin. apply id_char_not_whitespace. auto.
  - intros ->. discriminate.
Qed.

End ExtractorsMore.

(** ** Renderers: what they write and what they leave *)

Section RenderersMore.

Context {P : Platform}.

Lemma page_eta (st : Page) :
  mkPage (location st) (inputs st) (status st) (player st) (meta st) (results st) = st.
Proof. destruct st. reflexivity. Qed.

(** [setPlayer] as a function of the value and the page. *)
Lemma setPlayer_eq (v : jsval) (st : Page) :
  setPlayer v st =
  if truthy v then
    match template embed_prefix v with
    | Throw e => (Throw e, set_placeholder (lit "none") st)
    | Ok address =>
        match new_URL address with
        | Throw e => (Throw e, set_placeholder (lit "none") st)
        | Ok src => (Ok tt, set_player (embedded src) st)
        end
    end
  else (Ok tt, set_player (mkPlayer [] (lit "grid")) st).
Proof.
  unfold setPlayer. destruct (truthy v); cbn [negb]; run; [|reflexivity].
  destruct (template embed_prefix v) as [address|e]; [|reflexivity].
  destruct (new_URL address); reflexivity.
Qed.

(** [renderMeta] as a function of its argument and the page. *)
Lemma renderMeta_eq (arg : list (jsstring * jsval)) (st : Page) :
  renderMeta arg st =
  match meta_title_text (field "title" arg) (field "videoId" arg) with
  | Throw e => (Throw e, st)
  | Ok t =>
      match meta_byline_text (field "author_name" arg) with
      | Throw e => (Throw e, set_metaTitle t st)
      | Ok b =>
          if truthy (field "videoId" arg) then
            match encode (field "videoId" arg) with
            | Throw e => (Throw e, set_meta (mkMeta t b []) st)
            | Ok encoded =>
                match to_string (field "videoId" arg) with
                | Throw e => (Throw e, set_meta (mkMeta t b []) st)
                | Ok v =>
                    (Ok tt,
                     set_meta
                       (mkMeta t b
                          [watch_link (lit "https://www.youtube.com/watch?v=" ++ encoded);
                           share_link (URL_toString (permalink v (location st)))])
                       st)
                end
            end
          else (Ok tt, set_meta (mkMeta t b []) st)
      end
  end.
Proof.
  unfold renderMeta. run.
  destruct (meta_title_text _ _) as [t|e]; [|reflexivity].
  destruct (meta_byline_text _) as [b|e]; [|reflexivity].
  destruct (truthy (field "videoId" arg)); cbn [negb]; [|reflexivity].
  destruct (encode _) as [encoded|e]; [|reflexivity].
  destruct (to_string _); reflexivity.
Qed.

Lemma setPlayer_region (videoId : jsval) (st : Page) :
  exists r p, setPlayer videoId st = (r, set_player p st).
Proof.
  rewrite setPlayer_eq. destruct (truthy videoId).
  - destruct (template embed_prefix videoId) as [address|e];
      [destruct (new_URL address)|]; eexists; eexists; reflexivity.
  - eexists; eexists; reflexivity.
Qed.

Lemma renderMeta_region (arg : list (jsstring * jsval)) (st : Page) :
  exists r m, renderMeta arg st = (r, set_meta m st).
Proof.
  rewrite renderMeta_eq.
  destruct (meta_title_text _ _) as [t|e].
  - destruct (meta_byline_text _) as [b|e].
    + destruct (truthy _).
      * destruct (encode _); [destruct (to_string _)|];
          eexists; eexists; reflexivity.
      * eexists; eexists; reflexivity.
    + eexists; eexists; reflexivity.
  - exists (Throw e), (meta st). destruct st; reflexivity.
Qed.

Lemma renderFeed_region (feed : jsval) (st : Page) :
  exists r l, renderFeed feed st = (r, set_results l st).
Proof.
  rewrite renderFeed_run.
  destruct (to_string (title_of feed)) as [t|e].
  - destruct (to_string (sub_of feed)); eexists; eexists; reflexivity.
  - exists (Throw e), (results st). destruct st; reflexivity.
Qed.

(** X5: each renderer writes its own region and nothing else: whatever
    its argument, and also when it throws part way, [setStatus] leaves
    everything but the status line as it was, [setPlayer] everything but
    the player, [renderMeta] everything but the metadata panel, and
    [renderFeed] everything but the results region; none of them touches
    the address or the input fields. *)
Theorem renderers_keep_to_their_region (st : Page) :
  (forall message error,
      exists s, setStatus message error st = (Ok tt, set_status s st))
  /\ (forall videoId, exists r p, setPlayer videoId st = (r, set_player p st))
  /\ (forall arg, exists r m, renderMeta arg st = (r, set_meta m st))
  /\ (forall feed, exists r l, renderFeed feed st = (r, set_results l st)).
Proof.
  split; [|split; [|split]].
  - intros message error. eexists. reflexivity.
  - intros v. apply setPlayer_region.
  - intros arg. apply renderMeta_region.
  - intros feed. apply renderFeed_region.
Qed.

(** X6: [setPlayer] is idempotent: called again with the same value it
    leaves the page as the first call left it.  Whether it completes or
    throws, and which display the placeholder gets, depend on the value
    alone.  When it completes, the whole player depends on the value
    alone, never on what was shown before; when it throws (a value
    without a string form, an address the URL constructor rejects) the
    placeholder is already hidden and the frame keeps what it showed
    before.  With a missing value it empties the frame and shows the
    placeholder whatever was playing; and with any text, on a platform
    that parses every embed address, it completes. *)
Theorem setPlayer_idempotent (videoId : jsval) (st : Page) :
  setPlayer videoId (snd (setPlayer videoId st)) = setPlayer videoId st
  /\ (truthy videoId = false ->
      forall other,
        setPlayer videoId (snd (setPlayer other st))
        = (Ok tt, set_player (mkPlayer [] (lit "grid")) (snd (setPlayer other st)))
        /\ player (snd (setPlayer videoId (snd (setPlayer other st))))
           = mkPlayer [] (lit "grid"))
  /\ (forall st',
        fst (setPlayer videoId st') = fst (setPlayer videoId st)
        /\ placeholder_display (player (snd (setPlayer videoId st')))
           = placeholder_display (player (snd (setPlayer videoId st))))
  /\ (fst (setPlayer videoId st) = Ok tt ->
      forall st', player (snd (setPlayer videoId st')) = player (snd (setPlayer videoId st)))
  /\ (forall e,
        fst (setPlayer videoId st) = Throw e ->
        player (snd (setPlayer videoId st)) = mkPlayer (frame_src (player st)) (lit "none"))
  /\ (PlatformLaws P ->
      forall text, exists p, setPlayer (VStr text) st = (Ok tt, set_player p st)).
Proof.
  split; [|split; [|split; [|split; [|split]]]].
  - rewrite !setPlayer_eq. destruct (truthy videoId); [|reflexivity].
    destruct (template embed_prefix videoId) as [address|e]; [|reflexivity].
    destruct (new_URL address); reflexivity.
  - intros Hv other. rewrite (setPlayer_eq videoId), Hv. split; reflexivity.
  - intros st'. rewrite !setPlayer_eq. destruct (truthy videoId); [|split; reflexivity].
    destruct (template embed_prefix videoId) as [address|e]; [|split; reflexivity].
    destruct (new_URL address); split; reflexivity.
  - rewrite !setPlayer_eq. intros Hok st'. rewrite setPlayer_eq.
    destruct (truthy videoId); [|reflexivity].
    destruct (template embed_prefix videoId) as [address|e]; [|discriminate].
    destruct (new_URL address); [reflexivity|discriminate].
  - rewrite !setPlayer_eq. intros e.
    destruct (truthy videoId); [|discriminate].
    destruct (template embed_prefix videoId) as [address|e']; [|reflexivity].
    destruct (new_URL address); [discriminate|reflexivity].
  - intros L text. rewrite setPlayer_eq.
    destruct (truthy (VStr text)); [|eexists; reflexivity].
    unfold template, new_URL. cbn [to_string]. cbv beta iota delta [bind Result_Monad].
    destruct (URL_parse (embed_prefix ++ text)) as [src|] eqn:Hsrc;
      [eexists; reflexivity|destruct (URL_parse_embed text Hsrc)].
Qed.

(** X7: rendering metadata without a video id shows no action links and
    removes the ones shown before: for a title and an author that are
    text when present, the panel holds the title (or nothing), the byline
    [by <author>] (or nothing) and an empty action list. *)
Theorem renderMeta_without_id (arg : list (jsstring * jsval)) (st : Page) :
  truthy (field "videoId" arg) = false ->
  optional_text (field "title" arg) ->
  optional_text (field "author_name" arg) ->
  renderMeta arg st
  = (Ok tt,
     set_meta
       (mkMeta
          (match field "title" arg with VStr (c :: t) => c :: t | _ => [] end)
          (match field "author_name" arg with
           | VStr (c :: a) => lit "by " ++ c :: a
           | _ => []
           end)
          []) st).
Proof.
  intros Hid Ht Ha. rewrite renderMeta_eq. unfold meta_title_text, meta_byline_text.
  rewrite Hid.
  destruct (field "title" arg) as [| | | |[|c t]| | |]; simpl in Ht; try contradiction;
    destruct (field "author_name" arg) as [| | | |[|d a]| | |]; simpl in Ha;
    try contradiction; reflexivity.
Qed.

(** X8: [renderMeta] is idempotent: run again with the same argument on
    the page it left, it ends the same way and leaves that page as it is;
    the action links are replaced, never added to. *)
Theorem renderMeta_idempotent (arg : list (jsstring * jsval)) (st : Page) :
  renderMeta arg (snd (renderMeta arg st)) = renderMeta arg st.
Proof.
  rewrite !renderMeta_eq.
  destruct (meta_title_text _ _) as [t|e]; [|reflexivity].
  destruct (meta_byline_text _) as [b|e]; [|reflexivity].
  destruct (truthy _); [|reflexivity].
  destruct (encode _); [|reflexivity].
  destruct (to_string _); reflexivity.
Qed.

End RenderersMore.

(** ** Metadata lookup: every way it can end *)

Lemma lookup_assign_same (k : jsstring) (v : jsval) (fields : list (jsstring * jsval)) :
  lookup k (assign k v fields) = Some v.
Proof.
  induction fields as [|[k' v'] more IH]; simpl.
  - rewrite eqb_refl. reflexivity.
  - destruct (Str.eqb k' k) eqn:E; simpl; rewrite E; [reflexivity|exact IH].
Qed.

Lemma lookup_assign_other (k k0 : jsstring) (v : jsval) (fields : list (jsstring * jsval)) :
  k0 <> k -> lookup k (assign k0 v fields) = lookup k fields.
Proof.
  intros Hk. induction fields as [|[k' v'] more IH]; simpl.
  - assert (E : Str.eqb k0 k = false) by (apply eqb_neq; exact Hk).
    rewrite E. reflexivity.
  - destruct (Str.eqb k' k0) eqn:E0; simpl.
    + apply eqb_eq in E0. subst k'.
      assert (E : Str.eqb k0 k = false) by (apply eqb_neq; exact Hk).
      rewrite E. reflexivity.
    + rewrite IH. reflexivity.
Qed.

Lemma lookup_absent (k : jsstring) (entries : list (jsstring * jsval)) :
  ~ In k (map fst entries) -> lookup k entries = None.
Proof.
  induction entries as [|[k' v'] more IH]; simpl; [reflexivity|].
  intros H. destruct (Str.eqb k' k) eqn:E.
  - apply eqb_eq in E. tauto.
  - apply IH. tauto.
Qed.

Lemma lookup_spread_absent (k : jsstring) (entries base : list (jsstring * jsval)) :
  lookup k entries = None ->
  lookup k (assign_all base entries) = lookup k base.
Proof.
  revert base. induction entries as [|[k' v'] more IH]; intros base; simpl; [reflexivity|].
  destruct (Str.eqb k' k) eqn:E; [discriminate|]. intros H.
  unfold assign_all in *. simpl. rewrite (IH _ H).
  apply lookup_assign_other. apply eqb_neq. exact E.
Qed.

Lemma lookup_spread_present (k : jsstring) (v : jsval)
    (entries base : list (jsstring * jsval)) :
  NoDup (map fst entries) ->
  lookup k entries = Some v ->
  lookup k (assign_all base entries) = Some v.
Proof.
  revert base. induction entries as [|[k' v'] more IH]; intros base Hnd; simpl;
    [discriminate|].
  simpl in Hnd. inversion Hnd as [|? ? Hk Hnd']; subst.
  unfold assign_all in *. simpl.
  destruct (Str.eqb k' k) eqn:E.
  - intros H; injection H as <-. apply eqb_eq in E. subst k'.
    pose proof (@lookup_spread_absent k more (assign k v' base) (lookup_absent _ _ Hk)) as Ha.
    unfold assign_all in Ha. rewrite Ha. apply lookup_assign_same.
  - intros H. apply (IH _ Hnd' H).
Qed.

Section MetadataLookup.

Context {P : Platform}.

Lemma renderMeta_text (arg : list (jsstring * jsval)) (id encoded : jsstring) (st : Page) :
  field "videoId" arg = VStr id ->
  id <> [] ->
  Str.encodeURIComponent id = Some encoded ->
  optional_text (field "title" arg) ->
  optional_text (field "author_name" arg) ->
  renderMeta arg st
  = (Ok tt,
     set_meta (meta_panel encoded id (field "title" arg) (field "author_name" arg)
                          (location st)) st).
Proof.
  intros Hv Hne He Ht Ha. rewrite renderMeta_eq, Hv.
  unfold meta_title_text, meta_byline_text, encode, template, meta_panel.
  cbn [to_string truthy]. destruct id as [|x id'] eqn:Eid; [congruence|].
  cbn [Str.nonempty]. rewrite <- Eid in *.
  cbv beta iota delta [bind Result_Monad]. rewrite He.
  destruct (field "title" arg) as [| | | |[|c t]| | |]; simpl in Ht; try contradiction;
    destruct (field "author_name" arg) as [| | | |[|d a]| | |]; simpl in Ha;
    try contradiction; reflexivity.
Qed.

(** [loadOEmbed] for a text id: the request, and the continuation on any
    outcome. *)
Lemma loadOEmbed_resume (id encoded : jsstring) (st : Page) :
  id <> [] ->
  Str.encodeURIComponent id = Some encoded ->
  exists resume,
    loadOEmbed (VStr id) st = Pending (lit "/api/oembed?v=" ++ encoded) st resume
    /\ forall o st',
        resume o st' =
        match settle o with
        | Throw _ => Done (Ok tt) (set_meta (meta_of_id encoded id (location st')) st')
        | Ok data =>
            match renderMeta (spread [(lit "videoId", VStr id)] data) st' with
            | (Ok _, st'') => Done (Ok tt) st''
            | (Throw _, st'') =>
                Done (Ok tt) (set_meta (meta_of_id encoded id (location st'')) st'')
            end
        end.
Proof.
  intros H He.
  unfold loadOEmbed, encode. cbn [to_string]. run.
  rewrite He. cbn [step_bind step_catch].
  eexists. split; [reflexivity|].
  intros o st'. cbv beta. destruct (settle o) as [data|e]; cbn [step_bind step_catch].
  - destruct (renderMeta (spread _ data) st') as [[[]|e] st'']; cbn [step_catch].
    + reflexivity.
    + rewrite (renderMeta_id_only st'' H He). reflexivity.
  - rewrite (renderMeta_id_only st' H He). reflexivity.
Qed.

(** X9: a successful lookup fills the panel from the payload: for an
    object payload (each member listed once) without a [videoId] member,
    whose [title] and [author_name] are text when present, the panel
    shows the payload's title, or [Video: <id>] when it has none; the
    byline [by <author>], or nothing; and the two links of the played id.
    The completion writes into the page as it is when the answer arrives. *)
Theorem loadOEmbed_success (id : jsstring) (st : Page) (o : outcome)
    (fields : list (jsstring * jsval)) :
  VideoId id ->
  settle o = Ok (VObj fields) ->
  NoDup (map fst fields) ->
  lookup (lit "videoId") fields = None ->
  optional_text (field "title" fields) ->
  optional_text (field "author_name" fields) ->
  exists resume,
    loadOEmbed (VStr id) st = Pending (lit "/api/oembed?v=" ++ id) st resume
    /\ forall st',
        resume o st'
        = Done (Ok tt)
            (set_meta (meta_panel id id (field "title" fields)
                                  (field "author_name" fields) (location st')) st').
Proof.
  intros Hid Ho Hnd Hv Ht Ha.
  pose proof (VideoId_nonempty Hid) as Hne.
  pose proof (encodeURIComponent_id _ (VideoId_chars Hid)) as He.
  destruct (loadOEmbed_resume st Hne He) as [resume [Hrun Hres]].
  exists resume. split; [exact Hrun|].
  intros st'. rewrite Hres, Ho.
  assert (Hfield : forall k,
             lookup (lit k) [(lit "videoId", VStr id)] = None ->
             field k (spread [(lit "videoId", VStr id)] (VObj fields)) = field k fields).
  { intros k Hk. unfold field, spread. cbn [own_entries].
    fold (assign_all [(lit "videoId", VStr id)] fields).
    destruct (lookup (lit k) fields) as [v|] eqn:E.
    - rewrite (@lookup_spread_present _ _ _ [(lit "videoId", VStr id)] Hnd E). reflexivity.
    - rewrite (@lookup_spread_absent _ _ [(lit "videoId", VStr id)] E), Hk. reflexivity. }
  assert (Hvid : field "videoId" (spread [(lit "videoId", VStr id)] (VObj fields)) = VStr id).
  { unfold field, spread. cbn [own_entries].
    fold (assign_all [(lit "videoId", VStr id)] fields).
    rewrite (@lookup_spread_absent _ _ [(lit "videoId", VStr id)] Hv). reflexivity. }
  rewrite (@renderMeta_text _ id id st' Hvid Hne He);
    rewrite !Hfield by reflexivity; auto.
Qed.

(** X10: a [videoId] member in the payload replaces the played id in the
    panel: the spread [{ videoId, ...data }] lets the payload's member
    win, so the fallback title and both links are those of the payload's
    id, while the player keeps the played one. *)
Theorem loadOEmbed_payload_id_wins (id other : jsstring) (st : Page) (o : outcome)
    (fields : list (jsstring * jsval)) :
  VideoId id ->
  VideoId other ->
  settle o = Ok (VObj fields) ->
  NoDup (map fst fields) ->
  lookup (lit "videoId") fields = Some (VStr other) ->
  optional_text (field "title" fields) ->
  optional_text (field "author_name" fields) ->
  exists resume,
    loadOEmbed (VStr id) st = Pending (lit "/api/oembed?v=" ++ id) st resume
    /\ forall st',
        resume o st'
        = Done (Ok tt)
            (set_meta (meta_panel other other (field "title" fields)
                                  (field "author_name" fields) (location st')) st').
Proof.
  intros Hid Hother Ho Hnd Hv Ht Ha.
  pose proof (VideoId_nonempty Hid) as Hne.
  pose proof (encodeURIComponent_id _ (VideoId_chars Hid)) as He.
  destruct (loadOEmbed_resume st Hne He) as [resume [Hrun Hres]].
  exists resume. split; [exact Hrun|].
  intros st'. rewrite Hres, Ho.
  assert (Hfield : forall k,
             lookup (lit k) [(lit "videoId", VStr id)] = None ->
             field k (spread [(lit "videoId", VStr id)] (VObj fields)) = field k fields).
  { intros k Hk. unfold field, spread. cbn [own_entries].
    fold (assign_all [(lit "videoId", VStr id)] fields).
    destruct (lookup (lit k) fields) as [v|] eqn:E.
    - rewrite (@lookup_spread_present _ _ _ [(lit "videoId", VStr id)] Hnd E). reflexivity.
    - rewrite (@lookup_spread_absent _ _ [(lit "videoId", VStr id)] E), Hk. reflexivity. }
  assert (Hvid : field "videoId" (spread [(lit "videoId", VStr id)] (VObj fields))
                 = VStr other).
  { unfold field, spread. cbn [own_entries].
    fold (assign_all [(lit "videoId", VStr id)] fields).
    rewrite (@lookup_spread_present _ _ _ [(lit "videoId", VStr id)] Hnd Hv). reflexivity. }
  rewrite (@renderMeta_text _ other other st' Hvid (VideoId_nonempty Hother)
             (encodeURIComponent_id _ (VideoId_chars Hother)));
    rewrite !Hfield by reflexivity; auto.
Qed.

(** X11: playing a video id never fails and asks the network once:
    whatever comes back (a rejection, any status, any body, any payload,
    also one that makes [renderMeta] throw) the action completes
    normally without a second request, and the completion writes the
    metadata panel only: player, status line, results, address and
    input fields stay as they are when the answer arrives. *)
Theorem playVideo_always_completes {L : PlatformLaws P}
    (id : jsstring) (pushQuery : bool) (st : Page) :
  VideoId id ->
  exists st1 resume,
    playVideo (VStr id) pushQuery st = Pending (lit "/api/oembed?v=" ++ id) st1 resume
    /\ forall o st2, exists m, resume o st2 = Done (Ok tt) (set_meta m st2).
Proof.
  intros Hid. pose proof (VideoId_nonempty Hid) as Hne.
  pose proof (encodeURIComponent_id _ (VideoId_chars Hid)) as He.
  destruct (URL_parse (embed_prefix ++ id)) as [src|] eqn:Hsrc;
    [|destruct (URL_parse_embed id Hsrc)].
  rewrite (playVideo_run pushQuery st Hne Hsrc).
  match goal with
  | |- context [loadOEmbed (VStr id) ?s] =>
      destruct (loadOEmbed_resume s Hne He) as [resume [Hrun Hres]]
  end.
  eexists. exists resume. split; [exact Hrun|].
  intros o st2. rewrite Hres. destruct (settle o) as [data|e].
  - destruct (renderMeta_region (spread [(lit "videoId", VStr id)] data) st2)
      as [r [m Hr]].
    rewrite Hr. destruct r as [[]|e]; eexists; reflexivity.
  - eexists; reflexivity.
Qed.

(** X12: a lookup answered with a successful status and a body that is
    not JSON counts as a success with nothing in it: no error is raised,
    and the panel shows the id only, as after a failed lookup. *)
Theorem loadOEmbed_unparsable_body (id : jsstring) (st : Page)
    (status : N) (text : jsstring) :
  VideoId id ->
  (200 <= status <= 299)%N ->
  JSON_parse text = None ->
  exists resume,
    loadOEmbed (VStr id) st = Pending (lit "/api/oembed?v=" ++ id) st resume
    /\ forall st',
        resume (Responded status text) st'
        = Done (Ok tt) (set_meta (meta_of_id id id (location st')) st').
Proof.
  intros Hid Hok Hn. apply ok_spec in Hok.
  pose proof (VideoId_nonempty Hid) as Hne.
  pose proof (encodeURIComponent_id _ (VideoId_chars Hid)) as He.
  destruct (loadOEmbed_resume st Hne He) as [resume [Hrun Hres]].
  exists resume. split; [exact Hrun|].
  intros st'. rewrite Hres. unfold settle, payload. rewrite Hok, Hn. cbn [negb].
  rewrite (@renderMeta_text _ id id st'); try assumption; try exact I; reflexivity.
Qed.

End MetadataLookup.

(** ** Results list: entries *)

Section Entries.

Context {P : Platform}.

Lemma bind_intro (A B : Type) (e : Result A) (k : A -> Result B) (v : A)
    (r : Result B) :
  e = Ok v -> k v = r -> (x <- e ;; k x) = r.
Proof. intros -> <-. reflexivity. Qed.

Lemma entry_images (item : jsval) (fields : list (jsstring * jsval)) :
  item = VObj fields ->
  optional_text (get_opt item (lit "thumbnail")) ->
  (if truthy (get_opt item (lit "thumbnail")) then
     thumbnail' <- get_prop item (lit "thumbnail") ;;
     src <- to_string thumbnail' ;;
     Ok [Element "img" [("loading", lit "lazy"); ("alt", []); ("src", Str.usv src)]
           [] None]
   else Ok [])
  = Ok (match get_opt item (lit "thumbnail") with
        | VStr (c :: s) =>
            [Element "img" [("loading", lit "lazy"); ("alt", []); ("src", Str.usv (c :: s))]
               [] None]
        | _ => []
        end).
Proof.
  intros -> H. unfold get_prop.
  destruct (get_opt (VObj fields) (lit "thumbnail")) as [| | | |[|c s]| | |];
    simpl in H; try contradiction; reflexivity.
Qed.

Lemma entry_title (title videoId : jsval) :
  optional_text title -> optional_text videoId ->
  to_string (js_or (js_or title (if truthy title then VUndef else videoId))
                   (VStr (lit "Untitled")))
  = Ok (text_else title (text_else videoId (lit "Untitled"))).
Proof.
  intros Ht Hv.
  destruct title as [| | | |[|c s]| | |]; simpl in Ht; try contradiction;
    destruct videoId as [| | | |[|d t]| | |]; simpl in Hv; try contradiction;
    reflexivity.
Qed.

Lemma entry_date (published : jsval) :
  optional_text published ->
  (truthy published = true -> exists d, Date_medium published = Ok d) ->
  exists formatted,
    formatDate published = Ok formatted
    /\ to_string formatted = Ok (date_text published).
Proof.
  intros Hp Hd. unfold formatDate, date_text.
  destruct published as [| | | |[|c s]| | |]; simpl in Hp; try contradiction;
    cbn [truthy Str.nonempty negb];
    try (eexists; split; reflexivity).
  destruct (Hd eq_refl) as [d ->]. cbv beta iota delta [bind Result_Monad].
  destruct d; eexists; split; reflexivity.
Qed.

Lemma entry_link (item : jsval) (fields : list (jsstring * jsval)) :
  item = VObj fields ->
  optional_text (get_opt item (lit "link")) ->
  optional_text (get_opt item (lit "videoId")) ->
  (if truthy (get_opt item (lit "link")) then to_string (get_opt item (lit "link"))
   else
     videoId' <- get_prop item (lit "videoId") ;;
     template (lit "https://www.youtube.com/watch?v=") videoId')
  = Ok (entry_href (get_opt item (lit "link")) (get_opt item (lit "videoId"))).
Proof.
  intros -> Hl Hv. unfold get_prop, template, entry_href.
  destruct (get_opt (VObj fields) (lit "link")) as [| | | |[|c s]| | |];
    simpl in Hl; try contradiction;
    destruct (get_opt (VObj fields) (lit "videoId")) as [| | | |[|d t]| | |];
    simpl in Hv; try contradiction; reflexivity.
Qed.

Lemma entry_description (description : jsval) :
  optional_text description ->
  to_string (js_or description (VStr [])) = Ok (text_else description []).
Proof.
  intros H. destruct description as [| | | |[|c s]| | |];
    simpl in H; try contradiction; reflexivity.
Qed.

Lemma entry_run (item : jsval) :
  item_ok item -> entry item = Ok (entry_of item).
Proof.
  intros [[fields Hitem] [Hth [Hti [Hv [Hp [Hl [Hd Hdate]]]]]]].
  destruct (entry_date _ Hp Hdate) as [formatted [Hformat Htext]].
  assert (Hget : forall k, get_prop item k = Ok (get_opt item k))
    by (intros k; rewrite Hitem; reflexivity).
  unfold entry, entry_of.
  eapply bind_intro; [apply Hget|cbv beta zeta].
  eapply bind_intro; [exact (entry_images Hitem Hth)|cbv beta zeta].
  eapply bind_intro; [apply Hget|cbv beta zeta].
  eapply bind_intro.
  { instantiate (1 := if truthy (get_opt item (lit "title")) then VUndef
                      else get_opt item (lit "videoId")).
    rewrite Hget. destruct (truthy (get_opt item (lit "title"))); reflexivity. }
  cbv beta zeta.
  eapply bind_intro; [exact (entry_title _ _ Hti Hv)|cbv beta zeta].
  eapply bind_intro; [apply Hget|cbv beta zeta].
  eapply bind_intro; [exact Hformat|cbv beta zeta].
  eapply bind_intro; [exact Htext|cbv beta zeta].
  eapply bind_intro; [apply Hget|cbv beta zeta].
  eapply bind_intro; [exact (entry_link Hitem Hl Hv)|cbv beta zeta].
  eapply bind_intro; [apply Hget|cbv beta zeta].
  eapply bind_intro; [exact (entry_description _ Hd)|cbv beta zeta].
  reflexivity.
Qed.

(** X13: the entry built for a feed item of the data model: the title
    falls back to the video id and then to [Untitled]; the image is there
    only when the item has a thumbnail; the date is empty when absent,
    shown as given when the date constructor rejects it, and formatted
    otherwise; the link falls back to the watch address of the id, which
    reads [watch?v=undefined] for an item with neither link nor id; the
    address of the image and the address of the link are kept in
    scalar-value form (an unpaired surrogate in the item's text reads
    U+FFFD there), the other texts as given; the description may be
    empty; and the click listener closes over the item. *)
Theorem entry_of_item (item : jsval) :
  item_ok item ->
  entry item = Ok (entry_of item)
  /\ listener_of (entry_of item) = Some item
  /\ (get_opt item (lit "title") = VUndef -> get_opt item (lit "videoId") = VUndef ->
      get_opt item (lit "link") = VUndef ->
      exists thumb date desc,
        entry_of item
        = Element "li" [("className", lit "item")]
            [thumb;
             Element "div" []
               [Element "p" [("className", lit "itemTitle");
                             ("textContent", lit "Untitled")] [] None;
                Element "div" [("className", lit "itemMeta")]
                  [date;
                   Element "a"
                     [("href", lit "https://www.youtube.com/watch?v=undefined");
                      ("target", lit "_blank"); ("rel", lit "noreferrer noopener");
                      ("textContent", lit "YouTube")] [] None] None;
                desc] None]
            (Some item)).
Proof.
  intros H. split; [apply entry_run; exact H|]. split; [reflexivity|].
  intros Ht Hv Hl. unfold entry_of. rewrite Ht, Hv, Hl.
  eexists. eexists. eexists. reflexivity.
Qed.

Lemma entries_ok (items : list jsval) :
  Forall item_ok items -> entries items = (map entry_of items, Ok tt).
Proof.
  induction items as [|item more IH]; intros H; [reflexivity|].
  inversion H as [|? ? Hitem Hmore]; subst.
  simpl. rewrite (entry_run Hitem), (IH Hmore). reflexivity.
Qed.

Lemma entries_stop (good : list jsval) (bad : jsval) (more : list jsval) :
  Forall item_ok good ->
  bad = VNull \/ bad = VUndef ->
  entries (good ++ bad :: more)
  = (map entry_of good,
     Throw (TypeError "Cannot read properties of null or undefined")).
Proof.
  intros Hgood Hbad. induction good as [|item good IH].
  - simpl. destruct Hbad as [-> | ->]; reflexivity.
  - inversion Hgood as [|? ? Hitem Hrest]; subst.
    simpl. rewrite (entry_run Hitem), (IH Hrest). reflexivity.
Qed.

(** X14: a feed whose items are all items of the data model (objects
    whose members are text when present, with a date the constructor
    takes), at least one of them, and whose title and address are text
    when present, is rendered without throwing as one entry per item, in
    the order of the feed, each entry with a click listener on its own
    item; no placeholder is shown, and the title and subtitle are the
    feed's, or [Feed] and nothing.  (An item outside the data model can
    make the render throw.) *)
Theorem renderFeed_entries (feed : jsval) (items : list jsval) (st : Page) :
  get_opt feed (lit "items") = VArr items ->
  items <> [] ->
  Forall item_ok items ->
  optional_text (get_opt feed (lit "title")) ->
  optional_text (get_opt feed (lit "feedUrl")) ->
  renderFeed feed st
  = (Ok tt,
     set_results
       (mkResults (text_else (get_opt feed (lit "title")) (lit "Feed"))
                  (text_else (get_opt feed (lit "feedUrl")) [])
                  (map entry_of items)) st)
  /\ List.length (map entry_of items) = List.length items
  /\ map listener_of (map entry_of items) = map Some items.
Proof.
  intros Hi Hne Hok Ht Hs. split; [|split].
  - rewrite renderFeed_run. unfold title_of, sub_of, listing, items_of.
    rewrite !fallback_text by assumption. rewrite Hi.
    destruct items as [|item more]; [congruence|].
    rewrite (entries_ok Hok). reflexivity.
  - apply length_map.
  - rewrite map_map. apply map_ext. reflexivity.
Qed.

Lemma renderFeed_stops (feed : jsval) (good more : list jsval) (bad : jsval)
    (st : Page) :
  get_opt feed (lit "items") = VArr (good ++ bad :: more) ->
  bad = VNull \/ bad = VUndef ->
  Forall item_ok good ->
  optional_text (get_opt feed (lit "title")) ->
  optional_text (get_opt feed (lit "feedUrl")) ->
  renderFeed feed st
  = (Throw (TypeError "Cannot read properties of null or undefined"),
     set_results
       (mkResults (text_else (get_opt feed (lit "title")) (lit "Feed"))
                  (text_else (get_opt feed (lit "feedUrl")) [])
                  (map entry_of good)) st).
Proof.
  intros Hi Hbad Hok Ht Hs.
  rewrite renderFeed_run. unfold title_of, sub_of, listing, items_of.
  rewrite !fallback_text by assumption. rewrite Hi.
  destruct (good ++ bad :: more) as [|x l] eqn:E; [destruct good; discriminate|].
  rewrite <- E, (entries_stop more Hok Hbad). reflexivity.
Qed.

(** X15: an item that is [null] (or [undefined]) stops the render where
    it stands: [renderFeed] throws a TypeError, the entries of the items
    before it are in the list, and none of the items after it is shown. *)
Theorem renderFeed_null_item (feed : jsval) (good more : list jsval) (bad : jsval)
    (st : Page) :
  get_opt feed (lit "items") = VArr (good ++ bad :: more) ->
  bad = VNull \/ bad = VUndef ->
  Forall item_ok good ->
  optional_text (get_opt feed (lit "title")) ->
  optional_text (get_opt feed (lit "feedUrl")) ->
  exists e st',
    renderFeed feed st = (Throw e, st')
    /\ e = TypeError "Cannot read properties of null or undefined"
    /\ map listener_of (resultsList (results st')) = map Some good
    /\ List.length (resultsList (results st')) = List.length good.
Proof.
  intros Hi Hbad Hok Ht Hs. eexists. eexists.
  split; [apply (@renderFeed_stops feed good more bad st Hi Hbad Hok Ht Hs)|].
  split; [reflexivity|]. simpl. split.
  - rewrite map_map. apply map_ext. reflexivity.
  - apply length_map.
Qed.

End Entries.

(** ** Feed loading: every way it can end *)

Section FeedLoading.

Context {P : Platform}.

Lemma renderFeed_empty_feed (st : Page) :
  renderFeed empty_feed st
  = (Ok tt, set_results (mkResults (lit "Feed") [] [placeholder]) st).
Proof.
  rewrite renderFeed_no_items; [reflexivity|reflexivity|exact I|exact I].
Qed.

(** [loadFeed] once the request address is built: the request, the page
    it is issued in, and the continuation on any outcome. *)
Lemma loadFeed_resume (feed_params : list (jsstring * jsstring)) (st : Page) (url : URL) :
  URL_resolve (lit "/api/feed") (origin (location st)) = Some url ->
  exists resume,
    loadFeed feed_params st
    = Pending
        (URL_toString
           (with_params url
              (fold_left (fun ps kv => SearchParams.js_set (fst kv) (snd kv) ps)
                         feed_params (searchParams url))))
        (set_status (mkStatus loading_text false) st) resume
    /\ forall o st',
        resume o st' =
        match settle o with
        | Throw e => Done (Ok tt) (feed_failed e st')
        | Ok data =>
            match renderFeed data st' with
            | (Ok _, st'') => Done (Ok tt) (set_status (mkStatus [] false) st'')
            | (Throw e, st'') => Done (Ok tt) (feed_failed e st'')
            end
        end.
Proof.
  intros H. unfold loadFeed, feed_request, setStatus. run.
  change (origin (location (set_status (mkStatus loading_text false) st)))
    with (origin (location st)).
  rewrite H. cbn [step_bind step_catch].
  eexists. split; [reflexivity|].
  intros o st'. cbv beta.
  destruct (settle o) as [data|e]; cbn [step_bind step_catch].
  - destruct (renderFeed data st') as [[[]|e] st'']; cbn [step_bind step_catch].
    + reflexivity.
    + rewrite renderFeed_empty_feed. reflexivity.
  - rewrite renderFeed_empty_feed. reflexivity.
Qed.

(** X16: a feed load never fails and asks the network once: whatever
    comes back, the load completes normally without a second request,
    and its completion writes the status line and the results region
    only: player, metadata panel, address and input fields stay as they
    are when the answer arrives. *)
Theorem loadFeed_always_completes (feed_params : list (jsstring * jsstring))
    (st : Page) (url : URL) :
  URL_resolve (lit "/api/feed") (origin (location st)) = Some url ->
  exists request resume,
    loadFeed feed_params st
    = Pending request (set_status (mkStatus loading_text false) st) resume
    /\ forall o st2,
        exists s r, resume o st2 = Done (Ok tt) (set_results r (set_status s st2)).
Proof.
  intros H. destruct (loadFeed_resume feed_params st H) as [resume [Hrun Hres]].
  eexists. exists resume. split; [exact Hrun|].
  intros o st2. rewrite Hres. destruct (settle o) as [data|e].
  - destruct (renderFeed_region data st2) as [r [l Hr]]. rewrite Hr.
    destruct r as [[]|e]; eexists; eexists; reflexivity.
  - eexists; eexists; reflexivity.
Qed.

(** X17: a feed load that succeeds renders what it fetched and clears
    the status line: when the exchange gives a payload and rendering it
    completes, the results region is the rendered payload and the status
    is empty and not an error, in the page as it is when the answer
    arrives (so the [Loading feed...] text is gone). *)
Theorem loadFeed_success (feed_params : list (jsstring * jsstring))
    (st : Page) (url : URL) (o : outcome) (data : jsval) :
  URL_resolve (lit "/api/feed") (origin (location st)) = Some url ->
  settle o = Ok data ->
  exists request resume,
    loadFeed feed_params st
    = Pending request (set_status (mkStatus loading_text false) st) resume
    /\ forall st2 st3,
        renderFeed data st2 = (Ok tt, st3) ->
        resume o st2 = Done (Ok tt) (set_status (mkStatus [] false) st3)
        /\ results (set_status (mkStatus [] false) st3) = results st3.
Proof.
  intros H Ho. destruct (loadFeed_resume feed_params st H) as [resume [Hrun Hres]].
  eexists. exists resume. split; [exact Hrun|].
  intros st2 st3 Hr. rewrite Hres, Ho, Hr. split; reflexivity.
Qed.

(** X18: a payload that cannot be rendered is treated as a failed load:
    when rendering the fetched payload throws (an item that is [null],
    say), the catch block shows the thrown error's message as an error
    status and replaces whatever was rendered so far by the empty feed
    titled [Feed]. *)
Theorem loadFeed_render_failure (feed_params : list (jsstring * jsstring))
    (st : Page) (url : URL) (o : outcome) (data : jsval) :
  URL_resolve (lit "/api/feed") (origin (location st)) = Some url ->
  settle o = Ok data ->
  exists request resume,
    loadFeed feed_params st
    = Pending request (set_status (mkStatus loading_text false) st) resume
    /\ (forall st2 st3 e,
          renderFeed data st2 = (Throw e, st3) ->
          exists st4,
            resume o st2 = Done (Ok tt) st4
            /\ status st4 = mkStatus (failure_text e) true
            /\ results st4 = mkResults (lit "Feed") [] [placeholder])
    /\ (forall good bad more st2,
          get_opt data (lit "items") = VArr (good ++ bad :: more) ->
          bad = VNull \/ bad = VUndef ->
          Forall item_ok good ->
          optional_text (get_opt data (lit "title")) ->
          optional_text (get_opt data (lit "feedUrl")) ->
          exists st4,
            resume o st2 = Done (Ok tt) st4
            /\ status_error (status st4) = true
            /\ results st4 = mkResults (lit "Feed") [] [placeholder]).
Proof.
  intros H Ho. destruct (loadFeed_resume feed_params st H) as [resume [Hrun Hres]].
  eexists. exists resume. split; [exact Hrun|]. split.
  - intros st2 st3 e Hr. rewrite Hres, Ho, Hr. eexists. repeat split.
  - intros good bad more st2 Hi Hbad Hgood Ht Hs.
    rewrite Hres, Ho, (@renderFeed_stops P data good more bad st2 Hi Hbad Hgood Ht Hs).
    eexists. repeat split.
Qed.

(** X19: a feed answered with a successful status and a body that is
    not JSON shows no error at all: the synthesized payload is rendered
    as a feed without title or items, so the results region shows [Feed]
    and the placeholder entry, and the status line is cleared. *)
Theorem loadFeed_unparsable_body (feed_params : list (jsstring * jsstring))
    (st : Page) (url : URL) (status : N) (text : jsstring) :
  URL_resolve (lit "/api/feed") (origin (location st)) = Some url ->
  (200 <= status <= 299)%N ->
  JSON_parse text = None ->
  exists request resume,
    loadFeed feed_params st
    = Pending request (set_status (mkStatus loading_text false) st) resume
    /\ forall st2,
        resume (Responded status text) st2
        = Done (Ok tt)
            (set_status (mkStatus [] false)
               (set_results (mkResults (lit "Feed") [] [placeholder]) st2)).
Proof.
  intros H Hok Hn. apply ok_spec in Hok.
  destruct (loadFeed_resume feed_params st H) as [resume [Hrun Hres]].
  eexists. exists resume. split; [exact Hrun|].
  intros st2. rewrite Hres. unfold settle, payload. rewrite Hok, Hn. cbn [negb].
  rewrite renderFeed_no_items; [reflexivity|reflexivity|exact I|exact I].
Qed.

(** X20: when the request address cannot be built (the page has no
    origin to resolve [/api/feed] against), no request is issued: the
    load completes at once with the constructor's message as an error
    status and the empty feed titled [Feed]. *)
Theorem loadFeed_without_origin (feed_params : list (jsstring * jsstring)) (st : Page) :
  URL_resolve (lit "/api/feed") (origin (location st)) = None ->
  loadFeed feed_params st
  = Done (Ok tt) (feed_failed (TypeError "Invalid URL") st)
  /\ status_error (status (feed_failed (TypeError "Invalid URL") st)) = true
  /\ results (feed_failed (TypeError "Invalid URL") st)
     = mkResults (lit "Feed") [] [placeholder].
Proof.
  intros H. split; [|split; reflexivity].
  unfold loadFeed, feed_request, setStatus. run.
  change (origin (location (set_status (mkStatus loading_text false) st)))
    with (origin (location st)).
  rewrite H. cbn [step_bind step_catch].
  rewrite renderFeed_empty_feed. reflexivity.
Qed.

End FeedLoading.

(** ** Buttons *)

Lemma id_char_not_surrogate (c : N) :
  Str.id_char c = true -> Str.high_surrogate c = false /\ Str.low_surrogate c = false.
Proof. intros H. split; chars. Qed.

(** The scalar-value conversion leaves a text of alphabet characters as
    it is. *)
Lemma usv_id_chars (s : jsstring) :
  forallb Str.id_char s = true -> Str.usv s = s.
Proof.
  induction s as [|c s IH]; simpl; [reflexivity|].
  rewrite andb_true_iff. intros [Hc Hs].
  destruct (id_char_not_surrogate _ Hc) as [-> ->]. rewrite (IH Hs). reflexivity.
Qed.

Section Buttons.

Context {P : Platform}.

Lemma setQuery_choice (kind other : string) (id : jsstring) (st : Page) :
  id <> [] ->
  setQuery [(lit kind, VStr id); (lit other, VNull)] st = (Ok tt, chosen kind other id st).
Proof.
  intros H. apply setQuery_run. destruct id; [congruence|reflexivity].
Qed.

Lemma channelBtn_click_run (id : jsstring) (st : Page) :
  extractChannelId (VStr (channelInput (inputs st))) = Ok (Some id) ->
  channelBtn_click st
  = loadFeed [(lit "channel_id", id)] (chosen "channel" "playlist" id st).
Proof.
  intros H. unfold channelBtn_click. run. rewrite H. cbn [step_bind].
  assert (Hne : id <> []).
  { destruct (extractChannelId_result _ H) as [t [-> _]]. discriminate. }
  unfold found. destruct id as [|c id'] eqn:E; [congruence|].
  cbn [Str.nonempty]. rewrite <- E in *. run.
  rewrite (setQuery_choice "channel" "playlist" st Hne). reflexivity.
Qed.

Lemma playlistBtn_click_run (id : jsstring) (st : Page) :
  extractPlaylistId (VStr (playlistInput (inputs st))) = Ok (Some id) ->
  playlistBtn_click st
  = loadFeed [(lit "playlist_id", id)] (chosen "playlist" "channel" id st).
Proof.
  intros H. unfold playlistBtn_click. run. rewrite H. cbn [step_bind].
  assert (Hne : id <> []).
  { destruct (extractPlaylistId_result _ H) as [t [-> _]]. discriminate. }
  unfold found. destruct id as [|c id'] eqn:E; [congruence|].
  cbn [Str.nonempty]. rewrite <- E in *. run.
  rewrite (setQuery_choice "playlist" "channel" st Hne). reflexivity.
Qed.

(** What the address holds once a feed has been chosen. *)
Lemma chosen_address (kind other : string) (id : jsstring) (st : Page) :
  Str.usv (lit kind) <> Str.usv (lit other) ->
  SearchParams.js_get (lit kind) (address (chosen kind other id st)) = Some (Str.usv id)
  /\ SearchParams.js_get (lit other) (address (chosen kind other id st)) = None
  /\ forall name,
       Str.usv name <> Str.usv (lit kind) -> Str.usv name <> Str.usv (lit other) ->
       pairs_named (Str.usv name) (address (chosen kind other id st))
       = pairs_named (Str.usv name) (address st).
Proof.
  intros Hko. unfold chosen, address. simpl searchParams.
  unfold SearchParams.js_get, SearchParams.js_delete, SearchParams.js_set.
  split; [|split].
  - rewrite get_remove_other by exact Hko. apply get_put_same.
  - apply get_remove_same.
  - intros name Hk Ho.
    rewrite pairs_remove_other by exact Ho. apply pairs_put_other. exact Hk.
Qed.

(** X21: a click on the channel button with an input that holds a
    channel id selects that channel: before the one feed request is
    issued (for [channel_id=<id>]) the address has [channel] set to the
    id and no [playlist] parameter, every other parameter (so [v]) keeps
    its pairs, and the status reads [Loading feed...]; the address then
    gives the same id back to the extractor, as on the next load. *)
Theorem channelBtn_click_selects (id : jsstring) (st : Page) (url : URL) :
  extractChannelId (VStr (channelInput (inputs st))) = Ok (Some id) ->
  URL_resolve (lit "/api/feed") (origin (location st)) = Some url ->
  exists st1 resume,
    channelBtn_click st
    = Pending
        (URL_toString
           (with_params url
              (SearchParams.js_set (lit "channel_id") id (searchParams url))))
        st1 resume
    /\ SearchParams.js_get (lit "channel") (address st1) = Some id
    /\ SearchParams.js_get (lit "playlist") (address st1) = None
    /\ (forall name,
          Str.usv name <> lit "channel" -> Str.usv name <> lit "playlist" ->
          pairs_named (Str.usv name) (address st1) = pairs_named (Str.usv name) (address st))
    /\ status st1 = mkStatus loading_text false
    /\ extractChannelId (param_value "channel" (location st1)) = Ok (Some id)
    /\ player st1 = player st /\ meta st1 = meta st /\ results st1 = results st.
Proof.
  intros H Hu. pose proof (extractChannelId_result _ H) as Hid.
  rewrite (channelBtn_click_run st H).
  destruct (@loadFeed_resume P [(lit "channel_id", id)]
              (chosen "channel" "playlist" id st) url Hu) as [resume [Hrun _]].
  eexists. exists resume. split; [exact Hrun|].
  destruct (@chosen_address "channel" "playlist" id st) as [Hc [Hp Hframe]];
    [vm_compute; discriminate|].
  rewrite (usv_id_chars _ (ChannelId_chars Hid)) in Hc.
  split; [exact Hc|]. split; [exact Hp|]. split; [exact Hframe|].
  split; [reflexivity|]. split; [|repeat split].
  unfold param_value.
  change (searchParams (location (set_status (mkStatus loading_text false)
                                    (chosen "channel" "playlist" id st))))
    with (address (chosen "channel" "playlist" id st)).
  rewrite Hc. apply extractChannelId_own. exact Hid.
Qed.

(** X22: a click on the playlist button with an input that holds a
    playlist id selects that playlist: before the one feed request is
    issued (for [playlist_id=<id>]) the address has [playlist] set to
    the id and no [channel] parameter, every other parameter keeps its
    pairs, and the status reads [Loading feed...]; the address then gives
    the same id back to the extractor. *)
Theorem playlistBtn_click_selects (id : jsstring) (st : Page) (url : URL) :
  extractPlaylistId (VStr (playlistInput (inputs st))) = Ok (Some id) ->
  URL_resolve (lit "/api/feed") (origin (location st)) = Some url ->
  exists st1 resume,
    playlistBtn_click st
    = Pending
        (URL_toString
           (with_params url
              (SearchParams.js_set (lit "playlist_id") id (searchParams url))))
        st1 resume
    /\ SearchParams.js_get (lit "playlist") (address st1) = Some id
    /\ SearchParams.js_get (lit "channel") (address st1) = None
    /\ (forall name,
          Str.usv name <> lit "playlist" -> Str.usv name <> lit "channel" ->
          pairs_named (Str.usv name) (address st1) = pairs_named (Str.usv name) (address st))
    /\ status st1 = mkStatus loading_text false
    /\ extractPlaylistId (param_value "playlist" (location st1)) = Ok (Some id)
    /\ player st1 = player st /\ meta st1 = meta st /\ results st1 = results st.
Proof.
  intros H Hu. pose proof (extractPlaylistId_result _ H) as Hid.
  rewrite (playlistBtn_click_run st H).
  destruct (@loadFeed_resume P [(lit "playlist_id", id)]
              (chosen "playlist" "channel" id st) url Hu) as [resume [Hrun _]].
  eexists. exists resume. split; [exact Hrun|].
  destruct (@chosen_address "playlist" "channel" id st) as [Hc [Hp Hframe]];
    [vm_compute; discriminate|].
  rewrite (usv_id_chars _ (PlaylistId_chars Hid)) in Hc.
  split; [exact Hc|]. split; [exact Hp|]. split; [exact Hframe|].
  split; [reflexivity|]. split; [|repeat split].
  unfold param_value.
  change (searchParams (location (set_status (mkStatus loading_text false)
                                    (chosen "playlist" "channel" id st))))
    with (address (chosen "playlist" "channel" id st)).
  rewrite Hc. apply extractPlaylistId_own. exact Hid.
Qed.

(** X23: a click with an input that yields no id does nothing but
    report it: whenever the button's extractor returns "no match" for
    the text of its input, the handler completes at once, no request is
    issued, and only the status line changes, to the button's own
    message marked as an error.  That is so for the play button with a
    text that is neither a video id nor a URL, and with a URL of a host
    that (less a leading [www.]) is neither [youtu.be] nor ends with
    [youtube.com]; and for the channel and playlist buttons with a text
    that holds no id of the kind. *)
Theorem clicks_without_id {L : PlatformLaws P} (st : Page) :
  (extractVideoId (VStr (videoInput (inputs st))) = Ok None ->
   playBtn_click st = Done (Ok tt) (set_status (mkStatus no_video_text true) st))
  /\ (extractChannelId (VStr (channelInput (inputs st))) = Ok None ->
      channelBtn_click st = Done (Ok tt) (set_status (mkStatus no_channel_text true) st))
  /\ (extractPlaylistId (VStr (playlistInput (inputs st))) = Ok None ->
      playlistBtn_click st
      = Done (Ok tt) (set_status (mkStatus no_playlist_text true) st))
  /\ (~ VideoId (Str.trim (videoInput (inputs st))) ->
      URL_parse (Str.trim (videoInput (inputs st))) = None ->
      playBtn_click st = Done (Ok tt) (set_status (mkStatus no_video_text true) st))
  /\ (forall url host,
        URL_parse (Str.trim (videoInput (inputs st))) = Some url ->
        bare_host (hostname url) host ->
        host <> lit "youtu.be" ->
        ~ (exists pre, host = pre ++ lit "youtube.com") ->
        playBtn_click st = Done (Ok tt) (set_status (mkStatus no_video_text true) st))
  /\ ((forall id, occurs id (Str.trim (channelInput (inputs st))) -> ~ ChannelId id) ->
      channelBtn_click st = Done (Ok tt) (set_status (mkStatus no_channel_text true) st))
  /\ ((forall id, occurs id (Str.trim (playlistInput (inputs st))) -> ~ PlaylistId id) ->
      playlistBtn_click st
      = Done (Ok tt) (set_status (mkStatus no_playlist_text true) st)).
Proof.
  assert (Hplay : extractVideoId (VStr (videoInput (inputs st))) = Ok None ->
                  playBtn_click st
                  = Done (Ok tt) (set_status (mkStatus no_video_text true) st)).
  { intros H. unfold playBtn_click. run. rewrite H. reflexivity. }
  assert (Hchannel : extractChannelId (VStr (channelInput (inputs st))) = Ok None ->
                     channelBtn_click st
                     = Done (Ok tt) (set_status (mkStatus no_channel_text true) st)).
  { intros H. unfold channelBtn_click. run. rewrite H. reflexivity. }
  assert (Hplaylist : extractPlaylistId (VStr (playlistInput (inputs st))) = Ok None ->
                      playlistBtn_click st
                      = Done (Ok tt) (set_status (mkStatus no_playlist_text true) st)).
  { intros H. unfold playlistBtn_click. run. rewrite H. reflexivity. }
  split; [exact Hplay|]. split; [exact Hchannel|]. split; [exact Hplaylist|].
  split; [|split; [|split]].
  - intros Hn Hu. apply Hplay.
    unfold extractVideoId. rewrite trimmed_text.
    destruct (negb _); [reflexivity|].
    destruct (video_id_pattern _) eqn:E; [apply pattern_VideoId in E; contradiction|].
    rewrite Hu. reflexivity.
  - intros url host Hu Hh Hy He. apply Hplay.
    rewrite (extractVideoId_of_url _ Hu). f_equal.
    apply bare_host_strip in Hh. unfold from_url. rewrite Hh.
    apply eqb_neq in Hy. rewrite Hy.
    destruct (Str.endsWith host (lit "youtube.com")) eqn:E; [|reflexivity].
    apply endsWith_suffix in E. contradiction.
  - intros Hno. apply Hchannel.
    unfold extractChannelId. rewrite trimmed_text.
    destruct (negb _); [reflexivity|].
    rewrite (proj2 (search_none _ _)); [reflexivity|].
    intros a b Hs. destruct (channel_at b) as [id|] eqn:E; [|reflexivity].
    destruct (channel_at_sound _ E) as [Hid [more ->]].
    destruct (Hno id); [|exact Hid]. exists a, more. exact Hs.
  - intros Hno. apply Hplaylist.
    unfold extractPlaylistId. rewrite trimmed_text.
    destruct (negb _); [reflexivity|].
    rewrite (proj2 (search_none _ _)); [reflexivity|].
    intros a b Hs. destruct (playlist_at b) as [id|] eqn:E; [|reflexivity].
    destruct (playlist_at_sound _ E) as [Hid [more ->]].
    destruct (Hno id); [|exact Hid]. exists a, more. exact Hs.
Qed.

End Buttons.

(** ** Initial load *)

Section InitialLoad.

Context {P : Platform}.

Lemma initFromQuery_blocks (st : Page) :
  initFromQuery st
  = step_bind (init_video (location st) st) (fun _ => init_feed (location st)).
Proof. reflexivity. Qed.

Lemma no_param_falsy (name : string) (st : Page) :
  no_param name st -> truthy (param_value name (location st)) = false.
Proof.
  unfold no_param, param_value, address. intros [-> | ->]; reflexivity.
Qed.

Lemma param_text (name : string) (text : jsstring) (st : Page) :
  SearchParams.js_get (lit name) (address st) = Some text ->
  param_value name (location st) = VStr text.
Proof. unfold param_value, address. intros ->. reflexivity. Qed.

Lemma init_feed_none (st st0 : Page) :
  no_param "channel" st -> no_param "playlist" st ->
  init_feed (location st) st0 = Done (Ok tt) st0.
Proof.
  intros Hc Hp. unfold init_feed.
  rewrite (@no_param_falsy _ _ Hc), (@no_param_falsy _ _ Hp). reflexivity.
Qed.

Lemma strip_newlines_plain (text : jsstring) :
  ~ In 10%N text -> ~ In 13%N text -> strip_newlines text = text.
Proof.
  unfold strip_newlines. induction text as [|c text IH]; intros Hlf Hcr; [reflexivity|].
  simpl. destruct (N.eqb c 10) eqn:E1.
  { apply N.eqb_eq in E1. destruct Hlf. left. exact E1. }
  destruct (N.eqb c 13) eqn:E2.
  { apply N.eqb_eq in E2. destruct Hcr. left. exact E2. }
  simpl. rewrite IH; [reflexivity| |]; intros H; [apply Hlf|apply Hcr]; right; exact H.
Qed.

Lemma init_feed_channel_text (c : jsstring) (st st0 : Page) :
  SearchParams.js_get (lit "channel") (address st) = Some c ->
  c <> [] ->
  init_feed (location st) st0
  = match extractChannelId (VStr c) with
    | Ok (Some id) =>
        if Str.nonempty id
        then loadFeed [(lit "channel_id", id)] (with_channelInput (strip_newlines c) st0)
        else Done (Ok tt) (with_channelInput (strip_newlines c) st0)
    | Ok None => Done (Ok tt) (with_channelInput (strip_newlines c) st0)
    | Throw e => Done (Throw e) (with_channelInput (strip_newlines c) st0)
    end.
Proof.
  intros Hc Hne. unfold init_feed. rewrite (@param_text _ _ _ Hc).
  destruct c as [|x c'] eqn:E; [congruence|]. cbn [truthy Str.nonempty]. rewrite <- E in *.
  unfold set_value. run. cbn [to_string].
  destruct (extractChannelId (VStr c)) as [[id|]|e]; cbn [step_bind]; try reflexivity.
  unfold found. destruct (Str.nonempty id); reflexivity.
Qed.

Lemma init_feed_playlist_text (p : jsstring) (st st0 : Page) :
  no_param "channel" st ->
  SearchParams.js_get (lit "playlist") (address st) = Some p ->
  p <> [] ->
  init_feed (location st) st0
  = match extractPlaylistId (VStr p) with
    | Ok (Some id) =>
        if Str.nonempty id
        then loadFeed [(lit "playlist_id", id)] (with_playlistInput (strip_newlines p) st0)
        else Done (Ok tt) (with_playlistInput (strip_newlines p) st0)
    | Ok None => Done (Ok tt) (with_playlistInput (strip_newlines p) st0)
    | Throw e => Done (Throw e) (with_playlistInput (strip_newlines p) st0)
    end.
Proof.
  intros Hc Hp Hne. unfold init_feed.
  rewrite (@no_param_falsy _ _ Hc), (@param_text _ _ _ Hp).
  destruct p as [|x p'] eqn:E; [congruence|]. cbn [truthy Str.nonempty]. rewrite <- E in *.
  unfold set_value. run. cbn [to_string].
  destruct (extractPlaylistId (VStr p)) as [[id|]|e]; cbn [step_bind]; try reflexivity.
  unfold found. destruct (Str.nonempty id); reflexivity.
Qed.

Lemma init_feed_channel (c id : jsstring) (st st0 : Page) :
  SearchParams.js_get (lit "channel") (address st) = Some c ->
  extractChannelId (VStr c) = Ok (Some id) ->
  init_feed (location st) st0
  = loadFeed [(lit "channel_id", id)] (with_channelInput (strip_newlines c) st0).
Proof.
  intros Hc He.
  assert (Hne : c <> []) by (intros ->; vm_compute in He; discriminate).
  rewrite (@init_feed_channel_text c st st0 Hc Hne), He.
  destruct (extractChannelId_result _ He) as [t [-> _]]. reflexivity.
Qed.

Lemma init_feed_playlist (p id : jsstring) (st st0 : Page) :
  no_param "channel" st ->
  SearchParams.js_get (lit "playlist") (address st) = Some p ->
  extractPlaylistId (VStr p) = Ok (Some id) ->
  init_feed (location st) st0
  = loadFeed [(lit "playlist_id", id)] (with_playlistInput (strip_newlines p) st0).
Proof.
  intros Hc Hp He.
  assert (Hne : p <> []) by (intros ->; vm_compute in He; discriminate).
  rewrite (@init_feed_playlist_text p st st0 Hc Hp Hne), He.
  destruct (extractPlaylistId_result _ He) as [t [-> _]]. reflexivity.
Qed.

Lemma init_video_none (st : Page) :
  no_param "v" st -> init_video (location st) st = Done (Ok tt) st.
Proof.
  intros Hv. unfold init_video. rewrite (@no_param_falsy _ _ Hv). reflexivity.
Qed.

Lemma init_video_text (text : jsstring) (st : Page) :
  SearchParams.js_get (lit "v") (address st) = Some text ->
  text <> [] ->
  init_video (location st) st
  = match extractVideoId (VStr text) with
    | Ok (Some id) =>
        if Str.nonempty id
        then playVideo (VStr id) false (with_videoInput (strip_newlines text) st)
        else Done (Ok tt) (with_videoInput (strip_newlines text) st)
    | Ok None => Done (Ok tt) (with_videoInput (strip_newlines text) st)
    | Throw e => Done (Throw e) (with_videoInput (strip_newlines text) st)
    end.
Proof.
  intros Hv Hne. unfold init_video. rewrite (@param_text _ _ _ Hv).
  destruct text as [|x t'] eqn:E; [congruence|]. cbn [truthy Str.nonempty]. rewrite <- E in *.
  unfold set_value. run. cbn [to_string].
  destruct (extractVideoId (VStr text)) as [[id|]|e]; cbn [step_bind]; try reflexivity.
  unfold found. destruct (Str.nonempty id); reflexivity.
Qed.

(** X24: on load without a [v] parameter.  With no [channel] and no
    [playlist] parameter nothing happens at all.  A non-empty [channel]
    parameter fills the channel input (a text input: it keeps the text
    without its line feeds and carriage returns, so a text free of them
    as it is) and decides alone: when it holds a channel id that
    channel's feed is loaded, and when it holds none nothing is loaded;
    a [playlist] parameter beside it is ignored either way and its input
    left alone.  A non-empty [playlist] parameter is used only when there
    is no [channel]: its input is filled, and its feed is loaded when it
    holds a playlist id, and nothing is loaded when it holds none. *)
Theorem initFromQuery_feed_choice (st : Page) :
  no_param "v" st ->
  (no_param "channel" st -> no_param "playlist" st ->
   initFromQuery st = Done (Ok tt) st)
  /\ (forall c,
        SearchParams.js_get (lit "channel") (address st) = Some c ->
        c <> [] ->
        (forall id,
            extractChannelId (VStr c) = Ok (Some id) ->
            initFromQuery st
            = loadFeed [(lit "channel_id", id)] (with_channelInput (strip_newlines c) st))
        /\ (extractChannelId (VStr c) = Ok None ->
            initFromQuery st = Done (Ok tt) (with_channelInput (strip_newlines c) st)))
  /\ (forall p,
        no_param "channel" st ->
        SearchParams.js_get (lit "playlist") (address st) = Some p ->
        p <> [] ->
        (forall id,
            extractPlaylistId (VStr p) = Ok (Some id) ->
            initFromQuery st
            = loadFeed [(lit "playlist_id", id)] (with_playlistInput (strip_newlines p) st))
        /\ (extractPlaylistId (VStr p) = Ok None ->
            initFromQuery st = Done (Ok tt) (with_playlistInput (strip_newlines p) st)))
  /\ (forall text,
        (~ In 10%N text -> ~ In 13%N text -> strip_newlines text = text)
        /\ ~ In 10%N (strip_newlines text) /\ ~ In 13%N (strip_newlines text)).
Proof.
  intros Hv. rewrite initFromQuery_blocks, (@init_video_none _ Hv). cbn [step_bind].
  split; [|split; [|split]].
  - intros Hc Hp. apply init_feed_none; assumption.
  - intros c Hc Hne. split.
    + intros id He. apply (@init_feed_channel _ _ _ _ Hc He).
    + intros He. rewrite (@init_feed_channel_text c st st Hc Hne), He. reflexivity.
  - intros p Hc Hp Hne. split.
    + intros id He. apply (@init_feed_playlist _ _ _ _ Hc Hp He).
    + intros He. rewrite (@init_feed_playlist_text p st st Hc Hp Hne), He. reflexivity.
  - intros text. split; [apply strip_newlines_plain|].
    unfold strip_newlines. split; intros H; apply filter_In in H; destruct H as [_ H];
      vm_compute in H; discriminate.
Qed.

(** X25: on load with a [v] parameter that yields a video id: the video
    input is filled with the parameter (less its line feeds and carriage
    returns, which a text input does not keep), the player is set, and
    the lookup is requested without touching the address ([v] is not
    pushed again); the feed part waits for that lookup: only when its
    outcome has arrived, whatever it is, is the channel feed requested
    (for a [channel] parameter that holds an id), in the page as the
    lookup left it; and with neither [channel] nor [playlist] the load
    ends there. *)
Theorem initFromQuery_video_first {L : PlatformLaws P}
    (text id : jsstring) (st : Page) :
  SearchParams.js_get (lit "v") (address st) = Some text ->
  extractVideoId (VStr text) = Ok (Some id) ->
  exists src st1 resume,
    initFromQuery st = Pending (lit "/api/oembed?v=" ++ id) st1 resume
    /\ location st1 = location st
    /\ videoInput (inputs st1) = strip_newlines text
    /\ channelInput (inputs st1) = channelInput (inputs st)
    /\ playlistInput (inputs st1) = playlistInput (inputs st)
    /\ player st1 = embedded src
    /\ status st1 = status st
    /\ (no_param "channel" st -> no_param "playlist" st ->
        forall o st2, exists m, resume o st2 = Done (Ok tt) (set_meta m st2))
    /\ (forall c cid,
          SearchParams.js_get (lit "channel") (address st) = Some c ->
          extractChannelId (VStr c) = Ok (Some cid) ->
          forall o st2,
            exists m,
              resume o st2
              = loadFeed [(lit "channel_id", cid)]
                  (with_channelInput (strip_newlines c) (set_meta m st2))).
Proof.
  intros Hv He.
  pose proof (extractVideoId_sound _ He) as Hid.
  pose proof (VideoId_nonempty Hid) as Hne.
  pose proof (encodeURIComponent_id _ (VideoId_chars Hid)) as Henc.
  assert (Htext : text <> []) by (intros ->; vm_compute in He; discriminate).
  destruct (URL_parse (embed_prefix ++ id)) as [src|] eqn:Hsrc;
    [|destruct (URL_parse_embed id Hsrc)].
  rewrite initFromQuery_blocks, (@init_video_text _ _ Hv Htext), He.
  destruct id as [|x id'] eqn:Eid; [congruence|]. cbn [Str.nonempty]. rewrite <- Eid in *.
  rewrite (playVideo_run false (with_videoInput (strip_newlines text) st) Hne Hsrc).
  destruct (@loadOEmbed_resume P id id
              (set_player (embedded src) (with_videoInput (strip_newlines text) st))
              Hne Henc)
    as [resume [Hrun Hres]].
  rewrite Hrun. cbn [step_bind].
  exists src. eexists. eexists. split; [reflexivity|].
  repeat (split; [reflexivity|]).
  assert (Hdone : forall o st2, exists m, resume o st2 = Done (Ok tt) (set_meta m st2)).
  { intros o st2. rewrite Hres. destruct (settle o) as [data|e].
    - destruct (renderMeta_region (spread [(lit "videoId", VStr id)] data) st2)
        as [r [m Hr]].
      rewrite Hr. destruct r as [[]|e]; eexists; reflexivity.
    - eexists; reflexivity. }
  split.
  - intros Hc Hp o st2. destruct (Hdone o st2) as [m Hm]. exists m.
    rewrite Hm. cbn [step_bind]. apply init_feed_none; assumption.
  - intros c cid Hc Hcid o st2. destruct (Hdone o st2) as [m Hm]. exists m.
    rewrite Hm. cbn [step_bind]. apply (@init_feed_channel _ _ _ _ Hc Hcid).
Qed.


End InitialLoad.

(** ** The address: applying an update twice *)

Lemma remove_fixed (n : jsstring) (ps : params) :
  pairs_named n ps = [] -> SearchParams.remove n ps = ps.
Proof.
  induction ps as [|[k v] ps IH]; simpl; [reflexivity|].
  destruct (Str.eqb k n); simpl; [discriminate|].
  intros H. rewrite (IH H). reflexivity.
Qed.

Lemma put_fixed (n v : jsstring) (ps : params) :
  pairs_named n ps = [(n, v)] -> SearchParams.put n v ps = ps.
Proof.
  induction ps as [|[k w] ps IH]; simpl; [discriminate|].
  destruct (Str.eqb k n) eqn:E; simpl.
  - intros H. injection H as -> -> H. rewrite (@remove_fixed _ _ H). reflexivity.
  - intros H. rewrite (IH H). reflexivity.
Qed.

Lemma pairs_remove_same (n : jsstring) (ps : params) :
  pairs_named n (SearchParams.remove n ps) = [].
Proof.
  induction ps as [|[k v] ps IH]; simpl; [reflexivity|].
  destruct (Str.eqb k n) eqn:E; simpl; [exact IH|].
  rewrite E. exact IH.
Qed.

Lemma pairs_put_same (n v : jsstring) (ps : params) :
  pairs_named n (SearchParams.put n v ps) = [(n, v)].
Proof.
  induction ps as [|[k w] ps IH]; simpl.
  - rewrite eqb_refl. reflexivity.
  - destruct (Str.eqb k n) eqn:E; simpl; rewrite E.
    + apply eqb_eq in E. subst k.
      change (filter (fun kv => Str.eqb (fst kv) n) (SearchParams.remove n ps))
        with (pairs_named n (SearchParams.remove n ps)).
      rewrite pairs_remove_same. reflexivity.
    + exact IH.
Qed.

Section AddressTwice.

Context {P : Platform}.

Lemma settled_fixed (updates : list (jsstring * jsval)) (ps : params) :
  Forall (fun kv => optional_text (snd kv)) updates ->
  Forall (fun kv => settled kv ps) updates ->
  apply_updates updates ps = Ok ps.
Proof.
  intros Hty. induction Hty as [|[k v] more Hv Hty IH]; intros Hs; [reflexivity|].
  inversion Hs as [|? ? Hk Hmore]; subst. unfold settled in Hk.
  cbn [fst snd] in Hk, Hv.
  destruct v as [| | | |[|c s]| | |]; try contradiction;
    cbn [apply_updates clears to_string bind Result_Monad].
  - unfold SearchParams.js_delete. rewrite (@remove_fixed _ _ Hk). exact (IH Hmore).
  - unfold SearchParams.js_delete. rewrite (@remove_fixed _ _ Hk). exact (IH Hmore).
  - unfold SearchParams.js_delete. rewrite (@remove_fixed _ _ Hk). exact (IH Hmore).
  - unfold SearchParams.js_set. rewrite (@put_fixed _ _ _ Hk). exact (IH Hmore).
Qed.

Lemma apply_updates_settles (updates : list (jsstring * jsval)) :
  NoDup (named updates) ->
  Forall (fun kv => optional_text (snd kv)) updates ->
  forall ps, exists ps',
    apply_updates updates ps = Ok ps'
    /\ Forall (fun kv => settled kv ps') updates.
Proof.
  intros Hnd Hty ps.
  destruct (apply_updates_spec Hnd Hty ps) as [ps' [Hrun [_ [_ [Hframe _]]]]].
  exists ps'. split; [exact Hrun|].
  clear Hframe. revert ps ps' Hrun.
  induction updates as [|[k v] more IH]; intros ps ps' Hrun; [constructor|].
  simpl in Hnd. inversion Hnd as [|? ? Hk Hnd']; subst.
  inversion Hty as [|? ? Hv Hty']; subst. simpl in Hv.
  simpl in Hrun.
  constructor.
  - unfold settled. simpl fst. simpl snd.
    destruct (clears v) eqn:Ec.
    + destruct (apply_updates_spec Hnd' Hty' (SearchParams.js_delete k ps))
        as [ps2 [Hrun2 [_ [_ [Hframe _]]]]].
      assert (ps2 = ps') by congruence. subst ps2.
      rewrite (Hframe _ Hk). unfold SearchParams.js_delete. rewrite pairs_remove_same.
      destruct v as [| | | |[|c s]| | |]; try reflexivity; discriminate.
    + destruct (clears_text _ Hv Ec) as [s [-> Hs]]. simpl in Hrun.
      destruct (apply_updates_spec Hnd' Hty' (SearchParams.js_set k s ps))
        as [ps2 [Hrun2 [_ [_ [Hframe _]]]]].
      assert (ps2 = ps') by congruence. subst ps2.
      rewrite (Hframe _ Hk). unfold SearchParams.js_set. rewrite pairs_put_same.
      destruct s as [|c s]; [congruence|reflexivity].
  - destruct (clears v) eqn:Ec.
    + exact (IH Hnd' Hty' _ _ Hrun).
    + destruct (clears_text _ Hv Ec) as [s [-> Hs]]. simpl in Hrun.
      exact (IH Hnd' Hty' _ _ Hrun).
Qed.

(** X29: applying an update mapping (distinct names, text or absent
    values) a second time changes nothing: the page after two calls of
    [setQuery] is the page after one, pair for pair and in the same
    order, so a repeated click does not grow or reorder the address. *)
Theorem setQuery_twice (updates : list (jsstring * jsval)) (st : Page) :
  NoDup (named updates) ->
  Forall (fun kv => optional_text (snd kv)) updates ->
  exists st',
    setQuery updates st = (Ok tt, st')
    /\ setQuery updates st' = (Ok tt, st').
Proof.
  intros Hnd Hty.
  destruct (apply_updates_settles Hnd Hty (searchParams (location st)))
    as [ps [Hrun Hs]].
  exists (set_location (with_params (location st) ps) st).
  split; [apply setQuery_run; exact Hrun|].
  rewrite (@setQuery_run _ updates (set_location (with_params (location st) ps) st) ps).
  - reflexivity.
  - apply settled_fixed; assumption.
Qed.

End AddressTwice.

(** ** Playing from the button and from an entry *)

Section Playing.

Context {P : Platform}.

Lemma permalink_v (id : jsstring) (u : URL) :
  forallb Str.id_char id = true ->
  param_value "v" (permalink id u) = VStr id.
Proof.
  intros Hid. unfold param_value, permalink. simpl searchParams.
  unfold SearchParams.js_get, SearchParams.js_set.
  rewrite get_put_same, (usv_id_chars _ Hid). reflexivity.
Qed.

Lemma permalink_others (id name : jsstring) (u : URL) :
  Str.usv name <> lit "v" ->
  pairs_named (Str.usv name) (searchParams (permalink id u))
  = pairs_named (Str.usv name) (searchParams u).
Proof.
  intros Hn. unfold permalink. simpl searchParams. unfold SearchParams.js_set.
  apply pairs_put_other. exact Hn.
Qed.

(** X27: a click on the play button with an input that yields a video
    id: the status line is cleared, the player shows the embed address,
    the address gets [v] set to the id while every other parameter keeps
    its pairs, and then the one request, the lookup for that id, is
    issued; the address so written gives the same id back to the
    extractor, as on the next load of the page. *)
Theorem playBtn_click_permalink {L : PlatformLaws P} (id : jsstring) (st : Page) :
  extractVideoId (VStr (videoInput (inputs st))) = Ok (Some id) ->
  exists src st1 resume,
    playBtn_click st = Pending (lit "/api/oembed?v=" ++ id) st1 resume
    /\ status st1 = mkStatus [] false
    /\ player st1 = embedded src
    /\ location st1 = permalink id (location st)
    /\ (forall name,
          Str.usv name <> lit "v" ->
          pairs_named (Str.usv name) (address st1) = pairs_named (Str.usv name) (address st))
    /\ inputs st1 = inputs st
    /\ results st1 = results st
    /\ extractVideoId (param_value "v" (location st1)) = Ok (Some id).
Proof.
  intros He.
  pose proof (extractVideoId_sound _ He) as Hid.
  pose proof (VideoId_nonempty Hid) as Hne.
  pose proof (encodeURIComponent_id _ (VideoId_chars Hid)) as Henc.
  destruct (URL_parse (embed_prefix ++ id)) as [src|] eqn:Hsrc;
    [|destruct (URL_parse_embed id Hsrc)].
  rewrite (@playBtn_click_plays _ id st He).
  rewrite (@playVideo_run _ id true src (set_status (mkStatus [] false) st) Hne Hsrc).
  match goal with
  | |- context [loadOEmbed (VStr id) ?s] =>
      destruct (@loadOEmbed_run _ id id s Hne Henc) as [resume [Hrun _]]
  end.
  rewrite Hrun. exists src. eexists. exists resume.
  split; [reflexivity|].
  repeat (split; [reflexivity|]).
  split; [|split; [reflexivity|split; [reflexivity|]]].
  - intros name Hn. apply permalink_others. exact Hn.
  - cbn [location set_location]. rewrite (@permalink_v id _ (VideoId_chars Hid)).
    apply extractVideoId_own. exact Hid.
Qed.

(** X28: a click on a results entry whose item has a non-empty
    [videoId] (any text without an unpaired surrogate; the extractor is
    not consulted) plays it: the player is set, [v] is pushed to the
    address and the lookup is requested, while the status line, the
    inputs and the results list stay as they are; the same click inside
    the entry's link does nothing, and so does any click on an entry
    whose item has no [videoId]. *)
Theorem entry_click_plays {L : PlatformLaws P}
    (fields : list (jsstring * jsval)) (id encoded : jsstring) (st : Page) :
  get_opt (VObj fields) (lit "videoId") = VStr id ->
  id <> [] ->
  Str.encodeURIComponent id = Some encoded ->
  (exists src st1 resume,
     entry_click (VObj fields) false st
     = Pending (lit "/api/oembed?v=" ++ encoded) st1 resume
     /\ player st1 = embedded src
     /\ location st1 = permalink id (location st)
     /\ status st1 = status st
     /\ inputs st1 = inputs st
     /\ results st1 = results st)
  /\ entry_click (VObj fields) true st = Done (Ok tt) st
  /\ (forall others on_link,
        truthy (get_opt (VObj others) (lit "videoId")) = false ->
        entry_click (VObj others) on_link st = Done (Ok tt) st).
Proof.
  intros Hv Hne Henc. split; [|split].
  - destruct (URL_parse (embed_prefix ++ id)) as [src|] eqn:Hsrc;
      [|destruct (URL_parse_embed id Hsrc)].
    unfold entry_click, get_prop. run. rewrite Hv.
    destruct id as [|c id'] eqn:E; [congruence|]. cbn [truthy Str.nonempty negb].
    rewrite <- E in *.
    rewrite (@playVideo_run _ id true src st Hne Hsrc).
    match goal with
    | |- context [loadOEmbed (VStr id) ?s] =>
        destruct (@loadOEmbed_run _ id encoded s Hne Henc) as [resume [Hrun _]]
    end.
    rewrite Hrun. exists src. eexists. exists resume.
    repeat (split; [reflexivity|]). reflexivity.
  - reflexivity.
  - intros others [|] Hf; [reflexivity|].
    unfold entry_click, get_prop. run. rewrite Hf. reflexivity.
Qed.

End Playing.

(** ** Runs on the small platform *)

Lemma extractVideoId_padded_witness :
  VideoId (lit "dQw4w9WgXcQ")
  /\ forallb Str.whitespace (lit "  ") = true
  /\ forallb Str.whitespace [9%N; 10%N; 160%N] = true
  /\ @extractVideoId Sample.platform
       (VStr (lit "  " ++ lit "dQw4w9WgXcQ" ++ [9%N; 10%N; 160%N]))
     = Ok (Some (lit "dQw4w9WgXcQ")).
Proof.
  split; [exact rick_is_VideoId|]. split; [reflexivity|]. split; [reflexivity|].
  apply (@extractVideoId_padded Sample.platform (lit "  ") (lit "dQw4w9WgXcQ")
           [9%N; 10%N; 160%N] rick_is_VideoId eq_refl eq_refl).
Defined.

Lemma renderMeta_without_id_witness :
  truthy (field "videoId" [(lit "title", VStr (lit "A title"))]) = false
  /\ optional_text (field "title" [(lit "title", VStr (lit "A title"))])
  /\ optional_text (field "author_name" [(lit "title", VStr (lit "A title"))])
  /\ @renderMeta Sample.platform [(lit "title", VStr (lit "A title"))] Sample.blank
     = (Ok tt, set_meta (mkMeta (lit "A title") [] []) Sample.blank).
Proof.
  split; [reflexivity|]. split; [exact I|]. split; [exact I|].
  exact (@renderMeta_without_id Sample.platform [(lit "title", VStr (lit "A title"))]
           Sample.blank eq_refl I I).
Defined.

Lemma loadOEmbed_success_witness :
  VideoId (lit "dQw4w9WgXcQ")
  /\ @settle Sample.platform (Responded 200 (Feeds.member (lit "title") (lit "Never")))
     = Ok (VObj [(lit "title", VStr (lit "Never"))])
  /\ exists resume st3,
       @loadOEmbed Sample.platform (VStr (lit "dQw4w9WgXcQ")) Sample.blank
       = Pending (lit "/api/oembed?v=dQw4w9WgXcQ") Sample.blank resume
       /\ resume (Responded 200 (Feeds.member (lit "title") (lit "Never"))) Sample.blank
          = Done (Ok tt) st3
       /\ metaTitle (meta st3) = lit "Never"
       /\ metaByline (meta st3) = [].
Proof.
  assert (Hs : @settle Sample.platform
                 (Responded 200 (Feeds.member (lit "title") (lit "Never")))
               = Ok (VObj [(lit "title", VStr (lit "Never"))]))
    by (vm_compute; reflexivity).
  assert (Hnd : NoDup (map fst [(lit "title", VStr (lit "Never"))]))
    by (constructor; [intros []|constructor]).
  split; [exact rick_is_VideoId|]. split; [exact Hs|].
  destruct (@loadOEmbed_success Sample.platform (lit "dQw4w9WgXcQ") Sample.blank _ _
              rick_is_VideoId Hs Hnd eq_refl I I)
    as [resume [Hrun Hres]].
  exists resume. eexists. split; [exact Hrun|]. split; [apply Hres|].
  split; reflexivity.
Defined.

Lemma loadOEmbed_payload_id_wins_witness :
  VideoId (lit "dQw4w9WgXcQ")
  /\ VideoId (lit "aaaaaaaaaaa")
  /\ @settle Sample.platform
       (Responded 200 (Feeds.member (lit "videoId") (lit "aaaaaaaaaaa")))
     = Ok (VObj [(lit "videoId", VStr (lit "aaaaaaaaaaa"))])
  /\ exists resume st3,
       @loadOEmbed Sample.platform (VStr (lit "dQw4w9WgXcQ")) Sample.blank
       = Pending (lit "/api/oembed?v=dQw4w9WgXcQ") Sample.blank resume
       /\ resume (Responded 200 (Feeds.member (lit "videoId") (lit "aaaaaaaaaaa")))
            Sample.blank
          = Done (Ok tt) st3
       /\ metaTitle (meta st3) = lit "Video: aaaaaaaaaaa".
Proof.
  assert (Ha : VideoId (lit "aaaaaaaaaaa"))
    by (apply pattern_VideoId; vm_compute; reflexivity).
  assert (Hs : @settle Sample.platform
                 (Responded 200 (Feeds.member (lit "videoId") (lit "aaaaaaaaaaa")))
               = Ok (VObj [(lit "videoId", VStr (lit "aaaaaaaaaaa"))]))
    by (vm_compute; reflexivity).
  assert (Hnd : NoDup (map fst [(lit "videoId", VStr (lit "aaaaaaaaaaa"))]))
    by (constructor; [intros []|constructor]).
  split; [exact rick_is_VideoId|]. split; [exact Ha|]. split; [exact Hs|].
  destruct (@loadOEmbed_payload_id_wins Sample.platform (lit "dQw4w9WgXcQ")
              (lit "aaaaaaaaaaa") Sample.blank _ _
              rick_is_VideoId Ha Hs Hnd eq_refl I I)
    as [resume [Hrun Hres]].
  exists resume. eexists. split; [exact Hrun|]. split; [apply Hres|].
  reflexivity.
Defined.

Lemma playVideo_always_completes_witness :
  VideoId (lit "dQw4w9WgXcQ")
  /\ exists st1 resume m,
       @playVideo Sample.platform (VStr (lit "dQw4w9WgXcQ")) false Sample.blank
       = Pending (lit "/api/oembed?v=dQw4w9WgXcQ") st1 resume
       /\ resume (Responded 200 (lit "null")) st1 = Done (Ok tt) (set_meta m st1).
Proof.
  split; [exact rick_is_VideoId|].
  destruct (@playVideo_always_completes Sample.platform sample_laws
              (lit "dQw4w9WgXcQ") false Sample.blank rick_is_VideoId)
    as [st1 [resume [Hrun Hres]]].
  destruct (Hres (Responded 200 (lit "null")) st1) as [m Hm].
  exists st1, resume, m. split; [exact Hrun|exact Hm].
Defined.

Lemma loadOEmbed_unparsable_body_witness :
  VideoId (lit "dQw4w9WgXcQ")
  /\ (200 <= 200 <= 299)%N
  /\ @JSON_parse Sample.platform (lit "<html>") = None
  /\ exists resume st3,
       @loadOEmbed Sample.platform (VStr (lit "dQw4w9WgXcQ")) Sample.blank
       = Pending (lit "/api/oembed?v=dQw4w9WgXcQ") Sample.blank resume
       /\ resume (Responded 200 (lit "<html>")) Sample.blank = Done (Ok tt) st3
       /\ metaTitle (meta st3) = lit "Video: dQw4w9WgXcQ".
Proof.
  assert (Hs : (200 <= 200 <= 299)%N) by lia.
  split; [exact rick_is_VideoId|]. split; [exact Hs|]. split; [reflexivity|].
  destruct (@loadOEmbed_unparsable_body Sample.platform (lit "dQw4w9WgXcQ")
              Sample.blank 200%N (lit "<html>") rick_is_VideoId Hs eq_refl)
    as [resume [Hrun Hres]].
  exists resume. eexists. split; [exact Hrun|]. split; [apply Hres|].
  reflexivity.
Defined.

Lemma bare_item_ok : @item_ok Sample.platform Feeds.bare_item.
Proof.
  split; [eexists; reflexivity|].
  repeat (split; [exact I|]). discriminate.
Qed.

Lemma odd_item_ok : @item_ok Sample.platform Feeds.odd_item.
Proof.
  split; [eexists; reflexivity|].
  repeat (split; [exact I|]). discriminate.
Qed.

Lemma entry_of_item_witness :
  @item_ok Sample.platform Feeds.bare_item
  /\ @entry Sample.platform Feeds.bare_item
     = Ok (@entry_of Sample.platform Feeds.bare_item)
  /\ (@item_ok Sample.platform Feeds.odd_item
      /\ exists title date desc,
           @entry Sample.platform Feeds.odd_item
           = Ok (Element "li" [("className", lit "item")]
                   [Element "div" [("className", lit "thumb")]
                      [Element "img"
                         [("loading", lit "lazy"); ("alt", []);
                          ("src", lit "https://example.com/t" ++ [65533%N])] [] None]
                      None;
                    Element "div" []
                      [title;
                       Element "div" [("className", lit "itemMeta")]
                         [date;
                          Element "a"
                            [("href", lit "https://example.com/" ++ [65533%N]);
                             ("target", lit "_blank"); ("rel", lit "noreferrer noopener");
                             ("textContent", lit "YouTube")] [] None] None;
                       desc] None]
                   (Some Feeds.odd_item)))
  /\ exists thumb date desc,
       @entry_of Sample.platform Feeds.bare_item
       = Element "li" [("className", lit "item")]
           [thumb;
            Element "div" []
              [Element "p" [("className", lit "itemTitle");
                            ("textContent", lit "Untitled")] [] None;
               Element "div" [("className", lit "itemMeta")]
                 [date;
                  Element "a"
                    [("href", lit "https://www.youtube.com/watch?v=undefined");
                     ("target", lit "_blank"); ("rel", lit "noreferrer noopener");
                     ("textContent", lit "YouTube")] [] None] None;
               desc] None]
           (Some Feeds.bare_item).
Proof.
  split; [exact bare_item_ok|].
  destruct (@entry_of_item Sample.platform Feeds.bare_item bare_item_ok)
    as [Hrun [_ Hshape]].
  split; [exact Hrun|].
  split.
  - split; [exact odd_item_ok|].
    destruct (@entry_of_item Sample.platform Feeds.odd_item odd_item_ok) as [Hodd _].
    rewrite Hodd. eexists. eexists. eexists. reflexivity.
  - apply Hshape; reflexivity.
Defined.

Lemma renderFeed_entries_witness :
  get_opt (VObj [(lit "items", VArr [Feeds.bare_item])]) (lit "items")
  = VArr [Feeds.bare_item]
  /\ [Feeds.bare_item] <> []
  /\ Forall (@item_ok Sample.platform) [Feeds.bare_item]
  /\ @renderFeed Sample.platform (VObj [(lit "items", VArr [Feeds.bare_item])])
       Sample.blank
     = (Ok tt,
        set_results
          (mkResults (lit "Feed") [] [@entry_of Sample.platform Feeds.bare_item])
          Sample.blank).
Proof.
  assert (Hne : [Feeds.bare_item] <> []) by discriminate.
  assert (Hok : Forall (@item_ok Sample.platform) [Feeds.bare_item])
    by (constructor; [exact bare_item_ok|constructor]).
  split; [reflexivity|]. split; [exact Hne|]. split; [exact Hok|].
  exact (proj1 (@renderFeed_entries Sample.platform
                  (VObj [(lit "items", VArr [Feeds.bare_item])]) [Feeds.bare_item]
                  Sample.blank eq_refl Hne Hok I I)).
Defined.

Lemma renderFeed_null_item_witness :
  get_opt (VObj [(lit "items", VArr [Feeds.bare_item; VNull; Feeds.bare_item])])
    (lit "items")
  = VArr ([Feeds.bare_item] ++ VNull :: [Feeds.bare_item])
  /\ Forall (@item_ok Sample.platform) [Feeds.bare_item]
  /\ exists e st',
       @renderFeed Sample.platform
         (VObj [(lit "items", VArr [Feeds.bare_item; VNull; Feeds.bare_item])])
         Sample.blank
       = (Throw e, st')
       /\ List.length (resultsList (results st')) = 1.
Proof.
  assert (Hok : Forall (@item_ok Sample.platform) [Feeds.bare_item])
    by (constructor; [exact bare_item_ok|constructor]).
  split; [reflexivity|]. split; [exact Hok|].
  destruct (@renderFeed_null_item Sample.platform
              (VObj [(lit "items", VArr [Feeds.bare_item; VNull; Feeds.bare_item])])
              [Feeds.bare_item] [Feeds.bare_item] VNull Sample.blank
              eq_refl (or_introl eq_refl) Hok I I)
    as [e [st' [Hrun [_ [_ Hlen]]]]].
  exists e, st'. split; [exact Hrun|exact Hlen].
Defined.

Lemma sample_feed_address :
  @URL_resolve Sample.platform (lit "/api/feed") (origin (location Sample.blank))
  = Some (mkURL (lit "http://127.0.0.1:8000") (lit "127.0.0.1") (lit "/api/feed") [] []).
Proof. vm_compute. reflexivity. Qed.

Lemma loadFeed_always_completes_witness :
  @URL_resolve Sample.platform (lit "/api/feed") (origin (location Sample.blank))
  = Some (mkURL (lit "http://127.0.0.1:8000") (lit "127.0.0.1") (lit "/api/feed") [] [])
  /\ exists request resume s r,
       @loadFeed Sample.platform [(lit "channel_id", lit "UC1")] Sample.blank
       = Pending request (set_status (mkStatus loading_text false) Sample.blank) resume
       /\ resume (Responded 502 (lit "Bad Gateway")) Sample.blank
          = Done (Ok tt) (set_results r (set_status s Sample.blank)).
Proof.
  split; [exact sample_feed_address|].
  destruct (@loadFeed_always_completes Sample.platform [(lit "channel_id", lit "UC1")]
              Sample.blank _ sample_feed_address)
    as [request [resume [Hrun Hres]]].
  destruct (Hres (Responded 502 (lit "Bad Gateway")) Sample.blank) as [s [r Hr]].
  exists request, resume, s, r. split; [exact Hrun|exact Hr].
Defined.

Lemma loadFeed_success_witness :
  @URL_resolve Sample.platform (lit "/api/feed") (origin (location Sample.blank))
  = Some (mkURL (lit "http://127.0.0.1:8000") (lit "127.0.0.1") (lit "/api/feed") [] [])
  /\ @settle Sample.platform (Responded 200 (lit "{}")) = Ok (VObj [])
  /\ exists request resume,
       @loadFeed Sample.platform [(lit "channel_id", lit "UC1")] Sample.blank
       = Pending request (set_status (mkStatus loading_text false) Sample.blank) resume
       /\ resume (Responded 200 (lit "{}"))
            (set_status (mkStatus loading_text false) Sample.blank)
          = Done (Ok tt)
              (set_status (mkStatus [] false)
                 (set_results (mkResults (lit "Feed") [] [placeholder])
                    (set_status (mkStatus loading_text false) Sample.blank))).
Proof.
  assert (Hs : @settle Sample.platform (Responded 200 (lit "{}")) = Ok (VObj []))
    by reflexivity.
  split; [exact sample_feed_address|]. split; [exact Hs|].
  destruct (@loadFeed_success Sample.platform [(lit "channel_id", lit "UC1")]
              Sample.blank _ _ _ sample_feed_address Hs)
    as [request [resume [Hrun Hres]]].
  exists request, resume. split; [exact Hrun|].
  apply (Hres (set_status (mkStatus loading_text false) Sample.blank)). reflexivity.
Defined.

Lemma feeds_feed_address :
  @URL_resolve Feeds.platform (lit "/api/feed") (origin (location Sample.blank))
  = Some (mkURL (lit "http://127.0.0.1:8000") (lit "127.0.0.1") (lit "/api/feed") [] []).
Proof. vm_compute. reflexivity. Qed.

Lemma loadFeed_render_failure_witness :
  @URL_resolve Feeds.platform (lit "/api/feed") (origin (location Sample.blank))
  = Some (mkURL (lit "http://127.0.0.1:8000") (lit "127.0.0.1") (lit "/api/feed") [] [])
  /\ @settle Feeds.platform (Responded 200 Feeds.null_item_text)
     = Ok (VObj [(lit "items", VArr [VNull])])
  /\ exists request resume e st3 st4,
       @loadFeed Feeds.platform [(lit "channel_id", lit "UC1")] Sample.blank
       = Pending request (set_status (mkStatus loading_text false) Sample.blank) resume
       /\ @renderFeed Feeds.platform (VObj [(lit "items", VArr [VNull])]) Sample.blank
          = (Throw e, st3)
       /\ resume (Responded 200 Feeds.null_item_text) Sample.blank = Done (Ok tt) st4
       /\ status st4 = mkStatus (failure_text e) true
       /\ results st4 = mkResults (lit "Feed") [] [placeholder].
Proof.
  assert (Hs : @settle Feeds.platform (Responded 200 Feeds.null_item_text)
               = Ok (VObj [(lit "items", VArr [VNull])]))
    by (vm_compute; reflexivity).
  split; [exact feeds_feed_address|]. split; [exact Hs|].
  destruct (@loadFeed_render_failure Feeds.platform [(lit "channel_id", lit "UC1")]
              Sample.blank _ _ _ feeds_feed_address Hs)
    as [request [resume [Hrun [Hthrow _]]]].
  destruct (Hthrow Sample.blank _ _ eq_refl) as [st4 [Hres [Hst Hr]]].
  exists request, resume. eexists. eexists. exists st4.
  split; [exact Hrun|]. split; [reflexivity|].
  split; [exact Hres|]. split; [exact Hst|exact Hr].
Defined.

Lemma loadFeed_unparsable_body_witness :
  @URL_resolve Sample.platform (lit "/api/feed") (origin (location Sample.blank))
  = Some (mkURL (lit "http://127.0.0.1:8000") (lit "127.0.0.1") (lit "/api/feed") [] [])
  /\ (200 <= 200 <= 299)%N
  /\ @JSON_parse Sample.platform (lit "<html>") = None
  /\ exists request resume,
       @loadFeed Sample.platform [(lit "playlist_id", lit "PL1")] Sample.blank
       = Pending request (set_status (mkStatus loading_text false) Sample.blank) resume
       /\ resume (Responded 200 (lit "<html>")) Sample.blank
          = Done (Ok tt)
              (set_status (mkStatus [] false)
                 (set_results (mkResults (lit "Feed") [] [placeholder]) Sample.blank)).
Proof.
  assert (Hs : (200 <= 200 <= 299)%N) by lia.
  split; [exact sample_feed_address|]. split; [exact Hs|]. split; [reflexivity|].
  destruct (@loadFeed_unparsable_body Sample.platform [(lit "playlist_id", lit "PL1")]
              Sample.blank _ 200%N (lit "<html>") sample_feed_address Hs eq_refl)
    as [request [resume [Hrun Hres]]].
  exists request, resume. split; [exact Hrun|apply Hres].
Defined.

Lemma loadFeed_without_origin_witness :
  @URL_resolve Sample.platform (lit "/api/feed") (origin (location Feeds.file_page)) = None
  /\ exists st',
       @loadFeed Sample.platform [(lit "channel_id", lit "UC1")] Feeds.file_page
       = Done (Ok tt) st'
       /\ status st' = mkStatus (lit "Invalid URL") true
       /\ results st' = mkResults (lit "Feed") [] [placeholder].
Proof.
  assert (H : @URL_resolve Sample.platform (lit "/api/feed")
                (origin (location Feeds.file_page)) = None)
    by (vm_compute; reflexivity).
  split; [exact H|].
  destruct (@loadFeed_without_origin Sample.platform [(lit "channel_id", lit "UC1")]
              Feeds.file_page H)
    as [Hrun [_ Hr]].
  eexists. split; [exact Hrun|]. split; [reflexivity|exact Hr].
Defined.

Lemma channelBtn_click_selects_witness :
  @extractChannelId Sample.platform
    (VStr (channelInput
             (inputs (Feeds.typed
                        (mkInputs [] (lit "youtube.com/channel/UCuAXFkgsw1L7xaCfnd5JJOw") [])))))
  = Ok (Some (lit "UCuAXFkgsw1L7xaCfnd5JJOw"))
  /\ exists st1 resume,
       @channelBtn_click Sample.platform
         (Feeds.typed (mkInputs [] (lit "youtube.com/channel/UCuAXFkgsw1L7xaCfnd5JJOw") []))
       = Pending
           (lit "http://127.0.0.1:8000/api/feed?channel_id=UCuAXFkgsw1L7xaCfnd5JJOw")
           st1 resume
       /\ SearchParams.js_get (lit "channel") (address st1)
          = Some (lit "UCuAXFkgsw1L7xaCfnd5JJOw")
       /\ status st1 = mkStatus loading_text false.
Proof.
  assert (He : @extractChannelId Sample.platform
                 (VStr (channelInput
                          (inputs (Feeds.typed
                                     (mkInputs []
                                        (lit "youtube.com/channel/UCuAXFkgsw1L7xaCfnd5JJOw")
                                        [])))))
               = Ok (Some (lit "UCuAXFkgsw1L7xaCfnd5JJOw")))
    by (vm_compute; reflexivity).
  split; [exact He|].
  destruct (@channelBtn_click_selects Sample.platform _ _ _ He sample_feed_address)
    as [st1 [resume [Hrun [Hc [_ [_ [Hs _]]]]]]].
  exists st1, resume. split; [exact Hrun|]. split; [exact Hc|exact Hs].
Defined.

Lemma playlistBtn_click_selects_witness :
  @extractPlaylistId Sample.platform
    (VStr (playlistInput (inputs (Feeds.typed (mkInputs [] [] (lit "list=PLabc&index=2"))))))
  = Ok (Some (lit "PLabc"))
  /\ exists st1 resume,
       @playlistBtn_click Sample.platform
         (Feeds.typed (mkInputs [] [] (lit "list=PLabc&index=2")))
       = Pending (lit "http://127.0.0.1:8000/api/feed?playlist_id=PLabc") st1 resume
       /\ SearchParams.js_get (lit "playlist") (address st1) = Some (lit "PLabc")
       /\ status st1 = mkStatus loading_text false.
Proof.
  assert (He : @extractPlaylistId Sample.platform
                 (VStr (playlistInput
                          (inputs (Feeds.typed
                                     (mkInputs [] [] (lit "list=PLabc&index=2"))))))
               = Ok (Some (lit "PLabc")))
    by (vm_compute; reflexivity).
  split; [exact He|].
  destruct (@playlistBtn_click_selects Sample.platform _ _ _ He sample_feed_address)
    as [st1 [resume [Hrun [Hc [_ [_ [Hs _]]]]]]].
  exists st1, resume. split; [exact Hrun|]. split; [exact Hc|exact Hs].
Defined.

Lemma initFromQuery_feed_choice_witness :
  no_param "v" Feeds.channel_playlist_page
  /\ SearchParams.js_get (lit "channel") (address Feeds.channel_playlist_page)
     = Some (lit "UCuAXFkgsw1L7xaCfnd5JJOw" ++ [13%N; 10%N])
  /\ SearchParams.js_get (lit "playlist") (address Feeds.channel_playlist_page)
     = Some (lit "PLabc")
  /\ @initFromQuery Sample.platform Feeds.channel_playlist_page
     = @loadFeed Sample.platform [(lit "channel_id", lit "UCuAXFkgsw1L7xaCfnd5JJOw")]
         (with_channelInput (lit "UCuAXFkgsw1L7xaCfnd5JJOw") Feeds.channel_playlist_page)
  /\ (no_param "v" Feeds.handle_page
      /\ @extractChannelId Sample.platform (VStr (lit "@handle")) = Ok None
      /\ @initFromQuery Sample.platform Feeds.handle_page
         = Done (Ok tt) (with_channelInput (lit "@handle") Feeds.handle_page))
  /\ (no_param "v" Sample.blank
      /\ @initFromQuery Sample.platform Sample.blank = Done (Ok tt) Sample.blank).
Proof.
  assert (Hv : no_param "v" Feeds.channel_playlist_page) by (left; reflexivity).
  assert (Hh : no_param "v" Feeds.handle_page) by (left; reflexivity).
  assert (Hb : forall name, no_param name Sample.blank) by (intros name; left; reflexivity).
  assert (Hn : @extractChannelId Sample.platform (VStr (lit "@handle")) = Ok None)
    by (vm_compute; reflexivity).
  split; [exact Hv|]. split; [reflexivity|]. split; [reflexivity|].
  split; [|split].
  - destruct (@initFromQuery_feed_choice Sample.platform Feeds.channel_playlist_page Hv)
      as [_ [Hc _]].
    destruct (Hc (lit "UCuAXFkgsw1L7xaCfnd5JJOw" ++ [13%N; 10%N]) eq_refl) as [Hid _];
      [discriminate|].
    apply (Hid (lit "UCuAXFkgsw1L7xaCfnd5JJOw")). vm_compute. reflexivity.
  - split; [exact Hh|]. split; [exact Hn|].
    destruct (@initFromQuery_feed_choice Sample.platform Feeds.handle_page Hh)
      as [_ [Hc _]].
    destruct (Hc (lit "@handle") eq_refl) as [_ Hnone]; [discriminate|].
    apply Hnone. exact Hn.
  - split; [apply Hb|].
    destruct (@initFromQuery_feed_choice Sample.platform Sample.blank (Hb "v"))
      as [Hnone _].
    apply Hnone; apply Hb.
Defined.

Lemma initFromQuery_video_first_witness :
  SearchParams.js_get (lit "v") (address Feeds.video_channel_page)
  = Some (lit "dQw4w9WgXcQ" ++ [10%N])
  /\ @extractVideoId Sample.platform (VStr (lit "dQw4w9WgXcQ" ++ [10%N]))
     = Ok (Some (lit "dQw4w9WgXcQ"))
  /\ exists st1 resume m,
       @initFromQuery Sample.platform Feeds.video_channel_page
       = Pending (lit "/api/oembed?v=dQw4w9WgXcQ") st1 resume
       /\ location st1 = location Feeds.video_channel_page
       /\ videoInput (inputs st1) = lit "dQw4w9WgXcQ"
       /\ resume (Responded 404 (lit "Not Found")) st1
          = @loadFeed Sample.platform [(lit "channel_id", lit "UCuAXFkgsw1L7xaCfnd5JJOw")]
              (with_channelInput (lit "UCuAXFkgsw1L7xaCfnd5JJOw") (set_meta m st1)).
Proof.
  assert (Hv : SearchParams.js_get (lit "v") (address Feeds.video_channel_page)
               = Some (lit "dQw4w9WgXcQ" ++ [10%N])) by reflexivity.
  assert (He : @extractVideoId Sample.platform (VStr (lit "dQw4w9WgXcQ" ++ [10%N]))
               = Ok (Some (lit "dQw4w9WgXcQ"))) by (vm_compute; reflexivity).
  assert (Hc : @extractChannelId Sample.platform (VStr (lit "UCuAXFkgsw1L7xaCfnd5JJOw"))
               = Ok (Some (lit "UCuAXFkgsw1L7xaCfnd5JJOw"))) by (vm_compute; reflexivity).
  split; [exact Hv|]. split; [exact He|].
  destruct (@initFromQuery_video_first Sample.platform sample_laws _ _
              Feeds.video_channel_page Hv He)
    as [src [st1 [resume [Hrun [Hloc [Hin [_ [_ [_ [_ [_ Hfeed]]]]]]]]]]].
  destruct (Hfeed _ _ eq_refl Hc (Responded 404 (lit "Not Found")) st1) as [m Hm].
  exists st1, resume, m.
  split; [exact Hrun|]. split; [exact Hloc|]. split; [exact Hin|exact Hm].
Defined.


Lemma playBtn_click_permalink_witness :
  @extractVideoId Sample.platform
    (VStr (videoInput
             (inputs (Feeds.typed (mkInputs (lit "https://youtu.be/dQw4w9WgXcQ") [] [])))))
  = Ok (Some (lit "dQw4w9WgXcQ"))
  /\ exists st1 resume,
       @playBtn_click Sample.platform
         (Feeds.typed (mkInputs (lit "https://youtu.be/dQw4w9WgXcQ") [] []))
       = Pending (lit "/api/oembed?v=dQw4w9WgXcQ") st1 resume
       /\ status st1 = mkStatus [] false
       /\ address st1 = [(lit "v", lit "dQw4w9WgXcQ")]
       /\ @extractVideoId Sample.platform (param_value "v" (location st1))
          = Ok (Some (lit "dQw4w9WgXcQ")).
Proof.
  assert (He : @extractVideoId Sample.platform
                 (VStr (videoInput
                          (inputs (Feeds.typed
                                     (mkInputs (lit "https://youtu.be/dQw4w9WgXcQ") [] [])))))
               = Ok (Some (lit "dQw4w9WgXcQ")))
    by (vm_compute; reflexivity).
  split; [exact He|].
  destruct (@playBtn_click_permalink Sample.platform sample_laws _ _ He)
    as [src [st1 [resume [Hrun [Hs [_ [Hloc [_ [_ [_ Hback]]]]]]]]]].
  exists st1, resume. split; [exact Hrun|]. split; [exact Hs|].
  split; [unfold address; rewrite Hloc; reflexivity|exact Hback].
Defined.

Lemma entry_click_plays_witness :
  get_opt (VObj [(lit "videoId", VStr (lit "dQw4w9WgXcQ"))]) (lit "videoId")
  = VStr (lit "dQw4w9WgXcQ")
  /\ lit "dQw4w9WgXcQ" <> []
  /\ Str.encodeURIComponent (lit "dQw4w9WgXcQ") = Some (lit "dQw4w9WgXcQ")
  /\ exists st1 resume,
       @entry_click Sample.platform (VObj [(lit "videoId", VStr (lit "dQw4w9WgXcQ"))])
         false Sample.blank
       = Pending (lit "/api/oembed?v=dQw4w9WgXcQ") st1 resume
       /\ address st1 = [(lit "v", lit "dQw4w9WgXcQ")]
       /\ status st1 = status Sample.blank.
Proof.
  assert (Hne : lit "dQw4w9WgXcQ" <> []) by discriminate.
  assert (Henc : Str.encodeURIComponent (lit "dQw4w9WgXcQ") = Some (lit "dQw4w9WgXcQ"))
    by (vm_compute; reflexivity).
  split; [reflexivity|]. split; [exact Hne|]. split; [exact Henc|].
  destruct (@entry_click_plays Sample.platform sample_laws
              [(lit "videoId", VStr (lit "dQw4w9WgXcQ"))] _ _ Sample.blank
              eq_refl Hne Henc)
    as [[src [st1 [resume [Hrun [_ [Hloc [Hs _]]]]]]] _].
  exists st1, resume. split; [exact Hrun|].
  split; [unfold address; rewrite Hloc; reflexivity|exact Hs].
Defined.

Lemma setQuery_twice_witness :
  NoDup (named [(lit "channel", VStr (lit "UC1")); (lit "playlist", VNull)])
  /\ Forall (fun kv => optional_text (snd kv))
       [(lit "channel", VStr (lit "UC1")); (lit "playlist", VNull)]
  /\ exists st',
       @setQuery Sample.platform
         [(lit "channel", VStr (lit "UC1")); (lit "playlist", VNull)]
         Sample.playlist_page = (Ok tt, st')
       /\ @setQuery Sample.platform
            [(lit "channel", VStr (lit "UC1")); (lit "playlist", VNull)] st'
          = (Ok tt, st').
Proof.
  assert (Hnd : NoDup (named [(lit "channel", VStr (lit "UC1")); (lit "playlist", VNull)])).
  { vm_compute. constructor; [|constructor; [|constructor]]; simpl; [|tauto].
    intros [H|[]]; discriminate. }
  assert (Hty : Forall (fun kv => optional_text (snd kv))
                  [(lit "channel", VStr (lit "UC1")); (lit "playlist", VNull)])
    by (repeat constructor).
  split; [exact Hnd|]. split; [exact Hty|].
  exact (@setQuery_twice Sample.platform _ Sample.playlist_page Hnd Hty).
Defined.

Lemma extractChannelId_leftmost_witness :
  @extractChannelId Sample.platform
    (VStr (lit "see youtube.com/channel/UCuAXFkgsw1L7xaCfnd5JJOw/videos"))
  = Ok (Some (lit "UCuAXFkgsw1L7xaCfnd5JJOw"))
  /\ ChannelId (lit "UCuAXFkgsw1L7xaCfnd5JJOw")
  /\ occurs (lit "UCuAXFkgsw1L7xaCfnd5JJOw")
       (Str.trim (lit "see youtube.com/channel/UCuAXFkgsw1L7xaCfnd5JJOw/videos"))
  /\ (@extractChannelId Sample.platform (VStr (lit "@handle")) = Ok None
      /\ forall id, occurs id (Str.trim (lit "@handle")) -> ~ ChannelId id).
Proof.
  assert (He : @extractChannelId Sample.platform
                 (VStr (lit "see youtube.com/channel/UCuAXFkgsw1L7xaCfnd5JJOw/videos"))
               = Ok (Some (lit "UCuAXFkgsw1L7xaCfnd5JJOw")))
    by (vm_compute; reflexivity).
  assert (Hn : @extractChannelId Sample.platform (VStr (lit "@handle")) = Ok None)
    by (vm_compute; reflexivity).
  split; [exact He|].
  destruct (@extractChannelId_leftmost Sample.platform
              (lit "see youtube.com/channel/UCuAXFkgsw1L7xaCfnd5JJOw/videos"))
    as [Hfound _].
  destruct (Hfound _ He) as [Hid [a [b [Hs _]]]].
  split; [exact Hid|]. split; [exists a, b; exact Hs|].
  split; [exact Hn|].
  apply (@extractChannelId_leftmost Sample.platform (lit "@handle")). exact Hn.
Defined.

Lemma extractPlaylistId_greedy_witness :
  @extractPlaylistId Sample.platform (VStr (lit "list=PLabc&index=2"))
  = Ok (Some (lit "PLabc"))
  /\ PlaylistId (lit "PLabc")
  /\ exists a b,
       Str.trim (lit "list=PLabc&index=2") = a ++ lit "PLabc" ++ b
       /\ forall c b', b = c :: b' -> ~ In c alphabet.
Proof.
  assert (He : @extractPlaylistId Sample.platform (VStr (lit "list=PLabc&index=2"))
               = Ok (Some (lit "PLabc")))
    by (vm_compute; reflexivity).
  split; [exact He|].
  destruct (@extractPlaylistId_greedy Sample.platform (lit "list=PLabc&index=2"))
    as [Hfound _].
  destruct (Hfound _ He) as [Hid [a [b [Hs [Hstop _]]]]].
  split; [exact Hid|]. exists a, b. split; [exact Hs|exact Hstop].
Defined.

Lemma extractors_accept_their_results_witness :
  @extractVideoId Sample.platform (VStr (lit "https://youtu.be/dQw4w9WgXcQ"))
  = Ok (Some (lit "dQw4w9WgXcQ"))
  /\ @extractVideoId Sample.platform (VStr (lit "dQw4w9WgXcQ"))
     = Ok (Some (lit "dQw4w9WgXcQ")).
Proof.
  assert (He : @extractVideoId Sample.platform (VStr (lit "https://youtu.be/dQw4w9WgXcQ"))
               = Ok (Some (lit "dQw4w9WgXcQ")))
    by (vm_compute; reflexivity).
  split; [exact He|].
  apply (@extractors_accept_their_results Sample.platform
           (VStr (lit "https://youtu.be/dQw4w9WgXcQ")) (lit "dQw4w9WgXcQ")).
  exact He.
Defined.

Lemma clicks_without_id_witness :
  @extractVideoId Sample.platform
    (VStr (videoInput (inputs (Feeds.typed (mkInputs (lit "https://example.com/") [] [])))))
  = Ok None
  /\ @URL_parse Sample.platform
       (Str.trim (videoInput
          (inputs (Feeds.typed (mkInputs (lit "https://example.com/") [] [])))))
     = Some (mkURL (lit "https://example.com") (lit "example.com") (lit "/") [] [])
  /\ @playBtn_click Sample.platform
       (Feeds.typed (mkInputs (lit "https://example.com/") [] []))
     = Done (Ok tt)
         (set_status (mkStatus no_video_text true)
            (Feeds.typed (mkInputs (lit "https://example.com/") [] [])))
  /\ @playBtn_click Sample.platform (Feeds.typed (mkInputs (lit "hello") [] []))
     = Done (Ok tt)
         (set_status (mkStatus no_video_text true)
            (Feeds.typed (mkInputs (lit "hello") [] []))).
Proof.
  assert (He : @extractVideoId Sample.platform
                 (VStr (videoInput
                    (inputs (Feeds.typed (mkInputs (lit "https://example.com/") [] [])))))
               = Ok None)
    by (vm_compute; reflexivity).
  assert (Hn : ~ VideoId (Str.trim (videoInput
                            (inputs (Feeds.typed (mkInputs (lit "hello") [] [])))))).
  { intros [Hl _]. vm_compute in Hl. discriminate. }
  assert (Hu : @URL_parse Sample.platform
                 (Str.trim (videoInput
                    (inputs (Feeds.typed (mkInputs (lit "hello") [] [])))))
               = None)
    by (vm_compute; reflexivity).
  split; [exact He|]. split; [vm_compute; reflexivity|].
  split.
  - destruct (@clicks_without_id Sample.platform sample_laws
                (Feeds.typed (mkInputs (lit "https://example.com/") [] [])))
      as [Hplay _].
    apply Hplay. exact He.
  - destruct (@clicks_without_id Sample.platform sample_laws
                (Feeds.typed (mkInputs (lit "hello") [] [])))
      as [_ [_ [_ [Hplain _]]]].
    apply Hplain; assumption.
Defined.

Lemma setPlayer_idempotent_witness :
  (exists e,
      fst (@setPlayer Sample.platform (VObj [(lit "toString", VNull)]) Feeds.playing_page)
      = Throw e)
  /\ player (snd (@setPlayer Sample.platform (VObj [(lit "toString", VNull)])
                   Feeds.playing_page))
     = player Feeds.playing_page
  /\ player (snd (@setPlayer Sample.platform (VObj [(lit "toString", VNull)])
                   Sample.blank))
     = mkPlayer [] (lit "none")
  /\ fst (@setPlayer Sample.platform (VStr (lit "dQw4w9WgXcQ")) Sample.blank) = Ok tt
  /\ player (snd (@setPlayer Sample.platform (VStr (lit "dQw4w9WgXcQ")) Sample.blank))
     = player Feeds.playing_page.
Proof.
  assert (Ht : fst (@setPlayer Sample.platform (VObj [(lit "toString", VNull)])
                      Feeds.playing_page)
               = Throw (Thrown "TypeError" (lit "Cannot convert object to primitive value")))
    by (vm_compute; reflexivity).
  assert (Hb : fst (@setPlayer Sample.platform (VObj [(lit "toString", VNull)])
                      Sample.blank)
               = Throw (Thrown "TypeError" (lit "Cannot convert object to primitive value")))
    by (vm_compute; reflexivity).
  assert (Hok : fst (@setPlayer Sample.platform (VStr (lit "dQw4w9WgXcQ")) Sample.blank)
                = Ok tt)
    by (vm_compute; reflexivity).
  split; [eexists; exact Ht|].
  destruct (@setPlayer_idempotent Sample.platform (VObj [(lit "toString", VNull)])
              Feeds.playing_page)
    as [_ [_ [_ [_ [Hthrow _]]]]].
  split; [rewrite (Hthrow _ Ht); reflexivity|].
  destruct (@setPlayer_idempotent Sample.platform (VObj [(lit "toString", VNull)])
              Sample.blank)
    as [_ [_ [_ [_ [Hthrow' _]]]]].
  split; [rewrite (Hthrow' _ Hb); reflexivity|].
  split; [exact Hok|].
  destruct (@setPlayer_idempotent Sample.platform (VStr (lit "dQw4w9WgXcQ"))
              Feeds.playing_page)
    as [_ [_ [_ [Hsame _]]]].
  rewrite (Hsame eq_refl Sample.blank). reflexivity.
Defined.
